(** * Brookstone WhatsApp bot: a shallow embedding of [whatsapp_bot.py]

    The development follows the source file top to bottom: Python text and
    the [re] patterns the bot uses, the JSON-shaped values it receives, the
    external calls (WhatsApp Graph API, Gemini, Google Sheets) as events
    answered by an oracle, and then the bot's own functions under their
    source names.  Theorems come after all definitions. *)

From Stdlib Require Import ZArith NArith List String Ascii Bool Lia DecimalString.
From stdpp Require Import base option list countable gmap.

Local Open Scope N_scope.

(** ** Python text *)

(** A Python [str] is a sequence of Unicode code points. *)
Abbreviation char := N (only parsing).
Abbreviation str := (list N) (only parsing).

Fixpoint bytes_of_string (s : string) : list N :=
  match s with
  | EmptyString => []
  | String a s' => N_of_ascii a :: bytes_of_string s'
  end.

(** UTF-8 decoding, used only to write the source's literals as they appear
    in the source file. *)
Fixpoint utf8_decode (bs : list N) : str :=
  match bs with
  | [] => []
  | b0 :: t0 =>
      if b0 <? 128 then b0 :: utf8_decode t0
      else match t0 with
           | [] => []
           | b1 :: t1 =>
               if b0 <? 224 then ((b0 - 192) * 64 + (b1 - 128)) :: utf8_decode t1
               else match t1 with
                    | [] => []
                    | b2 :: t2 =>
                        if b0 <? 240
                        then ((b0 - 224) * 4096 + (b1 - 128) * 64 + (b2 - 128))
                               :: utf8_decode t2
                        else match t2 with
                             | [] => []
                             | b3 :: t3 =>
                                 ((b0 - 240) * 262144 + (b1 - 128) * 4096
                                  + (b2 - 128) * 64 + (b3 - 128)) :: utf8_decode t3
                             end
                    end
           end
  end.

Definition utf8 (s : string) : str := utf8_decode (bytes_of_string s).

(** Line feed, for the triple-quoted literals of the source. *)
Definition nl : str := [10].

Definition str_eqb (a b : str) : bool := bool_decide (a = b).

Fixpoint starts_with (p s : str) : bool :=
  match p, s with
  | [], _ => true
  | _ :: _, [] => false
  | a :: p', b :: s' => (a =? b) && starts_with p' s'
  end.

(** [needle in hay] on strings. *)
Fixpoint contains (needle hay : str) : bool :=
  starts_with needle hay ||
  match hay with
  | [] => false
  | _ :: hay' => contains needle hay'
  end.

(** [any(kw in text for kw in kws)] *)
Definition any_in (kws : list str) (text : str) : bool :=
  existsb (fun kw => contains kw text) kws.

(** ** Exceptions *)

Inductive exn :=
| APIError | AttributeError | IndexError | JSONDecodeError | KeyError | RequestException
| TypeError | UnboundLocalError | ValueError.

Inductive outcome (A : Type) :=
| Ok (a : A)
| Raise (e : exn).
Arguments Ok {A} a.
Arguments Raise {A} e.

(** The Unicode tables of the Python runtime.  On ASCII text the behaviour
    of [str.lower], [str.strip], [\d], [\s], [\w] and [float] is written out
    below; what the runtime does beyond ASCII is taken from these tables. *)
Class Unicode := {
  (** [str.lower()] of a text holding some non-ASCII character *)
  uni_lower : str -> str;
  (** [str.isspace()] of a non-ASCII character *)
  uni_isspace : char -> bool;
  (** value of a non-ASCII decimal digit (category Nd), if it is one *)
  uni_decimal : char -> option N;
  (** a non-ASCII character is alphanumeric ([\w]) *)
  uni_isalnum : char -> bool;
  (** [f"{float(s)}"] where [s] is not a plain decimal literal;
      [None] stands for [ValueError] *)
  float_other : str -> option str;
  (** [f"{x}"] for the float nearest to the decimal with the given
      integer and fraction digits, where that is not the decimal itself *)
  float_repr_long : list N -> list N -> str
}.

Section Text.
Context `{Unicode}.

Definition is_ascii (c : char) : bool := c <? 128.

Definition ascii_lower (c : char) : char :=
  if (65 <=? c) && (c <=? 90) then c + 32 else c.

(** [s.lower()] *)
Definition lower (s : str) : str :=
  if forallb is_ascii s then map ascii_lower s else uni_lower s.

(** [c.isspace()]: tab, LF, VT, FF, CR, the four separators FS..US and space *)
Definition is_space (c : char) : bool :=
  if is_ascii c
  then ((9 <=? c) && (c <=? 13)) || ((28 <=? c) && (c <=? 31)) || (c =? 32)
  else uni_isspace c.

Fixpoint lstrip (s : str) : str :=
  match s with
  | c :: s' => if is_space c then lstrip s' else s
  | [] => []
  end.

(** [s.strip()] *)
Definition strip (s : str) : str := rev (lstrip (rev (lstrip s))).

(** Value of a decimal digit; [\d] in a [str] pattern is "has a value". *)
Definition decimal_value (c : char) : option N :=
  if is_ascii c
  then (if (48 <=? c) && (c <=? 57) then Some (c - 48) else None)
  else uni_decimal c.

Definition is_digit (c : char) : bool :=
  match decimal_value c with Some _ => true | None => false end.

(** [\w]: alphanumeric or underscore *)
Definition is_word (c : char) : bool :=
  if is_ascii c
  then ((48 <=? c) && (c <=? 57)) || ((65 <=? c) && (c <=? 90))
       || ((97 <=? c) && (c <=? 122)) || (c =? 95)
  else uni_isalnum c.

(** ** The [re] patterns

    Only the constructs the source's patterns use: one-character classes,
    sequence, ordered alternation, greedy repetition of a class, one
    capturing group and the word boundary.  Matching is Python's:
    backtracking, leftmost, greedy. *)

Inductive regex :=
| RClass (p : char -> bool)
| REmpty
| RSeq (r1 r2 : regex)
| RAlt (r1 r2 : regex)
| RStar (p : char -> bool)
| RGroup (r : regex)
| RWordBoundary.

(** The matcher's position: the text already consumed (most recent
    character first), the text ahead, and the capture of group 1. *)
Record cursor := Cursor { seen : str; ahead : str; group1 : option str }.

Definition consumed_since (before after : cursor) : str :=
  rev (take (length (seen after) - length (seen before))%nat (seen after)).

Definition word_at (o : option char) : bool :=
  match o with Some c => is_word c | None => false end.

Definition at_word_boundary (c : cursor) : bool :=
  xorb (word_at (head (seen c))) (word_at (head (ahead c))).

Fixpoint re_star {A} (p : char -> bool) (sn ah : str) (g : option str)
    (k : cursor -> option A) : option A :=
  match ah with
  | c :: ah' =>
      if p c
      then match re_star p (c :: sn) ah' g k with
           | Some a => Some a
           | None => k (Cursor sn ah g)
           end
      else k (Cursor sn ah g)
  | [] => k (Cursor sn ah g)
  end.

Fixpoint re_run {A} (r : regex) (c : cursor) (k : cursor -> option A) : option A :=
  match r with
  | RClass p =>
      match ahead c with
      | x :: ah' => if p x then k (Cursor (x :: seen c) ah' (group1 c)) else None
      | [] => None
      end
  | REmpty => k c
  | RSeq r1 r2 => re_run r1 c (fun c1 => re_run r2 c1 k)
  | RAlt r1 r2 =>
      match re_run r1 c k with
      | Some a => Some a
      | None => re_run r2 c k
      end
  | RStar p => re_star p (seen c) (ahead c) (group1 c) k
  | RGroup r1 =>
      re_run r1 c (fun c1 => k (Cursor (seen c1) (ahead c1) (Some (consumed_since c c1))))
  | RWordBoundary => if at_word_boundary c then k c else None
  end.

(** A successful match: [group()] and [group(1)]. *)
Record re_match := ReMatch { whole : str; captured : option str }.

Definition re_at (r : regex) (c : cursor) : option re_match :=
  re_run r c (fun c1 => Some (ReMatch (consumed_since c c1) (group1 c1))).

(** [re.match(r, text)]: at the start of the text only *)
Definition re_match_start (r : regex) (text : str) : option re_match :=
  re_at r (Cursor [] text None).

Fixpoint re_search_from (r : regex) (sn ah : str) : option re_match :=
  match re_at r (Cursor sn ah None) with
  | Some m => Some m
  | None =>
      match ah with
      | c :: ah' => re_search_from r (c :: sn) ah'
      | [] => None
      end
  end.

(** [re.search(r, text)]: the leftmost position with a match *)
Definition re_search (r : regex) (text : str) : option re_match :=
  re_search_from r [] text.

(** Pattern syntax *)
Definition RChar (c : char) : regex := RClass (N.eqb c).
Definition ROneOf (cs : str) : regex := RClass (fun c => existsb (N.eqb c) cs).
Definition RRange (lo hi : char) : regex := RClass (fun c => (lo <=? c) && (c <=? hi)).
Definition ROpt (r : regex) : regex := RAlt r REmpty.
Definition RPlus (p : char -> bool) : regex := RSeq (RClass p) (RStar p).
Fixpoint RLit (s : str) : regex :=
  match s with
  | [] => REmpty
  | c :: s' => RSeq (RChar c) (RLit s')
  end.
Fixpoint RTimes (n : nat) (r : regex) : regex :=
  match n with
  | O => REmpty
  | S n' => RSeq r (RTimes n' r)
  end.
Fixpoint RAlts (rs : list regex) (last : regex) : regex :=
  match rs with
  | [] => last
  | r :: rs' => RAlt r (RAlts rs' last)
  end.

(** ** [float] and its formatting *)

Definition dot : char := 46.

Fixpoint digit_values (s : str) : option (list N) :=
  match s with
  | [] => Some []
  | c :: s' =>
      match decimal_value c, digit_values s' with
      | Some d, Some ds => Some (d :: ds)
      | _, _ => None
      end
  end.

Fixpoint split_at_dot (s : str) : str * option str :=
  match s with
  | [] => ([], None)
  | c :: s' =>
      if c =? dot then ([], Some s')
      else let '(i, f) := split_at_dot s' in (c :: i, f)
  end.

(** A plain decimal literal: digits, then optionally a point and digits. *)
Definition decimal_literal (s : str) : option (list N * list N) :=
  let '(i, f) := split_at_dot s in
  match i, digit_values i, digit_values (default [] f) with
  | _ :: _, Some ds, Some fs => Some (ds, fs)
  | _, _, _ => None
  end.

Fixpoint drop_zeros (ds : list N) : list N :=
  match ds with
  | 0 :: ds' => drop_zeros ds'
  | _ => ds
  end.

Definition drop_trailing_zeros (ds : list N) : list N := rev (drop_zeros (rev ds)).

Definition digit_char (d : N) : char := 48 + d.

Definition digits_or_zero (ds : list N) : str :=
  match ds with
  | [] => [48]
  | _ => map digit_char ds
  end.

(** [f"{x}"] for [x = float(s)], [s] the decimal [i.f].  A decimal of at
    most 15 significant digits survives the trip through a double, and
    [repr] prints it positionally when it is zero or lies in
    [1e-4, 1e16); everything else is left to the runtime's table. *)
Definition float_format (i f : list N) : str :=
  let i' := drop_zeros i in
  let f' := drop_trailing_zeros f in
  let significant := length (drop_trailing_zeros (drop_zeros (i' ++ f'))) in
  let positional :=
    match i', f' with
    | [], [] => true
    | [], _ => bool_decide (length f' - length (drop_zeros f') <= 3)%nat
    | _, _ => bool_decide (length i' <= 16)%nat
    end in
  if positional && bool_decide (significant <= 15)%nat
  then digits_or_zero i' ++ [dot] ++ digits_or_zero f'
  else float_repr_long i f.

(** [f"{float(s)}"]; [None] is [ValueError]. *)
Definition float_str (s : str) : option str :=
  match decimal_literal s with
  | Some (i, f) => Some (float_format i f)
  | None => float_other s
  end.

(** ** Language detection *)

(** [detect_language]: the Gujarati block is U+0A80..U+0AFF.  The source
    compares the float quotient [gujarati_chars / len(text)] with [0.2];
    for every text shorter than 2^50 characters that is the exact
    comparison [5 * gujarati_chars > len(text)] written here. *)
Definition gujarati : str := utf8 "gujarati".
Definition english : str := utf8 "english".

Definition detect_language (text : str) : str :=
  let gujarati_chars :=
    N.of_nat (length (filter (fun c => Is_true ((2688 <=? c) && (c <=? 2815))) text)) in
  if bool_decide (0 < length text)%nat && (N.of_nat (length text) <? 5 * gujarati_chars)
  then gujarati else english.

(** ** Budget extraction *)

(** A pattern as the source has it: its text, which the code inspects with
    [in], and its meaning. *)
Record pattern := Pattern { pattern_src : str; pattern_re : regex }.

(** The capturing group of every pattern: one or more digits, an optional
    point, any number of digits. *)
Definition amount_group : regex :=
  RGroup (RSeq (RPlus is_digit) (RSeq (ROpt (RChar dot)) (RStar is_digit))).

(** The unit alternatives [cr|crore|crores] and [lakh|lakhs]. *)
Definition crore_unit : regex :=
  RAlts [RLit (utf8 "cr"); RLit (utf8 "crore")] (RLit (utf8 "crores")).
Definition lakh_unit : regex :=
  RAlts [RLit (utf8 "lakh")] (RLit (utf8 "lakhs")).

Definition amount_then (unit : regex) : regex :=
  RSeq amount_group (RSeq (RStar is_space) unit).

(** The currency sign of the third and fourth pattern, as the source file
    spells it. *)
Definition rupee_sign : str := utf8 "â‚¹".

Definition rupee_then (unit : regex) : regex :=
  RSeq (RLit rupee_sign) (RSeq (RStar is_space) (amount_then unit)).

Definition crore_pattern : pattern :=
  Pattern (utf8 "(\d+\.?\d*)\s*(?:cr|crore|crores)") (amount_then crore_unit).
Definition lakh_pattern : pattern :=
  Pattern (utf8 "(\d+\.?\d*)\s*(?:lakh|lakhs)") (amount_then lakh_unit).
Definition rupee_crore_pattern : pattern :=
  Pattern (rupee_sign ++ utf8 "\s*(\d+\.?\d*)\s*(?:cr|crore|crores)") (rupee_then crore_unit).
Definition rupee_lakh_pattern : pattern :=
  Pattern (rupee_sign ++ utf8 "\s*(\d+\.?\d*)\s*(?:lakh|lakhs)") (rupee_then lakh_unit).

Definition budget_patterns : list pattern :=
  [crore_pattern; lakh_pattern; rupee_crore_pattern; rupee_lakh_pattern].

(** The loop body of [extract_budget_from_text] over the remaining
    patterns.  [match.group(1)] of a pattern without a participating group
    would be [None], on which [float] raises [TypeError]. *)
Fixpoint budget_loop (patterns : list pattern) (text_lower : str) : outcome (option str) :=
  match patterns with
  | [] => Ok None
  | p :: rest =>
      match re_search (pattern_re p) text_lower with
      | Some m =>
          match captured m with
          | None => Raise TypeError
          | Some g =>
              match float_str g with
              | None => Raise ValueError
              | Some amount =>
                  if contains (utf8 "cr") (pattern_src p)
                     || contains (utf8 "crore") (pattern_src p)
                  then Ok (Some (amount ++ utf8 " Cr"))
                  else if contains (utf8 "lakh") (pattern_src p)
                  then Ok (Some (amount ++ utf8 " Lakh"))
                  else budget_loop rest text_lower
              end
          end
      | None => budget_loop rest text_lower
      end
  end.

Definition extract_budget_from_text (text : str) : outcome (option str) :=
  budget_loop budget_patterns (lower text).

End Text.

(** The ASCII-only runtime: every table empty.  It agrees with Python on
    ASCII text and serves to run the definitions on concrete inputs. *)
Definition ascii_only : Unicode :=
  {| uni_lower := fun s => s;
     uni_isspace := fun _ => false;
     uni_decimal := fun _ => None;
     uni_isalnum := fun _ => false;
     float_other := fun _ => None;
     float_repr_long := fun _ _ => [] |}.


(** ** Python values

    The values the bot receives from JSON (webhook payloads, the FAQ files,
    Gemini responses) and passes around.  JSON numbers are kept as integers;
    a [dict] is its list of items in insertion order, keys distinct. *)

#[local] Set Warnings "-register-all".
Inductive pyval :=
| PNone
| PBool (b : bool)
| PInt (z : Z)
| PStr (s : str)
| PList (l : list pyval)
| PDict (d : list (str * pyval)).

Fixpoint dict_lookup (k : str) (d : list (str * pyval)) : option pyval :=
  match d with
  | [] => None
  | (k', v) :: d' => if str_eqb k k' then Some v else dict_lookup k d'
  end.

(** [bool(v)] *)
Definition truthy (v : pyval) : bool :=
  match v with
  | PNone => false
  | PBool b => b
  | PInt z => negb (z =? 0)%Z
  | PStr s => negb (bool_decide (s = []))
  | PList l => negb (bool_decide (length l = 0%nat))
  | PDict d => negb (bool_decide (length d = 0%nat))
  end.

(** [v.get(k, default)]: only a [dict] has the method. *)
Definition py_get (v : pyval) (k : str) (dflt : pyval) : outcome pyval :=
  match v with
  | PDict d => Ok (default dflt (dict_lookup k d))
  | _ => Raise AttributeError
  end.

(** [v[k]] for a string [k] *)
Definition py_getitem (v : pyval) (k : str) : outcome pyval :=
  match v with
  | PDict d =>
      match dict_lookup k d with
      | Some x => Ok x
      | None => Raise KeyError
      end
  | _ => Raise TypeError
  end.

(** [v[0]] *)
Definition py_first (v : pyval) : outcome pyval :=
  match v with
  | PList (x :: _) => Ok x
  | PList [] => Raise IndexError
  | PStr (c :: _) => Ok (PStr [c])
  | PStr [] => Raise IndexError
  | PDict _ => Raise KeyError
  | _ => Raise TypeError
  end.

(** [v == s] for a string [s] *)
Definition py_eq_str (v : pyval) (s : str) : bool :=
  match v with
  | PStr t => str_eqb t s
  | _ => false
  end.

(** [k in v] for a string [k]: key of a dict, element of a list, substring
    of a string; the other values are not containers. *)
Definition py_in (k : str) (v : pyval) : outcome bool :=
  match v with
  | PDict d => Ok (bool_decide (is_Some (dict_lookup k d)))
  | PList l => Ok (existsb (fun x => py_eq_str x k) l)
  | PStr s => Ok (contains k s)
  | _ => Raise TypeError
  end.

(** [len(v)] *)
Definition py_len (v : pyval) : outcome nat :=
  match v with
  | PDict d => Ok (length d)
  | PList l => Ok (length l)
  | PStr s => Ok (length s)
  | _ => Raise TypeError
  end.

(** The items [for x in v] visits: elements, keys or characters. *)
Definition py_iter (v : pyval) : outcome (list pyval) :=
  match v with
  | PList l => Ok l
  | PDict d => Ok (map (fun kv => PStr (fst kv)) d)
  | PStr s => Ok (map (fun c => PStr [c]) s)
  | _ => Raise TypeError
  end.

(** ** The error monad *)

Definition obind {A B} (m : outcome A) (f : A -> outcome B) : outcome B :=
  match m with
  | Ok a => f a
  | Raise e => Raise e
  end.

Declare Scope outcome_scope.
Delimit Scope outcome_scope with outcome.
Notation "'let?' x := m 'in' k" := (obind m (fun x => k))
  (at level 10, x name, m at level 100, k at level 200) : outcome_scope.
Local Open Scope outcome_scope.

(** [a and b], [b] evaluated only when [a] holds *)
Definition oand (a : outcome bool) (b : outcome bool) : outcome bool :=
  let? x := a in if x then b else Ok false.

(** ** Relevant FAQ data (from appq_gemini.py) *)

Definition dq : str := [34].

(** The result under construction, [relevant_data]. *)
Abbreviation relevant := (gmap str pyval) (only parsing).

Section Relevance.
Context `{Unicode}.

(** [if name in lang_data: relevant_data[target] = lang_data[name]] *)
Definition copy_section (lang_data : pyval) (name target : str) (rd : relevant)
    : outcome relevant :=
  let? present := py_in name lang_data in
  if present
  then let? v := py_getitem lang_data name in Ok (<[target := v]> rd)
  else Ok rd.

(** [if 'construction_specifications' in lang_data and
        'elevator' in lang_data['construction_specifications']:
      relevant_data['elevator'] = lang_data['construction_specifications']['elevator']] *)
Definition copy_construction_elevator (lang_data : pyval) (rd : relevant)
    : outcome relevant :=
  let? present :=
    oand (py_in (utf8 "construction_specifications") lang_data)
         (let? cs := py_getitem lang_data (utf8 "construction_specifications") in
          py_in (utf8 "elevator") cs) in
  if present
  then let? cs := py_getitem lang_data (utf8 "construction_specifications") in
       let? e := py_getitem cs (utf8 "elevator") in
       Ok (<[utf8 "elevator" := e]> rd)
  else Ok rd.

Definition ground_floor_keywords : list str :=
  [utf8 "ground floor"; utf8 "ground level"; utf8 "ground"; utf8 "facility";
   utf8 "amenity"; utf8 "foyer"; utf8 "entrance"; utf8 "gym"; utf8 "library";
   utf8 "toddler"; utf8 "children"; utf8 "play"; utf8 "lift"; utf8 "elevator";
   utf8 "stair"; utf8 "parking"; utf8 "society office"; utf8 "reception"].

Definition gujarati_keywords : list str :=
  [utf8 "àª—à«àª°àª¾àª‰àª¨à«àª¡"; utf8 "àª¨à«€àªšàª²à«‹ àª®àª¾àª³"; utf8 "àª«à«‹àª¯àª°";
   utf8 "àªªà«àª°àªµà«‡àª¶"; utf8 "àªœà«€àª®"; utf8 "àª²àª¾àª‡àª¬à«àª°à«‡àª°à«€";
   utf8 "àª¬àª¾àª³àª•à«‹"; utf8 "àª°àª®àª¤"; utf8 "àª²àª¿àª«à«àªŸ";
   utf8 "àªàª²àª¿àªµà«‡àªŸàª°"; utf8 "àª¸à«€àª¡à«€"; utf8 "àªªàª¾àª°à«àª•àª¿àª‚àª—";
   utf8 "àª¸à«‹àª¸àª¾àª¯àªŸà«€ àª“àª«àª¿àª¸"; utf8 "àª°àª¿àª¸à«‡àªªà«àª¶àª¨";
   utf8 "àª¸à«àªµàª¿àª§àª¾"].

Definition flat_keywords : list str :=
  [utf8 "3bhk"; utf8 "3 bhk"; utf8 "3-bhk"; utf8 "three bedroom"; utf8 "three bed";
   utf8 "4bhk"; utf8 "4 bhk"; utf8 "4-bhk"; utf8 "four bedroom"; utf8 "four bed"].

Definition gujarati_flat_keywords : list str :=
  [utf8 "àª¤à«àª°àª£ àª¬à«‡àª¡àª°à«‚àª®"; utf8 "à«© àª¬à«€àªàªšàª•à«‡";
   utf8 "àª¤à«àª°àª£ àª¬à«€àªàªšàª•à«‡"; utf8 "àªšàª¾àª° àª¬à«‡àª¡àª°à«‚àª®";
   utf8 "à«ª àª¬à«€àªàªšàª•à«‡"; utf8 "àªšàª¾àª° àª¬à«€àªàªšàª•à«‡"].

Definition all_keywords : list str :=
  ground_floor_keywords ++ gujarati_keywords ++ flat_keywords ++ gujarati_flat_keywords.

Definition three_bhk_keywords : list str :=
  [utf8 "3bhk"; utf8 "3 bhk"; utf8 "3-bhk"; utf8 "three bedroom";
   utf8 "àª¤à«àª°àª£ àª¬à«‡àª¡àª°à«‚àª®"; utf8 "à«© àª¬à«€àªàªšàª•à«‡";
   utf8 "àª¤à«àª°àª£ àª¬à«€àªàªšàª•à«‡"].

Definition four_bhk_keywords : list str :=
  [utf8 "4bhk"; utf8 "4 bhk"; utf8 "4-bhk"; utf8 "four bedroom";
   utf8 "àªšàª¾àª° àª¬à«‡àª¡àª°à«‚àª®"; utf8 "à«ª àª¬à«€àªàªšàª•à«‡";
   utf8 "àªšàª¾àª° àª¬à«€àªàªšàª•à«‡"].

(** The unit slice for one configuration: its plan, box price and parking. *)
Definition unit_slice (lang_data : pyval) (plan label price parking : str) (rd : relevant)
    : outcome relevant :=
  let? present := py_in plan lang_data in
  if present
  then
    let? unit_plan := py_getitem lang_data plan in
    let? pricing := py_get lang_data (utf8 "pricing") (PDict []) in
    let? box_price := py_get pricing price PNone in
    let? parkings := py_get lang_data (utf8 "parking") (PDict []) in
    let? unit_parking := py_get parkings parking PNone in
    Ok (<[utf8 "parking" := PDict [(label, unit_parking)]]>
          (<[utf8 "pricing" := PDict [(label, box_price)]]>
             (<[utf8 "unit_plan" := unit_plan]> rd)))
  else Ok rd.

(** "Check for ground floor and general facility queries" *)
Definition facility_and_flat_queries (q : str) (lang_data : pyval) (rd : relevant)
    : outcome relevant :=
  if any_in all_keywords q
  then
    let? rd :=
      if any_in three_bhk_keywords q
      then unit_slice lang_data (utf8 "3bhk_unit_plan") (utf8 "3bhk")
             (utf8 "box_price_2650") (utf8 "3bhk_parking") rd
      else if any_in four_bhk_keywords q
      then unit_slice lang_data (utf8 "4bhk_unit_plan") (utf8 "4bhk")
             (utf8 "box_price_3850") (utf8 "4bhk_parking") rd
      else Ok rd in
    let? rd := copy_section lang_data (utf8 "ground_floor_plan") (utf8 "ground_floor_plan") rd in
    copy_construction_elevator lang_data rd
  else Ok rd.

Definition block_a_zone_details : pyval :=
  PDict
  [
    (utf8 "foyer", PDict
      [
        (utf8 "size", PStr (utf8 "14'-9" ++ dq ++ utf8 " Ã— 14'-6" ++ dq));
        (utf8 "function", PStr (utf8 "Entry point into Block A"));
        (utf8 "features", PStr (utf8 "Staircases (UP & DN) on both sides")) ]);
    (utf8 "lift_lobby", PDict
      [
        (utf8 "size", PStr (utf8 "8'-5" ++ dq ++ utf8 " Ã— 6'-8" ++ dq));
        (utf8 "lifts_count", PStr (utf8 "2 lifts")) ]);
    (utf8 "seating_space", PDict
      [
        (utf8 "size", PStr (utf8 "44'-0" ++ dq ++ utf8 " Ã— 21'-7" ++ dq));
        (utf8 "function", PStr (utf8 "Large sitting lounge outside Block A")) ]);
    (utf8 "society_office", PDict
      [
        (utf8 "size", PStr (utf8 "10'-3" ++ dq ++ utf8 " Ã— 16'-3" ++ dq));
        (utf8 "location", PStr (utf8 "Beside the seating lounge")) ]);
    (utf8 "store_society", PDict
      [
        (utf8 "size", PStr (utf8 "10'-3" ++ dq ++ utf8 " Ã— 5'-0" ++ dq));
        (utf8 "location", PStr (utf8 "Near the Society Office")) ]);
    (utf8 "toddlers_space", PDict
      [
        (utf8 "size", PStr (utf8 "16'-4" ++ dq ++ utf8 " Ã— 15'-9" ++ dq));
        (utf8 "function", PStr (utf8 "Play area for toddlers")) ]);
    (utf8 "store_toddlers", PDict
      [
        (utf8 "size", PStr (utf8 "11'-0" ++ dq ++ utf8 " Ã— 5'-7" ++ dq));
        (utf8 "location", PStr (utf8 "Near the Toddler's Space")) ]);
    (utf8 "toilet_toddlers", PDict
      [
        (utf8 "size", PStr (utf8 "6'-0" ++ dq ++ utf8 " Ã— 6'-7" ++ dq));
        (utf8 "location", PStr (utf8 "Near the Toddler's Space")) ]);
    (utf8 "other_utilities", PDict
      [
        (utf8 "security", PStr (utf8 "Security Cabin with toilet at entry/exit gate"));
        (utf8 "meter_room", PStr (utf8 "Dedicated space for electrical meters"));
        (utf8 "parking", PStr (utf8 "Car parking spaces available"));
        (utf8 "drop_off", PStr (utf8 "Kids drop-off area"));
        (utf8 "ramp", PStr (utf8 "Basement ramp near Block A foyer"));
        (utf8 "water_feature", PStr (utf8 "Decorative water body beside walkway")) ]) ].

Definition block_b_zone_details : pyval :=
  PDict
  [
    (utf8 "foyer", PDict
      [
        (utf8 "size", PStr (utf8 "14'-0" ++ dq ++ utf8 " Ã— 19'-6" ++ dq));
        (utf8 "function", PStr (utf8 "Entry point into Block B"));
        (utf8 "features", PStr (utf8 "Staircases (UP & DN) on both sides")) ]);
    (utf8 "lift_lobby", PDict
      [
        (utf8 "size", PStr (utf8 "6'-8" ++ dq ++ utf8 " Ã— 8'-0" ++ dq));
        (utf8 "lifts_count", PStr (utf8 "2 lifts")) ]);
    (utf8 "gym", PDict
      [
        (utf8 "size", PStr (utf8 "17'-9" ++ dq ++ utf8 " Ã— 19'-3" ++ dq));
        (utf8 "function", PStr (utf8 "Fitness and exercise area")) ]);
    (utf8 "library_lounge", PDict
      [
        (utf8 "size", PStr (utf8 "18'-9" ++ dq ++ utf8 " Ã— 26'-5" ++ dq));
        (utf8 "function", PStr (utf8 "Library, Lounge, and Multi-Purpose Room")) ]);
    (utf8 "other_utilities", PDict
      [
        (utf8 "sand_pit", PStr (utf8 "Children's play area"));
        (utf8 "postal", PStr (utf8 "Dedicated space for postal services")) ]) ].

Definition central_amenities_details : pyval :=
  PDict
  [
    (utf8 "multipurpose_court", PDict
      [
        (utf8 "size", PStr (utf8 "40'-8" ++ dq ++ utf8 " Ã— 18'-11" ++ dq));
        (utf8 "location", PStr (utf8 "Center of complex"));
        (utf8 "features", PStr (utf8 "Surrounded by walkways")) ]);
    (utf8 "sand_pit", PDict
      [
        (utf8 "location", PStr (utf8 "Adjacent to multipurpose court"));
        (utf8 "function", PStr (utf8 "Children's play area")) ]);
    (utf8 "other_facilities", PList
      [ PStr (utf8 "Internal Roads");
        PStr (utf8 "Drop-Off Plaza");
        PStr (utf8 "Lawn Area");
        PStr (utf8 "DG Set");
        PStr (utf8 "Seating Blocks");
        PStr (utf8 "Ramp Down to Basement");
        PStr (utf8 "Water Fountain with sculpture") ]) ].

(** "Check for ground floor related queries" *)
Definition ground_floor_queries (q : str) (lang_data : pyval) (rd : relevant)
    : outcome relevant :=
  if any_in
    [utf8 "ground floor"; utf8 "ground level"; utf8 "ground"; utf8 "foyer";
     utf8 "entrance"; utf8 "multipurpose"; utf8 "court"; utf8 "gym"; utf8 "library";
     utf8 "toddler"; utf8 "society"; utf8 "seating"; utf8 "lift"; utf8 "stair";
     utf8 "amenity"; utf8 "facility"; utf8 "drop"] q
  then
    let? present := py_in (utf8 "ground_floor_plan") lang_data in
    if present
    then
      let? plan := py_getitem lang_data (utf8 "ground_floor_plan") in
      let? summary := py_get plan (utf8 "summary") (PStr []) in
      let rd := <[utf8 "ground_floor_summary" := summary]> rd in
      let? plan := py_getitem lang_data (utf8 "ground_floor_plan") in
      let? overview := py_get plan (utf8 "site_overview") (PDict []) in
      let rd := <[utf8 "ground_floor_overview" := overview]> rd in
      let? plan := py_getitem lang_data (utf8 "ground_floor_plan") in
      let? block_a_zone := py_get plan (utf8 "block_a_zone") (PDict []) in
      let? plan := py_getitem lang_data (utf8 "ground_floor_plan") in
      let? block_b_zone := py_get plan (utf8 "block_b_zone") (PDict []) in
      let? plan := py_getitem lang_data (utf8 "ground_floor_plan") in
      let? central_zone := py_get plan (utf8 "central_amenities") (PDict []) in
      let rd :=
        if contains (utf8 "block a") q
           || any_in [utf8 "society"; utf8 "toddler"; utf8 "right side"; utf8 "security"] q
        then <[utf8 "block_a_zone" := block_a_zone_details]> rd else rd in
      let rd :=
        if contains (utf8 "block b") q
           || any_in [utf8 "gym"; utf8 "library"; utf8 "left side"] q
        then <[utf8 "block_b_zone" := block_b_zone_details]> rd else rd in
      let rd :=
        if any_in
    [utf8 "central"; utf8 "amenity"; utf8 "court"; utf8 "sand pit"; utf8 "lawn";
     utf8 "facility"; utf8 "fountain"] q
        then <[utf8 "central_amenities" := central_amenities_details]> rd else rd in
      Ok rd
    else Ok rd
  else Ok rd.

(** [next((config[field] for config in configs if config['type'] == kind), '')] *)
Fixpoint first_config_in (items : list pyval) (kind field : str) : outcome pyval :=
  match items with
  | [] => Ok (PStr [])
  | config :: rest =>
      let? type := py_getitem config (utf8 "type") in
      if py_eq_str type kind
      then py_getitem config field
      else first_config_in rest kind field
  end.

Definition first_config (configs : pyval) (kind field : str) : outcome pyval :=
  let? items := py_iter configs in first_config_in items kind field.

Definition unit_summary (configs : pyval) (kind : str) : outcome pyval :=
  let? total_size := first_config configs kind (utf8 "size_sqft") in
  let? carpet_area := first_config configs kind (utf8 "carpet_area") in
  let? size_yard := first_config configs kind (utf8 "size_sq_yard") in
  let? price := first_config configs kind (utf8 "price_cr") in
  Ok (PDict [ (utf8 "total_size", total_size); (utf8 "carpet_area", carpet_area);
              (utf8 "size_yard", size_yard); (utf8 "price", price) ]).

(** "For detailed floor plans": overview, special features and area
    breakdown of one unit plan. *)
Definition plan_details (lang_data : pyval) (plan target : str) (asked : bool)
    (rd : relevant) : outcome relevant :=
  let? wanted := oand (py_in plan lang_data) (Ok asked) in
  if wanted
  then
    let? p := py_getitem lang_data plan in
    let? overview := py_getitem p (utf8 "overview") in
    let? p := py_getitem lang_data plan in
    let? special_features := py_getitem p (utf8 "special_features") in
    let? p := py_getitem lang_data plan in
    let? area_breakdown := py_getitem p (utf8 "area_breakdown") in
    Ok (<[target := PDict [ (utf8 "overview", overview);
                            (utf8 "special_features", special_features);
                            (utf8 "area_breakdown", area_breakdown) ]]> rd)
  else Ok rd.

(** "Check for unit configurations and sizes" *)
Definition unit_configuration_queries (q : str) (lang_data : pyval) (rd : relevant)
    : outcome relevant :=
  if any_in
    [utf8 "3bhk"; utf8 "3 bhk"; utf8 "price"; utf8 "cost"; utf8 "bhk"; utf8 "bedroom";
     utf8 "size"; utf8 "sqft"; utf8 "configuration"; utf8 "apartment"; utf8 "flat";
     utf8 "carpet"; utf8 "area"; utf8 "dimension"] q
  then
    let? present := py_in (utf8 "unit_configurations") lang_data in
    let? rd :=
      if present
      then
        let? configs := py_getitem lang_data (utf8 "unit_configurations") in
        let? three := unit_summary configs (utf8 "3BHK") in
        let? four := unit_summary configs (utf8 "4BHK") in
        Ok (<[utf8 "unit_details" := PDict [(utf8 "3bhk", three); (utf8 "4bhk", four)]]> rd)
      else Ok rd in
    let? rd :=
      plan_details lang_data (utf8 "3bhk_unit_plan") (utf8 "3bhk_details")
        (contains (utf8 "3bhk") q || contains (utf8 "3 bhk") q || contains (utf8 "carpet") q)
        rd in
    let? rd :=
      plan_details lang_data (utf8 "4bhk_unit_plan") (utf8 "4bhk_details")
        (contains (utf8 "4bhk") q || contains (utf8 "4 bhk") q || contains (utf8 "carpet") q)
        rd in
    copy_section lang_data (utf8 "pricing") (utf8 "pricing") rd
  else Ok rd.

(** The one-section topic checks: on a keyword hit, copy a section. *)
Definition topic (keywords : list str) (name target : str) (q : str) (lang_data : pyval)
    (rd : relevant) : outcome relevant :=
  if any_in keywords q then copy_section lang_data name target rd else Ok rd.

Definition room_queries (q : str) (lang_data : pyval) (rd : relevant) : outcome relevant :=
  if any_in
    [utf8 "kitchen"; utf8 "room"; utf8 "bedroom"; utf8 "living"; utf8 "dining";
     utf8 "bathroom"; utf8 "toilet"; utf8 "balcony"] q
  then
    let? rd := copy_section lang_data (utf8 "3bhk_unit_plan") (utf8 "3bhk_unit_plan") rd in
    copy_section lang_data (utf8 "4bhk_unit_plan") (utf8 "4bhk_unit_plan") rd
  else Ok rd.

(** The second "Check for elevator related queries" *)
Definition elevator_detail_queries (q : str) (lang_data : pyval) (rd : relevant)
    : outcome relevant :=
  if any_in [utf8 "elevator"; utf8 "lift"; utf8 "lifts"] q
  then
    let? rd := copy_construction_elevator lang_data rd in
    let? present := py_in (utf8 "ground_floor_plan") lang_data in
    if present
    then
      let? plan := py_getitem lang_data (utf8 "ground_floor_plan") in
      let? zone_a := py_getitem plan (utf8 "block_a_zone") in
      let? block_a_lifts := py_get zone_a (utf8 "lift_lobby") (PDict []) in
      let? plan := py_getitem lang_data (utf8 "ground_floor_plan") in
      let? zone_b := py_getitem plan (utf8 "block_b_zone") in
      let? block_b_lifts := py_get zone_b (utf8 "lift_lobby") (PDict []) in
      Ok (<[utf8 "elevators_detail" :=
              PDict [(utf8 "block_a", block_a_lifts); (utf8 "block_b", block_b_lifts)]]> rd)
    else Ok rd
  else Ok rd.

(** "If minimal data, add more sections" *)
Definition fallback_sections : list str :=
  [utf8 "unit_configurations"; utf8 "pricing"; utf8 "3bhk_unit_plan";
   utf8 "4bhk_unit_plan"; utf8 "amenities"; utf8 "location_details"].

Fixpoint add_sections (sections : list str) (lang_data : pyval) (rd : relevant)
    : outcome relevant :=
  match sections with
  | [] => Ok rd
  | section :: rest =>
      let? rd := copy_section lang_data section section rd in
      add_sections rest lang_data rd
  end.

Definition minimal_data_fallback (lang_data : pyval) (rd : relevant) : outcome relevant :=
  if bool_decide (size rd <= 2)%nat
  then add_sections fallback_sections lang_data rd
  else Ok rd.

(** Everything between the identity section and the fallback, in source
    order. *)
Definition topic_checks (q : str) (lang_data : pyval) (rd : relevant) : outcome relevant :=
  let? rd := facility_and_flat_queries q lang_data rd in
  let? rd := ground_floor_queries q lang_data rd in
  let? rd := unit_configuration_queries q lang_data rd in
  let? rd := room_queries q lang_data rd in
  let? rd := topic [utf8 "elevator"; utf8 "lift"]
               (utf8 "elevator") (utf8 "elevator") q lang_data rd in
  let? rd := topic [utf8 "parking"; utf8 "car park"; utf8 "vehicle"]
               (utf8 "parking") (utf8 "parking") q lang_data rd in
  let? rd := topic
               [utf8 "structure"; utf8 "flooring"; utf8 "bathroom"; utf8 "kitchen";
                utf8 "elevator"; utf8 "electrical"; utf8 "doors"; utf8 "windows";
                utf8 "security"; utf8 "water"; utf8 "specifications"; utf8 "features"]
               (utf8 "specifications") (utf8 "specifications") q lang_data rd in
  let? rd := elevator_detail_queries q lang_data rd in
  let? rd := topic [utf8 "parking"; utf8 "car park"; utf8 "vehicle"; utf8 "cars"]
               (utf8 "parking") (utf8 "parking") q lang_data rd in
  let? rd := topic
               [utf8 "structure"; utf8 "flooring"; utf8 "bathroom"; utf8 "kitchen";
                utf8 "electrical"; utf8 "doors"; utf8 "windows"; utf8 "security";
                utf8 "water"; utf8 "specifications"; utf8 "features"]
               (utf8 "construction_specifications") (utf8 "specifications") q lang_data rd in
  let? rd := topic
               [utf8 "amenity"; utf8 "amenities"; utf8 "facility"; utf8 "gym";
                utf8 "pool"; utf8 "park"; utf8 "club"]
               (utf8 "amenities") (utf8 "amenities") q lang_data rd in
  let? rd := topic
               [utf8 "location"; utf8 "address"; utf8 "connectivity"; utf8 "metro";
                utf8 "nearby"; utf8 "landmark"]
               (utf8 "location_details") (utf8 "location_details") q lang_data rd in
  let? rd := topic
               [utf8 "possession"; utf8 "ready"; utf8 "completion"; utf8 "timeline";
                utf8 "delivery"]
               (utf8 "possession_details") (utf8 "possession_details") q lang_data rd in
  topic
    [utf8 "developer"; utf8 "shatranj"; utf8 "aarat"; utf8 "group"; utf8 "company";
     utf8 "builder"]
    (utf8 "developer_portfolio") (utf8 "developer_portfolio") q lang_data rd.

(** [faq_data.get(language, faq_data.get('english', {}))] *)
Definition language_tree (faq_data : pyval) (language : str) : outcome pyval :=
  let? fallback := py_get faq_data english (PDict []) in
  py_get faq_data language fallback.

Definition extract_relevant_data (user_question : str) (faq_data : pyval) (language : str)
    : outcome relevant :=
  let? lang_data := language_tree faq_data language in
  let relevant_data : relevant := ∅ in
  let user_question_lower := lower user_question in
  let? relevant_data :=
    copy_section lang_data (utf8 "project_info") (utf8 "project_info") relevant_data in
  let? relevant_data := topic_checks user_question_lower lang_data relevant_data in
  minimal_data_fallback lang_data relevant_data.

End Relevance.


(** ** The outside world

    Every call that leaves the process is an event; what the world answers
    may depend on everything that happened before. *)

Record prompt := Prompt {
  prompt_data : gmap str pyval;          (** PROJECT DATA *)
  prompt_history : list (pyval * bool);  (** RECENT CONVERSATION *)
  prompt_language : str;
  prompt_question : str
}.

(** The HTTP requests the bot posts, by their variable parts. *)
Inductive request :=
| SendText (to_phone message : pyval)
| SendDocument (to_phone : pyval) (document_id : str)
| MarkRead (message_id : pyval)
| GenerateContent (p : prompt).

Inductive event :=
| Post (r : request)
| Sleep (seconds : Z)
| UpdateCell (row : nat) (col : Z) (value : str).

(** What [requests.post] gives back: it raised, or a response with its
    status code and its body as JSON ([None] when the body is not JSON). *)
Inductive http_result :=
| Failed
| Response (status_code : Z) (json : option pyval).

Class World := {
  requests_post : list event -> request -> http_result
}.

(** ** The state-and-exception monad

    A Python function mutates what it can reach and either returns or
    raises; mutations made before an exception stay. *)

Definition M (S A : Type) : Type := S -> outcome A * S.

Definition ret {S A} (a : A) : M S A := fun s => (Ok a, s).

Definition bind {S A B} (m : M S A) (f : A -> M S B) : M S B :=
  fun s =>
    match m s with
    | (Ok a, s') => f a s'
    | (Raise e, s') => (Raise e, s')
    end.

Definition raise {S A} (e : exn) : M S A := fun s => (Raise e, s).

(** An expression that may raise, inside a function with effects *)
Definition eval {S A} (o : outcome A) : M S A := fun s => (o, s).

Definition get {S} : M S S := fun s => (Ok s, s).

Definition modify {S} (f : S -> S) : M S unit := fun s => (Ok tt, f s).

(** [try: m except Exception: ...], the handler left to the caller *)
Definition try {S A} (m : M S A) : M S (outcome A) :=
  fun s => let '(r, s') := m s in (Ok r, s').

Declare Scope monad_scope.
Delimit Scope monad_scope with monad.
Notation "x <- m ;; k" := (bind m (fun x => k))
  (at level 100, m at next level, right associativity) : monad_scope.
Notation "m ;; k" := (bind m (fun _ => k))
  (at level 100, right associativity) : monad_scope.
Local Open Scope monad_scope.

(** [for x in xs: body(x)] *)
Fixpoint for_each {S A} (xs : list A) (body : A -> M S unit) : M S unit :=
  match xs with
  | [] => ret tt
  | x :: xs' => body x ;; for_each xs' body
  end.

(** ** WhatsApp API functions *)

(** Functions that only talk to the world run on the trace of events. *)
Abbreviation IO := (M (list event)) (only parsing).

Section Transport.
Context `{World}.

Definition post (r : request) : IO http_result :=
  fun trace => (Ok (requests_post trace r), trace ++ [Post r]).

Definition sleep (seconds : Z) : IO unit :=
  fun trace => (Ok tt, trace ++ [Sleep seconds]).

(** Both senders answer [True] on status 200, and [False] on any other
    status or when the request raised. *)
Definition send_whatsapp_text (to_phone message : pyval) : IO bool :=
  response <- post (SendText to_phone message) ;;
  match response with
  | Response status_code _ => if (status_code =? 200)%Z then ret true else ret false
  | Failed => ret false
  end.

Definition send_whatsapp_document (to_phone : pyval) (document_id : str) : IO bool :=
  response <- post (SendDocument to_phone document_id) ;;
  match response with
  | Response status_code _ => if (status_code =? 200)%Z then ret true else ret false
  | Failed => ret false
  end.

Definition mark_message_as_read (message_id : pyval) : IO unit :=
  post (MarkRead message_id) ;; ret tt.

End Transport.

(** ** Configuration

    What the module reads from the environment and from the FAQ files when
    it is loaded. *)

Class Config := {
  (** [os.getenv("GEMINI_API_KEY")]: [None] when unset *)
  GEMINI_API_KEY : option str;
  BROCHURE_MEDIA_ID : str;
  (** the FAQ file of each language as parsed, [None] when loading failed *)
  faq_data_english : option pyval;
  faq_data_gujarati : option pyval
}.

(** [load_faq_data]: a file that fails to load counts as an empty dict. *)
Definition load_faq_data `{Config} : pyval :=
  PDict [ (english, default (PDict []) faq_data_english);
          (gujarati, default (PDict []) faq_data_gujarati) ].

Definition FAQ_DATA `{Config} : pyval := load_faq_data.

(** ** Gemini *)

Section Gemini.
Context `{Unicode} `{World} `{Config}.

(** [create_gemini_prompt], kept as the four things the prompt text is
    made of: the relevant data, the last four turns of the history, the
    language and the question. *)
Definition create_gemini_prompt (user_question : str) (faq_data : pyval) (language : str)
    (chat_history : list (pyval * bool)) : outcome prompt :=
  let? relevant_data := extract_relevant_data user_question faq_data language in
  let recent_history :=
    if bool_decide (4 < length chat_history)%nat
    then drop (length chat_history - 4) chat_history
    else chat_history in
  Ok (Prompt relevant_data recent_history language user_question).

Definition gemini_key_warning : str :=
  utf8 "âš ï¸ Please configure your Gemini API key".

Definition gemini_apology : str :=
  utf8 "Sorry, I'm having trouble answering right now. Please try again or contact our agent at +91 1234567890.".

(** The text of a status-200 response, when it has the expected shape. *)
Definition candidate_text (result : pyval) : outcome (option pyval) :=
  let? has_candidates :=
    oand (py_in (utf8 "candidates") result)
         (let? candidates := py_getitem result (utf8 "candidates") in
          let? n := py_len candidates in
          Ok (bool_decide (0 < n)%nat)) in
  if has_candidates
  then
    let? candidates := py_getitem result (utf8 "candidates") in
    let? candidate := py_first candidates in
    let? has_parts :=
      oand (py_in (utf8 "content") candidate)
           (let? content := py_getitem candidate (utf8 "content") in
            py_in (utf8 "parts") content) in
    if has_parts
    then
      let? content := py_getitem candidate (utf8 "content") in
      let? parts := py_getitem content (utf8 "parts") in
      let? part := py_first parts in
      let? text := py_getitem part (utf8 "text") in
      Ok (Some text)
    else Ok None
  else Ok None.

(** The body of the [try] of one attempt: [Some text] is the [return],
    [None] falls out of the [try] to the next round of the loop. *)
Definition gemini_attempt (attempt : nat) (p : prompt) : IO (option pyval) :=
  (if bool_decide (0 < attempt)%nat then sleep 2 else ret tt) ;;
  response <- post (GenerateContent p) ;;
  match response with
  | Failed => raise RequestException
  | Response status_code json =>
      if (status_code =? 200)%Z
      then match json with
           | Some result => eval (candidate_text result)
           | None => raise JSONDecodeError
           end
      else ret None
  end.

Fixpoint gemini_attempts (attempts : list nat) (p : prompt) : IO pyval :=
  match attempts with
  | [] => ret (PStr gemini_apology)
  | attempt :: rest =>
      r <- try (gemini_attempt attempt p) ;;
      match r with
      | Ok (Some text) => ret text
      | Ok None => gemini_attempts rest p
      | Raise _ => gemini_attempts rest p
      end
  end.

Definition call_gemini_api (p : prompt) (language : str) : IO pyval :=
  match GEMINI_API_KEY with
  | None | Some [] => ret (PStr gemini_key_warning)
  | Some (_ :: _) => gemini_attempts (seq 0 2) p
  end.

End Gemini.

(** ** Conversation state *)

(** [booking_info]: a dict that only ever holds these keys; [None] is an
    absent key. *)
Record booking := Booking {
  current_step : option str;
  booking_name : option str;
  booking_phone : option str;
  booking_date : option str;
  booking_time : option str;
  booking_unit_type : option str;
  booking_budget : option str
}.

Definition empty_booking : booking := Booking None None None None None None None.

Record conv_state := ConvState {
  chat_history : list (pyval * bool);
  lead_capture_mode : option str;
  user_phone : pyval;
  language : str;
  asked_about_brochure : bool;
  booking_info : booking
}.

Definition set_chat_history (h : list (pyval * bool)) (s : conv_state) : conv_state :=
  ConvState h (lead_capture_mode s) (user_phone s) (language s)
    (asked_about_brochure s) (booking_info s).
Definition set_lead_capture_mode (m : option str) (s : conv_state) : conv_state :=
  ConvState (chat_history s) m (user_phone s) (language s)
    (asked_about_brochure s) (booking_info s).
Definition set_user_phone (p : pyval) (s : conv_state) : conv_state :=
  ConvState (chat_history s) (lead_capture_mode s) p (language s)
    (asked_about_brochure s) (booking_info s).
Definition set_language (l : str) (s : conv_state) : conv_state :=
  ConvState (chat_history s) (lead_capture_mode s) (user_phone s) l
    (asked_about_brochure s) (booking_info s).
Definition set_asked_about_brochure (b : bool) (s : conv_state) : conv_state :=
  ConvState (chat_history s) (lead_capture_mode s) (user_phone s) (language s)
    b (booking_info s).
Definition set_booking_info (b : booking) (s : conv_state) : conv_state :=
  ConvState (chat_history s) (lead_capture_mode s) (user_phone s) (language s)
    (asked_about_brochure s) b.

(** [state['chat_history'].append(entry)] *)
Definition append_history (entry : pyval * bool) (s : conv_state) : conv_state :=
  set_chat_history (chat_history s ++ [entry]) s.

Definition set_current_step (step : str) (b : booking) : booking :=
  Booking (Some step) (booking_name b) (booking_phone b) (booking_date b)
    (booking_time b) (booking_unit_type b) (booking_budget b).
Definition set_booking_name (v : str) (b : booking) : booking :=
  Booking (current_step b) (Some v) (booking_phone b) (booking_date b)
    (booking_time b) (booking_unit_type b) (booking_budget b).
Definition set_booking_phone (v : str) (b : booking) : booking :=
  Booking (current_step b) (booking_name b) (Some v) (booking_date b)
    (booking_time b) (booking_unit_type b) (booking_budget b).
Definition set_booking_date (v : str) (b : booking) : booking :=
  Booking (current_step b) (booking_name b) (booking_phone b) (Some v)
    (booking_time b) (booking_unit_type b) (booking_budget b).
Definition set_booking_time (v : str) (b : booking) : booking :=
  Booking (current_step b) (booking_name b) (booking_phone b) (booking_date b)
    (Some v) (booking_unit_type b) (booking_budget b).
Definition set_booking_unit_type (v : str) (b : booking) : booking :=
  Booking (current_step b) (booking_name b) (booking_phone b) (booking_date b)
    (booking_time b) (Some v) (booking_budget b).
Definition set_booking_budget (v : str) (b : booking) : booking :=
  Booking (current_step b) (booking_name b) (booking_phone b) (booking_date b)
    (booking_time b) (booking_unit_type b) (Some v).

(** The state a first message creates. *)
Definition new_state (from_phone : pyval) : conv_state :=
  {| chat_history := [];
     lead_capture_mode := None;
     user_phone := from_phone;
     language := english;
     asked_about_brochure := false;
     booking_info := empty_booking |}.

(** One turn works on the sender's state and on the world. *)
Record turn := Turn { state : conv_state; trace : list event }.

(** [f"{v}"] of a value.  Senders are dict keys, so no list or dict
    reaches a format. *)
Definition decimal_of_Z (z : Z) : str :=
  bytes_of_string (DecimalString.NilZero.string_of_int (Z.to_int z)).

Definition py_format (v : pyval) : str :=
  match v with
  | PNone => utf8 "None"
  | PBool true => utf8 "True"
  | PBool false => utf8 "False"
  | PInt z => decimal_of_Z z
  | PStr s => s
  | PList _ => []
  | PDict _ => []
  end.


(** ** Message processing logic *)

Section Bot.
Context `{Unicode} `{World} `{Config}.

(** A call to the world from inside a turn *)
Definition io {A} (m : IO A) : M turn A :=
  fun t => let '(r, tr) := m (trace t) in (r, Turn (state t) tr).

(** A read and a write of the sender's [state] *)
Definition read {A} (f : conv_state -> A) : M turn A :=
  fun t => (Ok (f (state t)), t).
Definition update (f : conv_state -> conv_state) : M turn unit :=
  modify (fun t => Turn (f (state t)) (trace t)).

(** [state['chat_history'].append((reply, False)); return reply] *)
Definition say (reply : str) : M turn pyval :=
  update (append_history (PStr reply, false)) ;; ret (PStr reply).

(** The phone pattern: a word boundary, optionally [+91] and one space or
    hyphen, a digit 6 to 9, nine digits, a word boundary. *)
Definition phone_pattern : regex :=
  RSeq RWordBoundary
    (RSeq (ROpt (RSeq (RLit (utf8 "+91")) (ROpt (RClass (fun c => is_space c || (c =? 45))))))
       (RSeq (RRange 54 57) (RSeq (RTimes 9 (RClass is_digit)) RWordBoundary))).

(** The date pattern: one or two digits, slash or hyphen, one or two
    digits, slash or hyphen, four digits. *)
Definition date_pattern : regex :=
  let d := RClass is_digit in
  let sep := ROneOf (utf8 "/-") in
  RSeq d (RSeq (ROpt d) (RSeq sep (RSeq d (RSeq (ROpt d) (RSeq sep (RTimes 4 d)))))).

(** [m.group().replace(' ', '').replace('-', '')] *)
Definition without_spaces_and_hyphens (s : str) : str :=
  filter (fun c => c ≠ 32 ∧ c ≠ 45) s.

(** *** Default: use Gemini for general questions *)

Definition use_gemini (message_text : str) : M turn pyval :=
  budget <- eval (extract_budget_from_text message_text) ;;
  chat_history <- read chat_history ;;
  language <- read language ;;
  prompt <- eval (create_gemini_prompt message_text FAQ_DATA language chat_history) ;;
  ai_response <- io (call_gemini_api prompt language) ;;
  update (append_history (ai_response, false)) ;;
  ret ai_response.

(** *** Handle booking form submission *)

Definition confirm_phone_prompt (message_text : str) (from_phone : pyval) : str :=
  utf8 "Thank you, " ++ message_text ++ utf8 "! ğŸ“" ++ nl ++
  nl ++
  utf8 "I have your phone number as: *" ++ py_format from_phone ++ utf8 "*" ++ nl ++
  utf8 "Is this the correct number for the site visit coordination?" ++ nl ++
  nl ++
  utf8 "Reply with:" ++ nl ++
  utf8 "1ï¸âƒ£ *Yes* to confirm this number" ++ nl ++
  utf8 "2ï¸âƒ£ Or type your *alternate number*".

Definition phone_reprompt : str :=
  utf8 "Please provide a valid 10-digit phone number or type *Yes* to confirm the existing number." ++ nl ++
  nl ++
  utf8 "Example: 9876543210 or +91 9876543210".

Definition date_prompt : str :=
  utf8 "Great! Now, please tell me your *preferred date* for the site visit." ++ nl ++
  nl ++
  utf8 "Format: DD/MM/YYYY" ++ nl ++
  utf8 "Example: 05/11/2025".

Definition date_reprompt : str :=
  utf8 "Please provide the date in the correct format (DD/MM/YYYY)." ++ nl ++
  nl ++
  utf8 "Example: 05/11/2025".

Definition time_prompt : str :=
  utf8 "Perfect! Now, please select your *preferred time* for the site visit." ++ nl ++
  nl ++
  utf8 "Available slots:" ++ nl ++
  utf8 "1ï¸âƒ£ 10:00 AM" ++ nl ++
  utf8 "2ï¸âƒ£ 11:30 AM" ++ nl ++
  utf8 "3ï¸âƒ£ 02:00 PM" ++ nl ++
  utf8 "4ï¸âƒ£ 03:30 PM" ++ nl ++
  utf8 "5ï¸âƒ£ 05:00 PM" ++ nl ++
  nl ++
  utf8 "Reply with the slot number (1-5) or type the time.".

Definition unit_type_prompt : str :=
  utf8 "Excellent! Which unit type are you interested in?" ++ nl ++
  nl ++
  utf8 "1ï¸âƒ£ *3 BHK* (2650 sq ft)" ++ nl ++
  utf8 "2ï¸âƒ£ *4 BHK* (3850 sq ft)" ++ nl ++
  utf8 "3ï¸âƒ£ *Both options*" ++ nl ++
  nl ++
  utf8 "Please reply with 1, 2, or 3.".

Definition unit_type_reprompt : str :=
  utf8 "Please select a valid option:" ++ nl ++
  utf8 "1ï¸âƒ£ for 3 BHK" ++ nl ++
  utf8 "2ï¸âƒ£ for 4 BHK" ++ nl ++
  utf8 "3ï¸âƒ£ for Both options".

Definition budget_prompt : str :=
  utf8 "Almost done! ğŸ¯" ++ nl ++
  nl ++
  utf8 "What is your *approximate budget*?" ++ nl ++
  nl ++
  utf8 "Example formats:" ++ nl ++
  utf8 "â€¢ 1.5 Cr" ++ nl ++
  utf8 "â€¢ 2 Crore" ++ nl ++
  utf8 "â€¢ 150 Lakhs".

Definition budget_reprompt : str :=
  utf8 "Please specify your budget in a clear format:" ++ nl ++
  utf8 "Example: 1.5 Cr, 2 Crore, or 150 Lakhs".

Definition google_form_url : str :=
  utf8 "https://docs.google.com/forms/d/e/1FAIpQLSceds-nIr9vTLHJ0Jl1TOv0DNYGQhb0CtEa2R3mA9Ae3iP8Lg/viewform".

Definition booking_form_redirect : str :=
  utf8 "ï¿½ To complete your booking, please fill out our site visit form:" ++ nl ++
  nl ++
  utf8 "ğŸ“ " ++ google_form_url ++ nl ++
  nl ++
  utf8 "Once you submit the form, you'll receive a confirmation message with all the details." ++ nl ++
  nl ++
  utf8 "Need help with anything else? ï¿½".

Definition update_booking (f : booking -> booking) : M turn unit :=
  update (fun s => set_booking_info (f (booking_info s)) s).

Definition time_slots : list (str * str) :=
  [ (utf8 "1", utf8 "10:00 AM"); (utf8 "2", utf8 "11:30 AM"); (utf8 "3", utf8 "02:00 PM");
    (utf8 "4", utf8 "03:30 PM"); (utf8 "5", utf8 "05:00 PM") ].

Definition unit_types : list (str * str) :=
  [ (utf8 "1", utf8 "3 BHK"); (utf8 "2", utf8 "4 BHK"); (utf8 "3", utf8 "Both 3 & 4 BHK") ].

Fixpoint assoc (k : str) (table : list (str * str)) : option str :=
  match table with
  | [] => None
  | (k', v) :: rest => if str_eqb k k' then Some v else assoc k rest
  end.

Definition step_name (from_phone : pyval) (message_text : str) : M turn pyval :=
  update_booking (set_booking_name message_text) ;;
  update_booking (set_current_step (utf8 "confirm_phone")) ;;
  say (confirm_phone_prompt message_text from_phone).

Definition step_confirm_phone (message_text user_lower : str) : M turn pyval :=
  phone <-
    (if str_eqb user_lower (utf8 "yes") || str_eqb user_lower (utf8 "1")
     then
       stored <- read (fun s => booking_phone (booking_info s)) ;;
       match stored with
       | Some phone => ret (Some phone)
       | None => raise KeyError
       end
     else
       match re_search phone_pattern message_text with
       | Some phone_match => ret (Some (without_spaces_and_hyphens (whole phone_match)))
       | None => ret None
       end) ;;
  match phone with
  | None => say phone_reprompt
  | Some phone =>
      update_booking (set_booking_phone phone) ;;
      update_booking (set_current_step (utf8 "date")) ;;
      say date_prompt
  end.

Definition step_date (message_text : str) : M turn pyval :=
  match re_match_start date_pattern message_text with
  | None => say date_reprompt
  | Some _ =>
      update_booking (set_booking_date message_text) ;;
      update_booking (set_current_step (utf8 "time")) ;;
      say time_prompt
  end.

Definition step_time (message_text : str) : M turn pyval :=
  let time_slot := default message_text (assoc message_text time_slots) in
  update_booking (set_booking_time time_slot) ;;
  update_booking (set_current_step (utf8 "unit_type")) ;;
  say unit_type_prompt.

Definition step_unit_type (message_text : str) : M turn pyval :=
  match assoc message_text unit_types with
  | None => say unit_type_reprompt
  | Some unit_type =>
      update_booking (set_booking_unit_type unit_type) ;;
      update_booking (set_current_step (utf8 "budget")) ;;
      say budget_prompt
  end.

Definition step_budget (message_text : str) : M turn pyval :=
  budget <- eval (extract_budget_from_text message_text) ;;
  match budget with
  | None | Some [] => say budget_reprompt
  | Some ((_ :: _) as budget) =>
      update_booking (set_booking_budget budget) ;;
      update (set_lead_capture_mode None) ;;
      update (set_asked_about_brochure true) ;;
      say booking_form_redirect
  end.

Definition is_step (current_step : option str) (step : string) : bool :=
  bool_decide (current_step = Some (utf8 step)).

(** The dispatch on [current_step]; a step outside the six falls through
    to the default answer. *)
Definition booking_step (from_phone : pyval) (message_text user_lower : str)
    : M turn pyval :=
  current_step <- read (fun s => current_step (booking_info s)) ;;
  if is_step current_step "name" then step_name from_phone message_text
  else if is_step current_step "confirm_phone" then step_confirm_phone message_text user_lower
  else if is_step current_step "date" then step_date message_text
  else if is_step current_step "time" then step_time message_text
  else if is_step current_step "unit_type" then step_unit_type message_text
  else if is_step current_step "budget" then step_budget message_text
  else use_gemini message_text.

Definition booking_form_submission (from_phone : pyval) (message_text user_lower : str)
    : M turn pyval :=
  mode <- read lead_capture_mode ;;
  if bool_decide (mode = Some (utf8 "booking"))
  then booking_step from_phone message_text user_lower
  else use_gemini message_text.

(** *** Handle site visit booking *)

Definition booking_keywords_english : list str :=
  [utf8 "book site visit"; utf8 "schedule visit"; utf8 "site visit";
   utf8 "book appointment"; utf8 "visit booking"].

Definition booking_keywords_gujarati : list str :=
  [utf8 "àª¸àª¾àª‡àªŸ àªµàª¿àªàª¿àªŸ"; utf8 "àªàªªà«‹àª‡àª¨à«àªŸàª®à«‡àª¨à«àªŸ";
   utf8 "àªµàª¿àªàª¿àªŸ àª¬à«àª•"; utf8 "àª®à«àª²àª¾àª•àª¾àª¤";
   utf8 "àª¸àª¾àª‡àªŸ àªœà«‹àªµàª¾"].

Definition english_form_url : str :=
  utf8 "https://docs.google.com/forms/d/e/1FAIpQLSceds-nIr9vTLHJ0Jl1TOv0DNYGQhb0CtEa2R3mA9Ae3iP8Lg/viewform".
Definition gujarati_form_url : str :=
  utf8 "https://docs.google.com/forms/d/e/1FAIpQLSdmWOyIDKZ5KU47LhzKUJXwITN40Fn8tV8swuX7IIWFvB72qQ/viewform".

Definition booking_form_reply_gujarati : str :=
  utf8 "ğŸ  *àª¬à«àª°à«‚àª•àª¸à«àªŸà«‹àª¨ àª¸àª¾àª‡àªŸ àªµàª¿àªàª¿àªŸ àª¬à«àª•àª¿àª‚àª—*" ++ nl ++
  nl ++
  utf8 "àª¤àª®àª¾àª°à«€ àª¸àª¾àª‡àªŸ àªµàª¿àªàª¿àªŸ àª¶à«‡àª¡à«àª¯à«‚àª² àª•àª°àªµàª¾ àª®àª¾àªŸà«‡, àª¨à«€àªšà«‡àª¨à«€ àª²àª¿àª‚àª• àªªàª° àª•à«àª²àª¿àª• àª•àª°à«‹ àª…àª¨à«‡ àª«à«‹àª°à«àª® àª­àª°à«‹:" ++ nl ++
  nl ++
  utf8 "ğŸ“ " ++ gujarati_form_url ++ nl ++
  nl ++
  utf8 "àª«à«‹àª°à«àª®àª®àª¾àª‚ àª† àª®àª¾àª¹àª¿àª¤à«€ àªªà«‚àª›àªµàª¾àª®àª¾àª‚ àª†àªµàª¶à«‡:" ++ nl ++
  utf8 "â€¢ àª¤àª®àª¾àª°à«àª‚ àª¨àª¾àª®" ++ nl ++
  utf8 "â€¢ àª•à«‹àª¨à«àªŸà«‡àª•à«àªŸ àª¨àª‚àª¬àª°" ++ nl ++
  utf8 "â€¢ àªªàª¸àª‚àª¦àª—à«€àª¨à«€ àª¤àª¾àª°à«€àª– àª…àª¨à«‡ àª¸àª®àª¯" ++ nl ++
  utf8 "â€¢ àª¯à«àª¨àª¿àªŸ àªªàª¸àª‚àª¦àª—à«€" ++ nl ++
  utf8 "â€¢ àª¬àªœà«‡àªŸ àª°à«‡àª¨à«àªœ" ++ nl ++
  nl ++
  utf8 "àª«à«‹àª°à«àª® àª¸àª¬àª®àª¿àªŸ àª•àª°à«àª¯àª¾ àªªàª›à«€, àª¤àª®àª¨à«‡ 15 àª®àª¿àª¨àª¿àªŸàª¨à«€ àª…àª‚àª¦àª° WhatsApp àªªàª° àª•àª¨à«àª«àª°à«àª®à«‡àª¶àª¨ àª®à«‡àª¸à«‡àªœ àª®àª³àª¶à«‡." ++ nl ++
  nl ++
  utf8 "àª«à«‹àª°à«àª® àª­àª°àªµàª¾àª®àª¾àª‚ àª•à«‹àªˆ àª®àª¦àª¦ àªœà«‹àªˆàª àª›à«‡? àªªà«‚àª›àªµàª¾àª®àª¾àª‚ àª¸àª‚àª•à«‹àªš àª¨ àª•àª°àª¶à«‹! ğŸ˜Š" ++ nl ++
  nl ++
  utf8 "_àª¨à«‹àª‚àª§: àª•à«ƒàªªàª¾ àª•àª°à«€àª¨à«‡ àª«à«‹àª°à«àª®àª®àª¾àª‚ àª¸àª¾àªšà«‹ àª•à«‹àª¨à«àªŸà«‡àª•à«àªŸ àª¨àª‚àª¬àª° àª†àªªàª¶à«‹, àª•àª¾àª°àª£ àª•à«‡ àª…àª®à«‡ àª àªœ WhatsApp àª¨àª‚àª¬àª° àªªàª° àª•àª¨à«àª«àª°à«àª®à«‡àª¶àª¨ àª®à«‹àª•àª²à«€àª¶à«àª‚._ ğŸ“±".

Definition booking_form_reply_english : str :=
  utf8 "ğŸ  *Book Your Site Visit to Brookstone*" ++ nl ++
  nl ++
  utf8 "To schedule your site visit, please click the link below and fill out a quick form:" ++ nl ++
  nl ++
  utf8 "ğŸ“ " ++ english_form_url ++ nl ++
  nl ++
  utf8 "The form will ask for:" ++ nl ++
  utf8 "â€¢ Your Name" ++ nl ++
  utf8 "â€¢ Contact Number" ++ nl ++
  utf8 "â€¢ Preferred Date & Time" ++ nl ++
  utf8 "â€¢ Unit Type Interest" ++ nl ++
  utf8 "â€¢ Budget Range" ++ nl ++
  nl ++
  utf8 "Once you submit the form, you will receive a confirmation message here on WhatsApp within 15 minutes." ++ nl ++
  nl ++
  utf8 "Need help with the form? Feel free to ask! ğŸ˜Š" ++ nl ++
  nl ++
  utf8 "_Tip: Make sure to provide accurate contact details in the form as we'll send the confirmation on the same WhatsApp number._ ğŸ“±".

(** "Choose form URL based on detected language" *)
Definition send_booking_form : M turn pyval :=
  language <- read language ;;
  if str_eqb language gujarati
  then say booking_form_reply_gujarati
  else say booking_form_reply_english.

Definition site_visit_booking (from_phone : pyval) (message_text user_lower : str)
    : M turn pyval :=
  if any_in (booking_keywords_english ++ booking_keywords_gujarati) user_lower
  then send_booking_form
  else booking_form_submission from_phone message_text user_lower.

(** *** Handle WhatsApp contact request *)

Definition contact_patterns : list str :=
  [utf8 "whatsapp chat"; utf8 "whatsapp number"; utf8 "agent whatsapp";
   utf8 "contact agent"; utf8 "agent contact"; utf8 "talk to agent"].

Definition contact_reply : str :=
  utf8 "Great! You can reach our agent, Shatranj, directly on WhatsApp at:" ++ nl ++
  nl ++
  utf8 "ğŸ“± *WhatsApp Number:* +91 1234567890" ++ nl ++
  nl ++
  utf8 "Our team will respond within 30 minutes during office hours (10 AM - 7 PM)." ++ nl ++
  nl ++
  utf8 "You can also call on the same number for a phone conversation." ++ nl ++
  nl ++
  utf8 "Is there anything else about Brookstone I can help you with? ğŸ ".

Definition whatsapp_contact_request (from_phone : pyval) (message_text user_lower : str)
    : M turn pyval :=
  if any_in contact_patterns user_lower
  then say contact_reply
  else site_visit_booking from_phone message_text user_lower.

(** *** Handle affirmative response to brochure *)

Definition affirmative_patterns : list str :=
  [utf8 "yes"; utf8 "yeah"; utf8 "yup"; utf8 "sure"; utf8 "ok"; utf8 "okay";
   utf8 "please"; utf8 "send"; utf8 "want"; utf8 "need"].

Definition brochure_whatsapp_issue_reply : str :=
  utf8 "âŒ There was an issue sending your brochure on WhatsApp." ++ nl ++
  utf8 "Please contact our agent at +91 1234567890.".

Definition send_confirmed_brochure (from_phone : pyval) : M turn pyval :=
  success <- io (send_whatsapp_document from_phone BROCHURE_MEDIA_ID) ;;
  if negb success then say brochure_whatsapp_issue_reply else ret PNone.

Definition affirmative_response_to_brochure (from_phone : pyval)
    (message_text user_lower : str) : M turn pyval :=
  asked <- read asked_about_brochure ;;
  if asked
  then
    update (set_asked_about_brochure false) ;;
    if any_in affirmative_patterns user_lower
    then send_confirmed_brochure from_phone
    else whatsapp_contact_request from_phone message_text user_lower
  else whatsapp_contact_request from_phone message_text user_lower.

(** *** Detect brochure request *)

Definition brochure_keywords : list str :=
  [utf8 "brochure"; utf8 "pdf"; utf8 "download"; utf8 "send brochure";
   utf8 "share brochure"; utf8 "floor plan"; utf8 "send pdf"].

Definition brochure_issue_reply : str :=
  utf8 "I apologize, but there was an issue sending the brochure." ++ nl ++
  nl ++
  utf8 "Please contact our agent at +91 1234567890 for assistance.".

(** "Send brochure directly to the phone number that messaged us" *)
Definition send_requested_brochure (from_phone : pyval) : M turn pyval :=
  update (set_asked_about_brochure true) ;;
  success <- io (send_whatsapp_document from_phone BROCHURE_MEDIA_ID) ;;
  if negb success then say brochure_issue_reply else ret PNone.

Definition brochure_request (from_phone : pyval) (message_text user_lower : str)
    : M turn pyval :=
  if any_in brochure_keywords user_lower
  then send_requested_brochure from_phone
  else affirmative_response_to_brochure from_phone message_text user_lower.

(** *** Handle phone number for brochure *)

Definition brochure_to_number_issue_reply : str :=
  utf8 "I apologize, but there was an issue sending the brochure to your WhatsApp. " ++ nl ++
  nl ++
  utf8 "Please try again later or contact our agent directly at +91 1234567890.".

Definition no_valid_phone_reply : str :=
  utf8 "I didn't find a valid phone number. Please share your *10-digit mobile number* to send the brochure." ++ nl ++
  nl ++
  utf8 "For example: 9876543210 or +91 9876543210".

Definition capture_phone_number (message_text : str) : M turn pyval :=
  match re_search phone_pattern message_text with
  | Some phone_match =>
      let phone_number := without_spaces_and_hyphens (whole phone_match) in
      update (set_user_phone (PStr phone_number)) ;;
      update (set_lead_capture_mode None) ;;
      success <- io (send_whatsapp_document (PStr phone_number) BROCHURE_MEDIA_ID) ;;
      if negb success then say brochure_to_number_issue_reply else ret PNone
  | None => say no_valid_phone_reply
  end.

Definition phone_number_for_brochure (from_phone : pyval) (message_text user_lower : str)
    : M turn pyval :=
  mode <- read lead_capture_mode ;;
  if bool_decide (mode = Some (utf8 "phone_for_brochure"))
  then capture_phone_number message_text
  else brochure_request from_phone message_text user_lower.

(** *** The turn, on the sender's state *)

Definition process_turn (from_phone message_text : pyval) : M turn pyval :=
  match message_text with
  | PStr text =>
      let user_lower := strip (lower text) in
      let detected_lang := detect_language text in
      update (set_language detected_lang) ;;
      update (append_history (PStr text, true)) ;;
      phone_number_for_brochure from_phone text user_lower
  | _ => raise AttributeError
  end.

(** *** [CONV_STATE] and [process_incoming_message] *)

(** What a Python dict makes of a key: lists and dicts are unhashable;
    [True] and [False] are the keys [1] and [0]. *)
Inductive key :=
| KNone
| KInt (z : Z)
| KStr (s : str).

Definition hash_key (v : pyval) : outcome key :=
  match v with
  | PNone => Ok KNone
  | PBool b => Ok (KInt (if b then 1 else 0))
  | PInt z => Ok (KInt z)
  | PStr s => Ok (KStr s)
  | PList _ => Raise TypeError
  | PDict _ => Raise TypeError
  end.

#[export] Instance key_eq_dec : EqDecision key.
Proof. solve_decision. Defined.

#[export] Instance key_countable : Countable key.
Proof.
  refine (inj_countable'
    (fun k => match k with
              | KNone => inl ()
              | KInt z => inr (inl z)
              | KStr s => inr (inr s)
              end)
    (fun x => match x with
              | inl _ => KNone
              | inr (inl z) => KInt z
              | inr (inr s) => KStr s
              end) _).
  intros []; reflexivity.
Defined.

(** The process: the conversation states and everything sent so far. *)
Record machine := Machine {
  CONV_STATE : gmap key conv_state;
  events : list event
}.

(** "Get or create user state", then the turn on that state; the state
    object is shared with [CONV_STATE], so what the turn did to it is
    there afterwards, also when the turn raised. *)
Definition process_incoming_message (from_phone message_text message_id : pyval)
    : M machine pyval :=
  fun m =>
    match hash_key from_phone with
    | Raise e => (Raise e, m)
    | Ok k =>
        let user_state := default (new_state from_phone) (CONV_STATE m !! k) in
        let '(r, t) := process_turn from_phone message_text (Turn user_state (events m)) in
        (r, Machine (<[k := state t]> (CONV_STATE m)) (trace t))
    end.

End Bot.


(** ** Webhook routes *)

Section Webhook.
Context `{Unicode} `{World} `{Config}.

(** A call to the world from the request handler *)
Definition world {A} (m : IO A) : M machine A :=
  fun s => let '(r, tr) := m (events s) in (r, Machine (CONV_STATE s) tr).

(** The text of a message: the body of a text message, the text of a
    button, the title of a button or list reply; [''] for anything else. *)
Definition message_text_of (message msg_type : pyval) : outcome pyval :=
  if py_eq_str msg_type (utf8 "text")
  then let? text := py_get message (utf8 "text") (PDict []) in
       py_get text (utf8 "body") (PStr [])
  else if py_eq_str msg_type (utf8 "button")
  then let? button := py_get message (utf8 "button") (PDict []) in
       py_get button (utf8 "text") (PStr [])
  else if py_eq_str msg_type (utf8 "interactive")
  then
    let? interactive := py_get message (utf8 "interactive") (PDict []) in
    let? is_button := py_in (utf8 "button_reply") interactive in
    if is_button
    then let? reply := py_getitem interactive (utf8 "button_reply") in
         py_get reply (utf8 "title") (PStr [])
    else
      let? is_list := py_in (utf8 "list_reply") interactive in
      if is_list
      then let? reply := py_getitem interactive (utf8 "list_reply") in
           py_get reply (utf8 "title") (PStr [])
      else Ok (PStr [])
  else Ok (PStr []).

(** The body of [for message in messages] *)
Definition handle_message (message : pyval) : M machine unit :=
  from_phone <- eval (py_get message (utf8 "from") PNone) ;;
  message_id <- eval (py_get message (utf8 "id") PNone) ;;
  msg_type <- eval (py_get message (utf8 "type") PNone) ;;
  text <- eval (message_text_of message msg_type) ;;
  if negb (truthy text)
  then ret tt
  else
    world (mark_message_as_read message_id) ;;
    response_text <- process_incoming_message from_phone text message_id ;;
    world (send_whatsapp_text from_phone response_text) ;;
    ret tt.




End Webhook.

(** ** Google Sheets: the site-visit ledger *)

(** The spreadsheet behind gspread. *)
Class Sheets := {
  (** [get_google_creds()] gave credentials *)
  google_creds : bool;
  (** the records of the first sheet, [None] when opening or reading raised *)
  get_all_records : option (list pyval);
  (** the column of the cell holding [Status]; [None] when there is none *)
  find_status_col : option Z;
  (** a cell update went through *)
  update_cell_ok : list event -> nat -> Z -> str -> bool
}.

Section Bookings.
Context `{World} `{Sheets}.

Definition booking_confirmation (name date time unit budget : pyval) : str :=
  utf8 "ğŸ‰ *Site Visit Booking Confirmed!*" ++ nl ++
  nl ++
  utf8 "Dear " ++ py_format name ++ utf8 "," ++ nl ++
  nl ++
  utf8 "Thank you for booking a site visit at Brookstone. Your appointment details:" ++ nl ++
  nl ++
  utf8 "ğŸ“… Date: " ++ py_format date ++ nl ++
  utf8 "â° Time: " ++ py_format time ++ nl ++
  utf8 "ğŸ  Unit Interest: " ++ py_format unit ++ nl ++
  utf8 "ğŸ’° Budget Range: " ++ py_format budget ++ nl ++
  nl ++
  utf8 "ğŸ“ *Location:*" ++ nl ++
  utf8 "Brookstone Show Flat" ++ nl ++
  utf8 "B/S, Vaikunth Bungalows, Next to Oxygen Park" ++ nl ++
  utf8 "DPS-Bopal Road, Shilaj, Ahmedabad - 380059" ++ nl ++
  nl ++
  utf8 "Our team will be ready to welcome you! Please carry a valid ID proof." ++ nl ++
  nl ++
  utf8 "Need to reschedule? Contact us at: +91 1234567890" ++ nl ++
  nl ++
  utf8 "Looking forward to showing you your future home! ğŸŒŸ" ++ nl ++
  nl ++
  utf8 "_Note: You'll receive a reminder message 1 day before your visit._".

(** The loop of [check_new_bookings] has one local that outlives an
    iteration: [row_num], unbound until the first assignment. *)
Record poll := Poll { row_num : option nat; poll_trace : list event }.

Definition outside {A} (m : IO A) : M poll A :=
  fun p => let '(r, tr) := m (poll_trace p) in (r, Poll (row_num p) tr).

(** [sheet.update_cell(row, sheet.find('Status').col, value)], the row
    already evaluated *)
Definition update_status (row : nat) (value : str) : M poll unit :=
  match find_status_col with
  | None => raise AttributeError
  | Some col =>
      fun p =>
        let tr := poll_trace p in
        if update_cell_ok tr row col value
        then (Ok tt, Poll (row_num p) (tr ++ [UpdateCell row col value]))
        else (Raise APIError, p)
  end.

Fixpoint py_eqb (a b : pyval) : bool :=
  match a, b with
  | PNone, PNone => true
  | PBool x, PBool y => eqb x y
  | PBool x, PInt z => (z =? (if x then 1 else 0))%Z
  | PInt z, PBool x => (z =? (if x then 1 else 0))%Z
  | PInt x, PInt y => (x =? y)%Z
  | PStr s, PStr t => str_eqb s t
  | PList l, PList l' =>
      (fix all2 (l : list pyval) (l' : list pyval) : bool :=
         match l, l' with
         | [], [] => true
         | x :: l, y :: l' => py_eqb x y && all2 l l'
         | _, _ => false
         end) l l'
  | PDict d, PDict d' =>
      bool_decide (length d = length d')
      && (fix sub (d : list (str * pyval)) : bool :=
            match d with
            | [] => true
            | (k, v) :: d =>
                match dict_lookup k d' with
                | Some v' => py_eqb v v' && sub d
                | None => false
                end
            end) d
  | _, _ => false
  end.

(** [records.index(record)] *)
Fixpoint index_of (record : pyval) (records : list pyval) : option nat :=
  match records with
  | [] => None
  | r :: rest => if py_eqb r record then Some 0%nat else S <$> index_of record rest
  end.

(** "Format phone number if needed" *)
Definition format_phone (phone : pyval) : outcome pyval :=
  if truthy phone
  then match phone with
       | PStr p =>
           let p := filter (fun c => (48 <= c ∧ c <= 57) ∨ c = 43) p in
           if bool_decide (length p = 10%nat) && negb (starts_with (utf8 "+") p)
           then Ok (PStr (utf8 "+91" ++ p))
           else Ok (PStr p)
       | _ => Raise TypeError
       end
  else Ok phone.

(** The body of [for record in all_records] *)
Definition process_record (all_records : list pyval) (record : pyval) : M poll unit :=
  status <- eval (py_get record (utf8 "Status") PNone) ;;
  if negb (truthy status)
  then
    phone <- eval (py_get record (utf8 "Phone") PNone) ;;
    name <- eval (py_get record (utf8 "Name") PNone) ;;
    date <- eval (py_get record (utf8 "Preferred Date") PNone) ;;
    time <- eval (py_get record (utf8 "Preferred Time") PNone) ;;
    unit <- eval (py_get record (utf8 "Unit Type") PNone) ;;
    budget <- eval (py_get record (utf8 "Budget") PNone) ;;
    phone <- eval (format_phone phone) ;;
    if truthy phone && truthy name && truthy date && truthy time
    then
      let message := booking_confirmation name date time unit budget in
      sent <- outside (send_whatsapp_text phone (PStr message)) ;;
      if sent
      then
        match index_of record all_records with
        | None => raise ValueError
        | Some i =>
            modify (fun p => Poll (Some (i + 2)%nat) (poll_trace p)) ;;
            update_status (i + 2) (utf8 "Confirmed")
        end
      else
        row <- (fun p => (Ok (row_num p), p)) ;;
        match row with
        | None => raise UnboundLocalError
        | Some row => update_status row (utf8 "Pending - WhatsApp Failed")
        end
    else ret tt
  else ret tt.

(** The body of the [try] of [check_new_bookings] *)
Definition check_all_records : M poll bool :=
  if negb google_creds then ret false
  else match get_all_records with
       | None => raise APIError
       | Some all_records =>
           for_each all_records (process_record all_records) ;;
           ret true
       end.

Definition check_new_bookings : IO bool :=
  fun tr =>
    match check_all_records (Poll None tr) with
    | (Ok b, p) => (Ok b, poll_trace p)
    | (Raise _, p) => (Ok false, poll_trace p)
    end.

End Bookings.

(** [check_bookings_periodically]: the loop never ends; [rounds] is the
    number of rounds that are run. *)
Fixpoint check_bookings_periodically `{World} `{Sheets} (rounds : nat) : IO unit :=
  match rounds with
  | O => ret tt
  | S rounds' =>
      r <- try (check_new_bookings ;; sleep 300) ;;
      match r with
      | Ok _ => ret tt
      | Raise _ => sleep 60
      end ;;
      check_bookings_periodically rounds'
  end.


(** ** Running the definitions

    A world where every request is answered with status 200 and an empty
    body, one where every request fails, and a configuration with a key,
    a brochure and no FAQ files. *)

Definition obliging_world : World :=
  {| requests_post := fun _ _ => Response 200 None |}.

Definition unreachable_world : World :=
  {| requests_post := fun _ _ => Failed |}.

Definition sample_config : Config :=
  {| GEMINI_API_KEY := Some (utf8 "key");
     BROCHURE_MEDIA_ID := utf8 "1562506805130847";
     faq_data_english := None;
     faq_data_gujarati := None |}.

Definition start : machine := Machine ∅ [].

(** ** The knowledge base as shared objects

    [extract_relevant_data] works on objects that the whole process shares:
    the entries it puts in its result are the very objects of [FAQ_DATA].
    What it may change is a question about the store, so here the function
    is written once more, statement by statement in source order, on a store
    of objects: a value is a scalar or a reference, [relevant_data] is a
    fresh dict, a dict or empty-dict literal is an allocation, and
    [relevant_data[k] = v] is the one statement that writes.  (The keyword
    lists of the [any(...)] tests are not allocated: nothing keeps them.) *)

Module Stored.

Inductive val :=
| VNone
| VBool (b : bool)
| VInt (z : Z)
| VStr (s : str)
| VRef (l : nat).

Inductive obj :=
| ODict (items : list (str * val))
| OList (items : list val).

(** The store: object [l] is the [l]-th allocated. *)
Abbreviation store := (list obj) (only parsing).

Local Open Scope monad_scope.

Definition alloc (o : obj) : M store val :=
  fun h => (Ok (VRef (length h)), h ++ [o]).

Definition deref (v : val) : M store (option obj) :=
  fun h => (Ok match v with VRef l => h !! l | _ => None end, h).

Fixpoint items_lookup (k : str) (d : list (str * val)) : option val :=
  match d with
  | [] => None
  | (k', v) :: d' => if str_eqb k k' then Some v else items_lookup k d'
  end.

(** [d[k] = v] on the items of a dict: in place, or appended *)
Fixpoint items_set (k : str) (v : val) (d : list (str * val)) : list (str * val) :=
  match d with
  | [] => [(k, v)]
  | (k', v') :: d' => if str_eqb k k' then (k, v) :: d' else (k', v') :: items_set k v d'
  end.

Definition eq_str (v : val) (s : str) : bool :=
  match v with
  | VStr t => str_eqb t s
  | _ => false
  end.

(** [k in v] *)
Definition has (k : str) (v : val) : M store bool :=
  o <- deref v ;;
  match v, o with
  | VStr s, _ => ret (contains k s)
  | VRef _, Some (ODict d) => ret (bool_decide (is_Some (items_lookup k d)))
  | VRef _, Some (OList l) => ret (existsb (fun x => eq_str x k) l)
  | _, _ => raise TypeError
  end.

(** [v[k]] *)
Definition getitem (v : val) (k : str) : M store val :=
  o <- deref v ;;
  match o with
  | Some (ODict d) =>
      match items_lookup k d with
      | Some x => ret x
      | None => raise KeyError
      end
  | _ => raise TypeError
  end.

(** [v.get(k, dflt)] *)
Definition get (v : val) (k : str) (dflt : val) : M store val :=
  o <- deref v ;;
  match o with
  | Some (ODict d) => ret (default dflt (items_lookup k d))
  | _ => raise AttributeError
  end.

(** The items [for x in v] visits *)
Definition iter (v : val) : M store (list val) :=
  o <- deref v ;;
  match v, o with
  | VStr s, _ => ret (map (fun c => VStr [c]) s)
  | VRef _, Some (ODict d) => ret (map (fun kv => VStr (fst kv)) d)
  | VRef _, Some (OList l) => ret l
  | _, _ => raise TypeError
  end.

(** [len(v)] *)
Definition len (v : val) : M store nat :=
  o <- deref v ;;
  match v, o with
  | VStr s, _ => ret (length s)
  | VRef _, Some (ODict d) => ret (length d)
  | VRef _, Some (OList l) => ret (length l)
  | _, _ => raise TypeError
  end.

(** [target[k] = v]: the only write *)
Definition setitem (target : val) (k : str) (v : val) : M store unit :=
  fun h =>
    match target with
    | VRef l =>
        match h !! l with
        | Some (ODict d) => (Ok tt, <[l := ODict (items_set k v d)]> h)
        | _ => (Raise TypeError, h)
        end
    | _ => (Raise TypeError, h)
    end.

(** A literal: its objects are allocated, innermost first. *)
Fixpoint literal (p : pyval) : M store val :=
  match p with
  | PNone => ret VNone
  | PBool b => ret (VBool b)
  | PInt z => ret (VInt z)
  | PStr s => ret (VStr s)
  | PList l =>
      items <- (fix each (l : list pyval) : M store (list val) :=
                  match l with
                  | [] => ret []
                  | x :: l' => v <- literal x ;; vs <- each l' ;; ret (v :: vs)
                  end) l ;;
      alloc (OList items)
  | PDict d =>
      items <- (fix each (d : list (str * pyval)) : M store (list (str * val)) :=
                  match d with
                  | [] => ret []
                  | (k, x) :: d' => v <- literal x ;; vs <- each d' ;; ret ((k, v) :: vs)
                  end) d ;;
      alloc (ODict items)
  end.

Definition empty_dict : M store val := alloc (ODict []).

Section Relevance.
Context `{Unicode}.

Definition copy_section (lang_data : val) (name target : str) (rd : val) : M store unit :=
  present <- has name lang_data ;;
  if present
  then v <- getitem lang_data name ;; setitem rd target v
  else ret tt.

Definition copy_construction_elevator (lang_data rd : val) : M store unit :=
  in_tree <- has (utf8 "construction_specifications") lang_data ;;
  present <-
    (if in_tree
     then cs <- getitem lang_data (utf8 "construction_specifications") ;;
          has (utf8 "elevator") cs
     else ret false) ;;
  if present
  then cs <- getitem lang_data (utf8 "construction_specifications") ;;
       e <- getitem cs (utf8 "elevator") ;;
       setitem rd (utf8 "elevator") e
  else ret tt.

Definition unit_slice (lang_data : val) (plan label price parking : str) (rd : val)
    : M store unit :=
  present <- has plan lang_data ;;
  if present
  then
    unit_plan <- getitem lang_data plan ;;
    setitem rd (utf8 "unit_plan") unit_plan ;;
    no_pricing <- empty_dict ;;
    pricing <- get lang_data (utf8 "pricing") no_pricing ;;
    box_price <- get pricing price VNone ;;
    priced <- alloc (ODict [(label, box_price)]) ;;
    setitem rd (utf8 "pricing") priced ;;
    no_parking <- empty_dict ;;
    parkings <- get lang_data (utf8 "parking") no_parking ;;
    unit_parking <- get parkings parking VNone ;;
    parked <- alloc (ODict [(label, unit_parking)]) ;;
    setitem rd (utf8 "parking") parked
  else ret tt.

Definition facility_and_flat_queries (q : str) (lang_data rd : val) : M store unit :=
  if any_in all_keywords q
  then
    (if any_in three_bhk_keywords q
     then unit_slice lang_data (utf8 "3bhk_unit_plan") (utf8 "3bhk")
            (utf8 "box_price_2650") (utf8 "3bhk_parking") rd
     else if any_in four_bhk_keywords q
     then unit_slice lang_data (utf8 "4bhk_unit_plan") (utf8 "4bhk")
            (utf8 "box_price_3850") (utf8 "4bhk_parking") rd
     else ret tt) ;;
    copy_section lang_data (utf8 "ground_floor_plan") (utf8 "ground_floor_plan") rd ;;
    copy_construction_elevator lang_data rd
  else ret tt.

(** [relevant_data[target] = lang_data['ground_floor_plan'].get(name, dflt)] *)
Definition plan_entry (lang_data : val) (name : str) (dflt : M store val) : M store val :=
  plan <- getitem lang_data (utf8 "ground_floor_plan") ;;
  d <- dflt ;;
  get plan name d.

Definition ground_floor_queries (q : str) (lang_data rd : val) : M store unit :=
  if any_in
       [utf8 "ground floor"; utf8 "ground level"; utf8 "ground"; utf8 "foyer";
        utf8 "entrance"; utf8 "multipurpose"; utf8 "court"; utf8 "gym"; utf8 "library";
        utf8 "toddler"; utf8 "society"; utf8 "seating"; utf8 "lift"; utf8 "stair";
        utf8 "amenity"; utf8 "facility"; utf8 "drop"] q
  then
    present <- has (utf8 "ground_floor_plan") lang_data ;;
    if present
    then
      summary <- plan_entry lang_data (utf8 "summary") (ret (VStr [])) ;;
      setitem rd (utf8 "ground_floor_summary") summary ;;
      overview <- plan_entry lang_data (utf8 "site_overview") empty_dict ;;
      setitem rd (utf8 "ground_floor_overview") overview ;;
      block_a_zone <- plan_entry lang_data (utf8 "block_a_zone") empty_dict ;;
      block_b_zone <- plan_entry lang_data (utf8 "block_b_zone") empty_dict ;;
      central_zone <- plan_entry lang_data (utf8 "central_amenities") empty_dict ;;
      (if contains (utf8 "block a") q
          || any_in [utf8 "society"; utf8 "toddler"; utf8 "right side"; utf8 "security"] q
       then d <- literal block_a_zone_details ;; setitem rd (utf8 "block_a_zone") d
       else ret tt) ;;
      (if contains (utf8 "block b") q
          || any_in [utf8 "gym"; utf8 "library"; utf8 "left side"] q
       then d <- literal block_b_zone_details ;; setitem rd (utf8 "block_b_zone") d
       else ret tt) ;;
      (if any_in
            [utf8 "central"; utf8 "amenity"; utf8 "court"; utf8 "sand pit"; utf8 "lawn";
             utf8 "facility"; utf8 "fountain"] q
       then d <- literal central_amenities_details ;;
            setitem rd (utf8 "central_amenities") d
       else ret tt)
    else ret tt
  else ret tt.

Fixpoint first_config_in (items : list val) (kind field : str) : M store val :=
  match items with
  | [] => ret (VStr [])
  | config :: rest =>
      type <- getitem config (utf8 "type") ;;
      if eq_str type kind
      then getitem config field
      else first_config_in rest kind field
  end.

Definition first_config (configs : val) (kind field : str) : M store val :=
  items <- iter configs ;; first_config_in items kind field.

Definition unit_summary (configs : val) (kind : str) : M store val :=
  total_size <- first_config configs kind (utf8 "size_sqft") ;;
  carpet_area <- first_config configs kind (utf8 "carpet_area") ;;
  size_yard <- first_config configs kind (utf8 "size_sq_yard") ;;
  price <- first_config configs kind (utf8 "price_cr") ;;
  alloc (ODict [ (utf8 "total_size", total_size); (utf8 "carpet_area", carpet_area);
                 (utf8 "size_yard", size_yard); (utf8 "price", price) ]).

Definition plan_details (lang_data : val) (plan target : str) (asked : bool) (rd : val)
    : M store unit :=
  present <- has plan lang_data ;;
  if present && asked
  then
    p <- getitem lang_data plan ;;
    overview <- getitem p (utf8 "overview") ;;
    p <- getitem lang_data plan ;;
    special_features <- getitem p (utf8 "special_features") ;;
    p <- getitem lang_data plan ;;
    area_breakdown <- getitem p (utf8 "area_breakdown") ;;
    d <- alloc (ODict [ (utf8 "overview", overview);
                        (utf8 "special_features", special_features);
                        (utf8 "area_breakdown", area_breakdown) ]) ;;
    setitem rd target d
  else ret tt.

Definition unit_configuration_queries (q : str) (lang_data rd : val) : M store unit :=
  if any_in
       [utf8 "3bhk"; utf8 "3 bhk"; utf8 "price"; utf8 "cost"; utf8 "bhk"; utf8 "bedroom";
        utf8 "size"; utf8 "sqft"; utf8 "configuration"; utf8 "apartment"; utf8 "flat";
        utf8 "carpet"; utf8 "area"; utf8 "dimension"] q
  then
    present <- has (utf8 "unit_configurations") lang_data ;;
    (if present
     then
       configs <- getitem lang_data (utf8 "unit_configurations") ;;
       three <- unit_summary configs (utf8 "3BHK") ;;
       four <- unit_summary configs (utf8 "4BHK") ;;
       d <- alloc (ODict [(utf8 "3bhk", three); (utf8 "4bhk", four)]) ;;
       setitem rd (utf8 "unit_details") d
     else ret tt) ;;
    plan_details lang_data (utf8 "3bhk_unit_plan") (utf8 "3bhk_details")
      (contains (utf8 "3bhk") q || contains (utf8 "3 bhk") q || contains (utf8 "carpet") q)
      rd ;;
    plan_details lang_data (utf8 "4bhk_unit_plan") (utf8 "4bhk_details")
      (contains (utf8 "4bhk") q || contains (utf8 "4 bhk") q || contains (utf8 "carpet") q)
      rd ;;
    copy_section lang_data (utf8 "pricing") (utf8 "pricing") rd
  else ret tt.

Definition topic (keywords : list str) (name target : str) (q : str) (lang_data rd : val)
    : M store unit :=
  if any_in keywords q then copy_section lang_data name target rd else ret tt.

Definition room_queries (q : str) (lang_data rd : val) : M store unit :=
  if any_in
       [utf8 "kitchen"; utf8 "room"; utf8 "bedroom"; utf8 "living"; utf8 "dining";
        utf8 "bathroom"; utf8 "toilet"; utf8 "balcony"] q
  then
    copy_section lang_data (utf8 "3bhk_unit_plan") (utf8 "3bhk_unit_plan") rd ;;
    copy_section lang_data (utf8 "4bhk_unit_plan") (utf8 "4bhk_unit_plan") rd
  else ret tt.

Definition lift_lobby (lang_data : val) (zone : str) : M store val :=
  plan <- getitem lang_data (utf8 "ground_floor_plan") ;;
  z <- getitem plan zone ;;
  none <- empty_dict ;;
  get z (utf8 "lift_lobby") none.

Definition elevator_detail_queries (q : str) (lang_data rd : val) : M store unit :=
  if any_in [utf8 "elevator"; utf8 "lift"; utf8 "lifts"] q
  then
    copy_construction_elevator lang_data rd ;;
    present <- has (utf8 "ground_floor_plan") lang_data ;;
    if present
    then
      block_a_lifts <- lift_lobby lang_data (utf8 "block_a_zone") ;;
      block_b_lifts <- lift_lobby lang_data (utf8 "block_b_zone") ;;
      d <- alloc (ODict [(utf8 "block_a", block_a_lifts); (utf8 "block_b", block_b_lifts)]) ;;
      setitem rd (utf8 "elevators_detail") d
    else ret tt
  else ret tt.

Definition minimal_data_fallback (lang_data rd : val) : M store unit :=
  n <- len rd ;;
  if bool_decide (n <= 2)%nat
  then for_each fallback_sections (fun section => copy_section lang_data section section rd)
  else ret tt.

Definition topic_checks (q : str) (lang_data rd : val) : M store unit :=
  facility_and_flat_queries q lang_data rd ;;
  ground_floor_queries q lang_data rd ;;
  unit_configuration_queries q lang_data rd ;;
  room_queries q lang_data rd ;;
  topic [utf8 "elevator"; utf8 "lift"]
    (utf8 "elevator") (utf8 "elevator") q lang_data rd ;;
  topic [utf8 "parking"; utf8 "car park"; utf8 "vehicle"]
    (utf8 "parking") (utf8 "parking") q lang_data rd ;;
  topic [utf8 "structure"; utf8 "flooring"; utf8 "bathroom"; utf8 "kitchen"; utf8 "elevator";
         utf8 "electrical"; utf8 "doors"; utf8 "windows"; utf8 "security"; utf8 "water";
         utf8 "specifications"; utf8 "features"]
    (utf8 "specifications") (utf8 "specifications") q lang_data rd ;;
  elevator_detail_queries q lang_data rd ;;
  topic [utf8 "parking"; utf8 "car park"; utf8 "vehicle"; utf8 "cars"]
    (utf8 "parking") (utf8 "parking") q lang_data rd ;;
  topic [utf8 "structure"; utf8 "flooring"; utf8 "bathroom"; utf8 "kitchen";
         utf8 "electrical"; utf8 "doors"; utf8 "windows"; utf8 "security"; utf8 "water";
         utf8 "specifications"; utf8 "features"]
    (utf8 "construction_specifications") (utf8 "specifications") q lang_data rd ;;
  topic [utf8 "amenity"; utf8 "amenities"; utf8 "facility"; utf8 "gym"; utf8 "pool";
         utf8 "park"; utf8 "club"]
    (utf8 "amenities") (utf8 "amenities") q lang_data rd ;;
  topic [utf8 "location"; utf8 "address"; utf8 "connectivity"; utf8 "metro"; utf8 "nearby";
         utf8 "landmark"]
    (utf8 "location_details") (utf8 "location_details") q lang_data rd ;;
  topic [utf8 "possession"; utf8 "ready"; utf8 "completion"; utf8 "timeline"; utf8 "delivery"]
    (utf8 "possession_details") (utf8 "possession_details") q lang_data rd ;;
  topic [utf8 "developer"; utf8 "shatranj"; utf8 "aarat"; utf8 "group"; utf8 "company";
         utf8 "builder"]
    (utf8 "developer_portfolio") (utf8 "developer_portfolio") q lang_data rd.

Definition language_tree (faq_data : val) (language : str) : M store val :=
  none <- empty_dict ;;
  fallback <- get faq_data english none ;;
  get faq_data language fallback.

(** The reference it returns is [relevant_data]. *)
Definition extract_relevant_data (user_question : str) (faq_data : val) (language : str)
    : M store val :=
  lang_data <- language_tree faq_data language ;;
  relevant_data <- empty_dict ;;
  let user_question_lower := lower user_question in
  copy_section lang_data (utf8 "project_info") (utf8 "project_info") relevant_data ;;
  topic_checks user_question_lower lang_data relevant_data ;;
  minimal_data_fallback lang_data relevant_data ;;
  ret relevant_data.

End Relevance.

(** What a value stands for once the objects it refers to are read: the
    nested value a [json.dumps] of it would print.  The fuel bounds the
    depth, a store may hold cycles. *)
Fixpoint read_back (fuel : nat) (h : list obj) (v : val) : option pyval :=
  match fuel with
  | O => None
  | S fuel' =>
      match v with
      | VNone => Some PNone
      | VBool b => Some (PBool b)
      | VInt z => Some (PInt z)
      | VStr s => Some (PStr s)
      | VRef l =>
          match h !! l with
          | Some (ODict d) =>
              PDict <$> mapM (fun kv => pair (fst kv) <$> read_back fuel' h (snd kv)) d
          | Some (OList xs) => PList <$> mapM (read_back fuel' h) xs
          | None => None
          end
      end
  end.

End Stored.

(** * The terms of the properties

    What the statements below speak of: the relational reading of the
    patterns, the router's checks as the specification lists them, the
    booking steps' validation, sample inputs. *)

Section RegexTerms.
Context `{Unicode}.

Inductive star_steps (p : char -> bool) : cursor -> cursor -> Prop :=
| star_stop c : star_steps p c c
| star_more c x ah' c' :
    ahead c = x :: ah' -> p x = true ->
    star_steps p (Cursor (x :: seen c) ah' (group1 c)) c' ->
    star_steps p c c'.

(** [steps r c c']: the pattern [r] can take the matcher from [c] to [c']. *)
Inductive steps : regex -> cursor -> cursor -> Prop :=
| steps_class p c x ah' :
    ahead c = x :: ah' -> p x = true ->
    steps (RClass p) c (Cursor (x :: seen c) ah' (group1 c))
| steps_empty c : steps REmpty c c
| steps_seq r1 r2 c c1 c2 :
    steps r1 c c1 -> steps r2 c1 c2 -> steps (RSeq r1 r2) c c2
| steps_alt_l r1 r2 c c' : steps r1 c c' -> steps (RAlt r1 r2) c c'
| steps_alt_r r1 r2 c c' : steps r2 c c' -> steps (RAlt r1 r2) c c'
| steps_star p c c' : star_steps p c c' -> steps (RStar p) c c'
| steps_group r c c1 :
    steps r c c1 ->
    steps (RGroup r) c (Cursor (seen c1) (ahead c1) (Some (consumed_since c c1)))
| steps_boundary c : at_word_boundary c = true -> steps RWordBoundary c c.

(** A pattern without a group leaves the capture alone. *)
Fixpoint groupless (r : regex) : bool :=
  match r with
  | RGroup _ => false
  | RSeq r1 r2 | RAlt r1 r2 => groupless r1 && groupless r2
  | _ => true
  end.

End RegexTerms.

Section BudgetTerms.
Context `{Unicode}.

Definition digits (w : str) : Prop := Forall (fun x => is_digit x = true) w.

(** A pattern the loop can handle: its group always holds a plain decimal,
    and its text names one of the two units. *)
Definition names_crore (p : pattern) : bool :=
  contains (utf8 "cr") (pattern_src p) || contains (utf8 "crore") (pattern_src p).
Definition names_lakh (p : pattern) : bool :=
  contains (utf8 "lakh") (pattern_src p).

Definition well_formed (p : pattern) : Prop :=
  (forall text m, re_search (pattern_re p) text = Some m ->
     exists g, captured m = Some g /\ is_Some (decimal_literal g))
  /\ names_crore p || names_lakh p = true.

Definition matches (p : pattern) (text_lower : str) : bool :=
  bool_decide (is_Some (re_search (pattern_re p) text_lower)).

End BudgetTerms.

Section GeminiTerms.
Context `{World} `{Config}.

(** The text a response yields, if it is a successful one: status 200, a
    JSON body, and in it a first candidate with content parts. *)
Definition response_text (r : http_result) : option pyval :=
  match r with
  | Response status_code (Some result) =>
      if (status_code =? 200)%Z
      then match candidate_text result with
           | Ok (Some text) => Some text
           | _ => None
           end
      else None
  | _ => None
  end.

Definition api_key_configured : bool :=
  match GEMINI_API_KEY with
  | Some (_ :: _) => true
  | _ => false
  end.

End GeminiTerms.

Section ModeTerms.
Context `{Unicode} `{World} `{Config}.

(** A step of a turn that cannot put a capture mode where there was none. *)
Definition keeps_mode_none {A} (m : M turn A) : Prop :=
  forall t, lead_capture_mode (state t) = None ->
            lead_capture_mode (state (snd (m t))) = None.

(** No conversation is in a capture mode. *)
Definition no_capture_mode (m : machine) : Prop :=
  forall k s, CONV_STATE m !! k = Some s -> lead_capture_mode s = None.

(** The machines the public entry point can produce. *)
Inductive reachable : machine -> Prop :=
| reachable_start tr : reachable (Machine ∅ tr)
| reachable_call m from_phone message_text message_id :
    reachable m ->
    reachable (snd (process_incoming_message from_phone message_text message_id m)).

End ModeTerms.

(** The checks of the router, in the order of the specification (§4.6,
    checks 2 to 8). *)
Inductive check :=
| AwaitingPhone
| DocumentRequest
| DocumentConfirmation
| HumanHandoff
| BookingForm
| BookingSteps
| DefaultAnswer.

Section RouterTerms.
Context `{Unicode} `{World} `{Config}.

(** The first check that matches, read off the specification's list: the
    awaiting-phone mode, a document keyword, a pending confirmation with an
    affirmative token, a hand-off keyword, a booking keyword, the booking
    mode, and otherwise the default. *)
Definition first_matching_check (s : conv_state) (user_lower : str) : check :=
  if bool_decide (lead_capture_mode s = Some (utf8 "phone_for_brochure")) then AwaitingPhone
  else if any_in brochure_keywords user_lower then DocumentRequest
  else if asked_about_brochure s && any_in affirmative_patterns user_lower
  then DocumentConfirmation
  else if any_in contact_patterns user_lower then HumanHandoff
  else if any_in (booking_keywords_english ++ booking_keywords_gujarati) user_lower
  then BookingForm
  else if bool_decide (lead_capture_mode s = Some (utf8 "booking")) then BookingSteps
  else DefaultAnswer.

(** A pending confirmation that was not answered is dropped on the way to
    the later checks. *)
Definition drop_pending_confirmation : M turn unit :=
  asked <- read asked_about_brochure ;;
  if asked then update (set_asked_about_brochure false) else ret tt.

(** What each check does once it has matched. *)
Definition outcome_of (c : check) (from_phone : pyval) (message_text user_lower : str)
    : M turn pyval :=
  match c with
  | AwaitingPhone => capture_phone_number message_text
  | DocumentRequest => send_requested_brochure from_phone
  | DocumentConfirmation =>
      update (set_asked_about_brochure false) ;; send_confirmed_brochure from_phone
  | HumanHandoff => drop_pending_confirmation ;; say contact_reply
  | BookingForm => drop_pending_confirmation ;; send_booking_form
  | BookingSteps =>
      drop_pending_confirmation ;; booking_step from_phone message_text user_lower
  | DefaultAnswer => drop_pending_confirmation ;; use_gemini message_text
  end.

(** Step 1 of a turn: the detected language and the inbound entry. *)
Definition inbound (message_text : str) (t : turn) : turn :=
  Turn (append_history (PStr message_text, true)
          (set_language (detect_language message_text) (state t)))
       (trace t).

End RouterTerms.

(** A text message as the transport delivers it. *)
Definition text_message (from_phone message_id body : pyval) : pyval :=
  PDict [ (utf8 "from", from_phone); (utf8 "id", message_id);
          (utf8 "type", PStr (utf8 "text"));
          (utf8 "text", PDict [(utf8 "body", body)]) ].


Section DocumentFlowTerms.
Context `{Unicode} `{World} `{Config}.

(** The transport took the request: it answered, with status 200. *)
Definition accepted (r : http_result) : bool :=
  match r with
  | Response status_code _ => (status_code =? 200)%Z
  | Failed => false
  end.

End DocumentFlowTerms.

Section BookingTerms.
Context `{Unicode} `{World} `{Config}.



(** The state a booking step finds: the inbound entry is in, and a pending
    confirmation is dropped. *)
Definition ready (message_text : str) (s : conv_state) : conv_state :=
  let s' := append_history (PStr message_text, true)
              (set_language (detect_language message_text) s) in
  if asked_about_brochure s then set_asked_about_brochure false s' else s'.



End BookingTerms.

(** The fields of the draft, in the order they are asked. *)
Inductive field := Name | ConfirmPhone | Date | Time | UnitType | Budget.


Section BookingSequenceTerms.
Context `{Unicode} `{World} `{Config}.





End BookingSequenceTerms.






(** A row of the ledger as [get_all_records] gives it. *)
Definition ledger_row (phone name status : string) : pyval :=
  PDict [ (utf8 "Phone", PStr (utf8 phone)); (utf8 "Name", PStr (utf8 name));
          (utf8 "Preferred Date", PStr (utf8 "05/11/2025"));
          (utf8 "Preferred Time", PStr (utf8 "10:00 AM"));
          (utf8 "Unit Type", PStr (utf8 "3 BHK")); (utf8 "Budget", PStr (utf8 "1.5 Cr"));
          (utf8 "Status", PStr (utf8 status)) ].

Definition ledger (rows : list pyval) : Sheets :=
  {| google_creds := true;
     get_all_records := Some rows;
     find_status_col := Some 7%Z;
     update_cell_ok := fun _ _ _ _ => true |}.

(** A world that accepts text messages to one number only. *)
Definition reaches_only (phone : string) : World :=
  {| requests_post := fun _ r =>
       match r with
       | SendText (PStr to_phone) _ =>
           if str_eqb to_phone (utf8 phone) then Response 200 None else Failed
       | _ => Failed
       end |}.

Section RelevanceTerms.
Context `{Unicode}.

Definition identity : str := utf8 "project_info".

(** The sections of a list that the tree holds, merged in. *)
Definition merged (sections : list str) (lang_data : pyval) (rd : gmap str pyval)
    : gmap str pyval :=
  foldl (fun acc section =>
           match py_getitem lang_data section with
           | Ok v => <[section := v]> acc
           | Raise _ => acc
           end) rd sections.

End RelevanceTerms.

Section FrameTerms.
Context `{Unicode}.
Import Stored.

(** A step that leaves every object of [base] as it is: the store still
    begins with [base] afterwards. *)
Definition spares (base : list obj) {A} (m : M (list obj) A) : Prop :=
  forall h, base `prefix_of` h -> base `prefix_of` (snd (m h)).

End FrameTerms.

(** A small knowledge base: who builds what, the prices, the amenities. *)
Definition sample_tree : pyval :=
  PDict [ (utf8 "project_info", PDict [(utf8 "name", PStr (utf8 "Brookstone"))]);
          (utf8 "pricing", PDict [(utf8 "box_price_2650", PStr (utf8 "2.45 Cr"))]);
          (utf8 "amenities", PList [PStr (utf8 "Gym"); PStr (utf8 "Library")]) ].

Definition sample_faq_data : pyval :=
  PDict [(english, sample_tree); (gujarati, PDict [])].

(** The two readings of [extract_relevant_data] on one question about the
    sample: the result on nested values, and the result on a store in which
    the sample was allocated, read back. *)
Definition on_values (user_question : str) : option (gmap str pyval) :=
  match @extract_relevant_data ascii_only user_question sample_faq_data english with
  | Ok relevant_data => Some relevant_data
  | Raise _ => None
  end.

Definition on_store (user_question : str) : option (gmap str pyval) :=
  match bind (Stored.literal sample_faq_data)
             (fun faq_data =>
                @Stored.extract_relevant_data ascii_only user_question faq_data english) []
  with
  | (Ok relevant_data, h) =>
      match Stored.read_back 4 h relevant_data with
      | Some (PDict items) => Some (list_to_map items)
      | _ => None
      end
  | (Raise _, _) => None
  end.

(** A knowledge base whose ground floor plan has a summary and no zones. *)
Definition zoneless_tree : pyval :=
  PDict [ (utf8 "project_info", PDict [(utf8 "name", PStr (utf8 "Brookstone"))]);
          (utf8 "ground_floor_plan",
           PDict [(utf8 "summary", PStr (utf8 "Two blocks around a court"))]) ].

Definition zoneless_faq_data : pyval := PDict [(english, zoneless_tree)].

(** ** The terms of the further properties *)

(** The characters of a text that lie in the Gujarati block. *)
Definition gujarati_chars (text : str) : nat :=
  length (filter (fun c => Is_true ((2688 <=? c) && (c <=? 2815))) text).

Section HistoryTerms.
Context `{Unicode} `{World} `{Config}.

(** A step that leaves the chat history as it is. *)
Definition silent {A} (m : M turn A) : Prop :=
  forall t, chat_history (state (snd (m t))) = chat_history (state t).

(** A step that ends a turn with a reply of its own: what it returns,
    [None] included, it has appended as the bot's entry; when it raises it
    has appended nothing. *)
Definition replies (m : M turn pyval) : Prop :=
  forall t,
    match m t with
    | (Ok reply, t') =>
        chat_history (state t') = chat_history (state t) ++ [(reply, false)]
    | (Raise _, t') => chat_history (state t') = chat_history (state t)
    end.

(** A step that ends a turn with a document: it returns [None] and has
    appended nothing, or it returns something else, which it has appended
    as the bot's entry; when it raises it has appended nothing. *)
Definition delivers (m : M turn pyval) : Prop :=
  forall t,
    match m t with
    | (Ok reply, t') =>
        (reply = PNone /\ chat_history (state t') = chat_history (state t))
        \/ (reply <> PNone
            /\ chat_history (state t') = chat_history (state t) ++ [(reply, false)])
    | (Raise _, t') => chat_history (state t') = chat_history (state t)
    end.

End HistoryTerms.

(** The checks that send the brochure. *)
Definition document_check (c : check) : bool :=
  match c with
  | AwaitingPhone | DocumentRequest | DocumentConfirmation => true
  | _ => false
  end.

(** A world where Gemini answers with status 200 and a first part whose
    text is [null], and every other request fails. *)
Definition null_text_world : World :=
  {| requests_post := fun _ r =>
       match r with
       | GenerateContent _ =>
           Response 200
             (Some (PDict [(utf8 "candidates",
                            PList [PDict [(utf8 "content",
                                           PDict [(utf8 "parts",
                                                   PList [PDict [(utf8 "text", PNone)]])])]])]))
       | _ => Failed
       end |}.

Section TurnFrameTerms.
Context `{Unicode} `{World} `{Config}.

(** A step under which a property of the sender's state persists. *)
Definition keeps (I : conv_state -> Prop) {A} (m : M turn A) : Prop :=
  forall t, I (state t) -> I (state (snd (m t))).

(** Outside a capture mode, with these contact details and this draft. *)
Definition settled (phone : pyval) (draft : booking) (lang : str) (s : conv_state) : Prop :=
  lead_capture_mode s = None /\ user_phone s = phone
  /\ booking_info s = draft /\ language s = lang.

(** Outside a capture mode, with no document confirmation pending. *)
Definition nothing_pending (s : conv_state) : Prop :=
  lead_capture_mode s = None /\ asked_about_brochure s = false.

(** The conversations of a process: none in a capture mode, every draft
    empty, every recorded phone the sender's own. *)
Definition untouched_drafts (m : machine) : Prop :=
  forall k s, CONV_STATE m !! k = Some s ->
    lead_capture_mode s = None /\ booking_info s = empty_booking
    /\ hash_key (user_phone s) = Ok k.

End TurnFrameTerms.

(** The events a turn itself causes: the document, the Gemini request and
    the pause before the retry. *)
Definition turn_event (e : event) : bool :=
  match e with
  | Post (SendDocument _ _) => true
  | Post (GenerateContent _) => true
  | Sleep _ => true
  | _ => false
  end.

Section EventTerms.
Context `{Unicode} `{World} `{Config}.

(** A call to the world that only adds events of a turn to the log. *)
Definition calls {A} (m : IO A) : Prop :=
  forall tr, exists new, snd (m tr) = tr ++ new /\ forallb turn_event new = true.

(** A step of a turn that only adds events of a turn to the log. *)
Definition emits {A} (m : M turn A) : Prop :=
  forall t, exists new, trace (snd (m t)) = trace t ++ new /\ forallb turn_event new = true.

End EventTerms.

(** A button press and the two kinds of interactive reply, as the
    transport delivers them. *)
Definition button_message (from_phone message_id text : pyval) : pyval :=
  PDict [ (utf8 "from", from_phone); (utf8 "id", message_id);
          (utf8 "type", PStr (utf8 "button"));
          (utf8 "button", PDict [(utf8 "payload", text); (utf8 "text", text)]) ].

Definition list_reply_message (from_phone message_id row_id title : pyval) : pyval :=
  PDict [ (utf8 "from", from_phone); (utf8 "id", message_id);
          (utf8 "type", PStr (utf8 "interactive"));
          (utf8 "interactive",
           PDict [ (utf8 "type", PStr (utf8 "list_reply"));
                   (utf8 "list_reply", PDict [(utf8 "id", row_id); (utf8 "title", title)]) ]) ].

(** A message of a type the webhook does not read. *)
Definition image_message (from_phone message_id media_id : pyval) : pyval :=
  PDict [ (utf8 "from", from_phone); (utf8 "id", message_id);
          (utf8 "type", PStr (utf8 "image"));
          (utf8 "image", PDict [(utf8 "id", media_id)]) ].

(** The type of a message is none of those the webhook reads. *)
Definition unread_type (message : pyval) : Prop :=
  exists fields,
    message = PDict fields
    /\ let msg_type := default PNone (dict_lookup (utf8 "type") fields) in
       py_eq_str msg_type (utf8 "text") = false
       /\ py_eq_str msg_type (utf8 "button") = false
       /\ py_eq_str msg_type (utf8 "interactive") = false.

(** The cell of a record under a column name, as [record.get(name)]. *)
Definition cell (fields : list (str * pyval)) (name : string) : pyval :=
  default PNone (dict_lookup (utf8 name) fields).

(** A row that already has a status. *)
Definition has_status (record : pyval) : Prop :=
  exists fields, record = PDict fields /\ truthy (cell fields "Status") = true.

(** A new row that lacks its phone, name, date or time. *)
Definition incomplete (record : pyval) : Prop :=
  exists fields phone,
    record = PDict fields
    /\ truthy (cell fields "Status") = false
    /\ format_phone (cell fields "Phone") = Ok phone
    /\ truthy phone && truthy (cell fields "Name")
       && truthy (cell fields "Preferred Date")
       && truthy (cell fields "Preferred Time") = false.

Definition passed_over (record : pyval) : Prop := has_status record \/ incomplete record.

(** The events of a poll: a confirmation and a status write. *)
Definition ledger_event (e : event) : bool :=
  match e with
  | Post (SendText _ _) => true
  | UpdateCell _ _ _ => true
  | _ => false
  end.

Definition five_minutes (e : event) : bool :=
  match e with
  | Sleep seconds => (seconds =? 300)%Z
  | _ => false
  end.

(** A step of a poll that only adds events of a poll to the log. *)
Definition records_only `{World} `{Sheets} {A} (m : M poll A) : Prop :=
  forall p, exists new,
    poll_trace (snd (m p)) = poll_trace p ++ new /\ forallb ledger_event new = true.

(** A ledger row whose phone cell holds a number, as a cell of digits is
    read. *)
Definition numeric_row (phone : Z) (name : string) : pyval :=
  PDict [ (utf8 "Phone", PInt phone); (utf8 "Name", PStr (utf8 name));
          (utf8 "Preferred Date", PStr (utf8 "05/11/2025"));
          (utf8 "Preferred Time", PStr (utf8 "10:00 AM"));
          (utf8 "Unit Type", PStr (utf8 "3 BHK")); (utf8 "Budget", PStr (utf8 "1.5 Cr"));
          (utf8 "Status", PStr []) ].

(** What the formatting keeps of a phone: the ASCII digits and the plus
    sign. *)
Definition phone_char (c : char) : bool :=
  ((48 <=? c) && (c <=? 57)) || (c =? 43).

(** The names under which [extract_relevant_data] stores what it takes
    from the knowledge base or builds from it. *)
Definition copied_names : list str :=
  [ utf8 "project_info"; utf8 "unit_plan"; utf8 "pricing"; utf8 "parking";
    utf8 "ground_floor_plan"; utf8 "elevator"; utf8 "ground_floor_summary";
    utf8 "ground_floor_overview"; utf8 "unit_details"; utf8 "3bhk_details";
    utf8 "4bhk_details"; utf8 "3bhk_unit_plan"; utf8 "4bhk_unit_plan";
    utf8 "specifications"; utf8 "elevators_detail"; utf8 "amenities";
    utf8 "location_details"; utf8 "possession_details"; utf8 "developer_portfolio";
    utf8 "unit_configurations" ].

(** The names under which it stores the zone details written in the
    code. *)
Definition zone_names : list str :=
  [utf8 "block_a_zone"; utf8 "block_b_zone"; utf8 "central_amenities"].

Definition is_name (names : list str) (k : str) : bool := existsb (str_eqb k) names.

(** Every entry of a result is one that [allowed] admits. *)
Definition within (allowed : str -> pyval -> Prop) (rd : gmap str pyval) : Prop :=
  forall k v, rd !! k = Some v -> allowed k v.

(** An entry under a zone name holds the zone details of the code. *)
Definition zone_constant (k : str) (v : pyval) : Prop :=
  (k = utf8 "block_a_zone" -> v = block_a_zone_details)
  /\ (k = utf8 "block_b_zone" -> v = block_b_zone_details)
  /\ (k = utf8 "central_amenities" -> v = central_amenities_details).

(** A knowledge base that says something of its own about Block A. *)
Definition zoned_faq_data : pyval :=
  PDict [ (english,
           PDict [ (utf8 "ground_floor_plan",
                    PDict [ (utf8 "summary", PStr (utf8 "Two blocks around a court"));
                            (utf8 "block_a_zone",
                             PDict [(utf8 "foyer", PStr (utf8 "Being redesigned"))]) ]) ]) ].

(** The last entries of a history that go into a prompt. *)
Definition recent_history (chat_history : list (pyval * bool)) : list (pyval * bool) :=
  if bool_decide (4 < length chat_history)%nat
  then drop (length chat_history - 4) chat_history
  else chat_history.

Section PatternTerms.
Context `{Unicode}.

(** A text that begins like a date: one or two digits, a slash or a
    hyphen, one or two digits, a slash or a hyphen, four digits; anything
    may follow. *)
Definition date_shaped (text : str) : Prop :=
  exists day month year s1 s2 rest,
    text = day ++ s1 :: month ++ s2 :: year ++ rest
    /\ digits day /\ (1 <= length day <= 2)%nat
    /\ digits month /\ (1 <= length month <= 2)%nat
    /\ digits year /\ length year = 4%nat
    /\ (s1 = 47 \/ s1 = 45) /\ (s2 = 47 \/ s2 = 45).

(** What a match of the phone pattern looks like: optionally [+91] and
    one space or hyphen, then a digit 6 to 9 and nine digits. *)
Definition phone_shaped (w : str) : Prop :=
  exists prefix first rest,
    w = prefix ++ first :: rest
    /\ (prefix = [] \/ prefix = utf8 "+91"
        \/ exists sep, prefix = utf8 "+91" ++ [sep] /\ (is_space sep = true \/ sep = 45))
    /\ 54 <= first <= 57
    /\ digits rest /\ length rest = 9%nat.

End PatternTerms.

Section FailureTerms.
Context `{Unicode} `{World} `{Config}.

(** A step of a turn that always returns. *)
Definition never_raises {A} (m : M turn A) : Prop :=
  forall t, exists a t', m t = (Ok a, t').

End FailureTerms.

(** A configuration whose English FAQ lists a unit without its type. *)
Definition untyped_units_config : Config :=
  {| GEMINI_API_KEY := Some (utf8 "key");
     BROCHURE_MEDIA_ID := utf8 "1562506805130847";
     faq_data_english :=
       Some (PDict [ (utf8 "unit_configurations",
                      PList [PDict [(utf8 "size_sqft", PStr (utf8 "2650"))]]) ]);
     faq_data_gujarati := None |}.

(** * Properties *)

(** ** The matcher against a relational reading of the patterns *)

Section RegexFacts.
Context `{Unicode}.

Lemma re_star_sound {A} p (k : cursor -> option A) ah :
  forall sn g a,
    re_star p sn ah g k = Some a ->
    exists c', star_steps p (Cursor sn ah g) c' /\ k c' = Some a.
Proof.
  induction ah as [|x ah IH]; intros sn g a Hrun; simpl in Hrun.
  - exists (Cursor sn [] g). split; [constructor | assumption].
  - destruct (p x) eqn:Hp.
    + destruct (re_star p (x :: sn) ah g k) as [a'|] eqn:Hrec.
      * injection Hrun as ->.
        destruct (IH _ _ _ Hrec) as (c' & Hs & Hk).
        exists c'. split; [|assumption].
        eapply star_more; [reflexivity | exact Hp | exact Hs].
      * exists (Cursor sn (x :: ah) g). split; [constructor | assumption].
    + exists (Cursor sn (x :: ah) g). split; [constructor | assumption].
Qed.

Lemma re_run_sound {A} r :
  forall c (k : cursor -> option A) a,
    re_run r c k = Some a -> exists c', steps r c c' /\ k c' = Some a.
Proof.
  induction r as [p| |r1 IH1 r2 IH2|r1 IH1 r2 IH2|p|r IH|]; intros c k a Hrun; simpl in Hrun.
  - destruct (ahead c) as [|x ah'] eqn:Hah; [discriminate|].
    destruct (p x) eqn:Hp; [|discriminate].
    eexists. split; [|exact Hrun]. by apply steps_class.
  - exists c. split; [constructor | assumption].
  - destruct (IH1 _ _ _ Hrun) as (c1 & Hs1 & Hk1).
    destruct (IH2 _ _ _ Hk1) as (c2 & Hs2 & Hk2).
    exists c2. split; [|assumption]. by eapply steps_seq.
  - destruct (re_run r1 c k) as [a'|] eqn:Hleft.
    + injection Hrun as ->.
      destruct (IH1 _ _ _ Hleft) as (c' & Hs & Hk).
      exists c'. split; [|assumption]. by apply steps_alt_l.
    + destruct (IH2 _ _ _ Hrun) as (c' & Hs & Hk).
      exists c'. split; [|assumption]. by apply steps_alt_r.
  - destruct c as [sn ah g]; simpl in Hrun.
    destruct (re_star_sound _ _ _ _ _ _ Hrun) as (c' & Hs & Hk).
    exists c'. split; [|assumption]. by apply steps_star.
  - destruct (IH _ _ _ Hrun) as (c1 & Hs & Hk).
    eexists. split; [|exact Hk]. by apply steps_group.
  - destruct (at_word_boundary c) eqn:Hb; [|discriminate].
    exists c. split; [|assumption]. by apply steps_boundary.
Qed.

Lemma steps_class_inv p c c' :
  steps (RClass p) c c' ->
  exists x ah', ahead c = x :: ah' /\ p x = true /\ c' = Cursor (x :: seen c) ah' (group1 c).
Proof. inversion 1; subst; eauto. Qed.

Lemma steps_empty_inv c c' : steps REmpty c c' -> c' = c.
Proof. inversion 1; subst; reflexivity. Qed.

Lemma steps_seq_inv r1 r2 c c2 :
  steps (RSeq r1 r2) c c2 -> exists c1, steps r1 c c1 /\ steps r2 c1 c2.
Proof. inversion 1; subst; eauto. Qed.

Lemma steps_alt_inv r1 r2 c c' :
  steps (RAlt r1 r2) c c' -> steps r1 c c' \/ steps r2 c c'.
Proof. inversion 1; subst; auto. Qed.

Lemma steps_star_inv p c c' : steps (RStar p) c c' -> star_steps p c c'.
Proof. inversion 1; subst; assumption. Qed.

Lemma steps_group_inv r c c' :
  steps (RGroup r) c c' ->
  exists c1, steps r c c1
             /\ c' = Cursor (seen c1) (ahead c1) (Some (consumed_since c c1)).
Proof. inversion 1; subst; eauto. Qed.

Lemma star_steps_group p c c' : star_steps p c c' -> group1 c' = group1 c.
Proof. induction 1; [reflexivity | assumption]. Qed.

Lemma groupless_keeps r c c' :
  steps r c c' -> groupless r = true -> group1 c' = group1 c.
Proof.
  induction 1 as [p c x ah' _ _| |r1 r2 c c1 c2 _ IH1 _ IH2|r1 r2 c c' _ IH|r1 r2 c c' _ IH
                 |p c c' Hs|r c c1 _ _|]; simpl; intros Hg; try reflexivity.
  - apply andb_prop in Hg as [Hg1 Hg2]. rewrite IH2, IH1; auto.
  - apply andb_prop in Hg as [Hg1 Hg2]. auto.
  - apply andb_prop in Hg as [Hg1 Hg2]. auto.
  - eapply star_steps_group; eassumption.
  - discriminate.
Qed.

(** What a repetition consumes. *)
Lemma star_steps_consumes p c c' :
  star_steps p c c' ->
  exists w, Forall (fun x => p x = true) w
            /\ seen c' = rev w ++ seen c /\ ahead c = w ++ ahead c'.
Proof.
  induction 1 as [c|c x ah' c' Hah Hp _ (w & Hw & Hseen & Hahead)].
  - exists []. auto.
  - exists (x :: w). simpl in *. split; [by constructor|].
    split.
    + rewrite Hseen, <- app_assoc. reflexivity.
    + rewrite Hah, Hahead. reflexivity.
Qed.

Lemma re_search_from_at r ah :
  forall sn m, re_search_from r sn ah = Some m ->
    exists sn' ah', re_at r (Cursor sn' ah' None) = Some m.
Proof.
  induction ah as [|x ah IH]; intros sn m Hs; simpl in Hs.
  - destruct (re_at r (Cursor sn [] None)) eqn:Hat; [|discriminate].
    injection Hs as ->. eauto.
  - destruct (re_at r (Cursor sn (x :: ah) None)) eqn:Hat.
    + injection Hs as ->. eauto.
    + eauto.
Qed.

(** A match is a run of the pattern, and its [group(1)] is the capture
    the run ends with. *)
Lemma re_search_steps r text m :
  re_search r text = Some m ->
  exists c c', steps r c c' /\ group1 c = None /\ captured m = group1 c'.
Proof.
  intros Hs. apply re_search_from_at in Hs as (sn & ah & Hat).
  unfold re_at in Hat. apply re_run_sound in Hat as (c' & Hsteps & Hk).
  injection Hk as <-. exists (Cursor sn ah None), c'. auto.
Qed.

End RegexFacts.

(** ** Budget extraction *)

Section BudgetFacts.
Context `{Unicode}.

Lemma consumed_since_app c c' w :
  seen c' = rev w ++ seen c -> consumed_since c c' = w.
Proof.
  intros Hseen. unfold consumed_since. rewrite Hseen.
  rewrite length_app, length_rev.
  replace (length w + length (seen c) - length (seen c))%nat with (length (rev w))
    by (rewrite length_rev; lia).
  rewrite take_app_length. apply rev_involutive.
Qed.

Lemma digit_is_not_dot x : is_digit x = true -> (x =? dot) = false.
Proof.
  intros Hd. destruct (x =? dot) eqn:Heq; [|reflexivity].
  apply N.eqb_eq in Heq. subst x. vm_compute in Hd. discriminate.
Qed.

Lemma digit_values_digits w : digits w -> is_Some (digit_values w).
Proof.
  induction 1 as [|x w Hx _ [ds IH]]; simpl; [by eexists|].
  unfold is_digit in Hx. destruct (decimal_value x); [|discriminate].
  rewrite IH. by eexists.
Qed.

Lemma split_at_dot_digits w : digits w -> split_at_dot w = (w, None).
Proof.
  induction 1 as [|x w Hx _ IH]; simpl; [reflexivity|].
  rewrite (digit_is_not_dot _ Hx), IH. reflexivity.
Qed.

Lemma split_at_dot_point w f : digits w -> split_at_dot (w ++ dot :: f) = (w, Some f).
Proof.
  induction 1 as [|x w Hx _ IH]; simpl; [reflexivity|].
  rewrite (digit_is_not_dot _ Hx), IH. reflexivity.
Qed.

(** Digits, then optionally a point and digits, is what [float] reads as
    a plain decimal. *)
Lemma decimal_literal_plain x ds fs :
  is_digit x = true -> digits ds -> digits fs ->
  is_Some (decimal_literal (x :: ds ++ fs)).
Proof.
  intros Hx Hds Hfs.
  assert (Hall : digits (x :: ds ++ fs)).
  { constructor; [assumption|]. by apply Forall_app. }
  unfold decimal_literal. rewrite (split_at_dot_digits _ Hall).
  destruct (digit_values_digits _ Hall) as [vs Hvs]. rewrite Hvs. by eexists.
Qed.

Lemma decimal_literal_point x ds fs :
  is_digit x = true -> digits ds -> digits fs ->
  is_Some (decimal_literal (x :: ds ++ dot :: fs)).
Proof.
  intros Hx Hds Hfs.
  assert (Hint : digits (x :: ds)) by (by constructor).
  unfold decimal_literal.
  change (x :: ds ++ dot :: fs) with ((x :: ds) ++ dot :: fs).
  rewrite (split_at_dot_point _ _ Hint).
  destruct (digit_values_digits _ Hint) as [vs Hvs]. rewrite Hvs.
  destruct (digit_values_digits _ Hfs) as [ws Hws]. simpl. rewrite Hws. by eexists.
Qed.

(** The group of every budget pattern captures a plain decimal. *)
Lemma amount_group_capture c c' :
  steps amount_group c c' ->
  exists g, group1 c' = Some g /\ is_Some (decimal_literal g).
Proof.
  unfold amount_group, RPlus, ROpt, RChar. intros Hs.
  apply steps_group_inv in Hs as (cd & Hin & ->).
  eexists. split; [reflexivity|].
  apply steps_seq_inv in Hin as (ca & Hplus & Hrest).
  apply steps_seq_inv in Hplus as (cx & Hfirst & Hstar).
  apply steps_class_inv in Hfirst as (x & ah' & _ & Hx & ->).
  apply steps_star_inv, star_steps_consumes in Hstar as (ds & Hds & Hseen_a & _).
  simpl in Hseen_a.
  apply steps_seq_inv in Hrest as (cb & Hopt & Hfrac).
  apply steps_star_inv, star_steps_consumes in Hfrac as (fs & Hfs & Hseen_d & _).
  apply steps_alt_inv in Hopt as [Hdot|Hnone].
  - apply steps_class_inv in Hdot as (y & ah'' & _ & Hy & ->).
    apply N.eqb_eq in Hy. subst y. simpl in Hseen_d.
    rewrite (consumed_since_app c cd (x :: ds ++ dot :: fs)).
    + by apply decimal_literal_point.
    + rewrite Hseen_d, Hseen_a. simpl.
      rewrite !rev_app_distr. simpl. rewrite <- !app_assoc. reflexivity.
  - apply steps_empty_inv in Hnone as ->.
    rewrite (consumed_since_app c cd (x :: ds ++ fs)).
    + by apply decimal_literal_plain.
    + rewrite Hseen_d, Hseen_a. simpl.
      rewrite !rev_app_distr. rewrite <- !app_assoc. reflexivity.
Qed.

Lemma amount_then_capture unit c c' :
  groupless unit = true ->
  steps (amount_then unit) c c' ->
  exists g, group1 c' = Some g /\ is_Some (decimal_literal g).
Proof.
  intros Hunit Hs. unfold amount_then in Hs.
  apply steps_seq_inv in Hs as (c1 & Hgroup & Hrest).
  apply amount_group_capture in Hgroup as (g & Hg & Hlit).
  exists g. split; [|assumption].
  rewrite <- Hg. eapply groupless_keeps; [exact Hrest|].
  simpl. exact Hunit.
Qed.

Lemma rupee_then_capture unit c c' :
  groupless unit = true ->
  steps (rupee_then unit) c c' ->
  exists g, group1 c' = Some g /\ is_Some (decimal_literal g).
Proof.
  intros Hunit Hs. unfold rupee_then in Hs.
  apply steps_seq_inv in Hs as (c1 & _ & Hrest).
  apply steps_seq_inv in Hrest as (c2 & _ & Hamount).
  by eapply amount_then_capture.
Qed.

Lemma capture_of_steps r :
  (forall c c', steps r c c' -> exists g, group1 c' = Some g /\ is_Some (decimal_literal g)) ->
  forall text m, re_search r text = Some m ->
    exists g, captured m = Some g /\ is_Some (decimal_literal g).
Proof.
  intros Hr text m Hs.
  apply re_search_steps in Hs as (c & c' & Hsteps & _ & Hcap).
  rewrite Hcap. by eapply Hr.
Qed.

Lemma budget_patterns_well_formed : Forall well_formed budget_patterns.
Proof.
  repeat constructor; simpl; try (vm_compute; reflexivity);
    apply capture_of_steps; intros c c';
    (apply amount_then_capture || apply rupee_then_capture); vm_compute; reflexivity.
Qed.

Lemma budget_loop_spec patterns text_lower :
  Forall well_formed patterns ->
  if existsb (fun p => matches p text_lower) patterns
  then exists amount,
      budget_loop patterns text_lower = Ok (Some (amount ++ utf8 " Cr"))
      \/ budget_loop patterns text_lower = Ok (Some (amount ++ utf8 " Lakh"))
  else budget_loop patterns text_lower = Ok None.
Proof.
  induction 1 as [|p ps [Hcap Hname] _ IH]; simpl; [reflexivity|].
  unfold matches at 1.
  destruct (re_search (pattern_re p) text_lower) as [m|] eqn:Hm.
  - rewrite bool_decide_eq_true_2 by (by eexists). simpl.
    destruct (Hcap _ _ Hm) as (g & -> & [[i f] Hlit]).
    unfold float_str. rewrite Hlit.
    unfold names_crore, names_lakh in Hname.
    destruct (contains (utf8 "cr") (pattern_src p) || contains (utf8 "crore") (pattern_src p)).
    + eexists. left. reflexivity.
    + simpl in Hname. rewrite Hname. eexists. right. reflexivity.
  - rewrite bool_decide_eq_false_2 by (intros [? ?]; discriminate). simpl. exact IH.
Qed.

End BudgetFacts.

(** C7. For every text, under any tables of the runtime:
    [extract_budget_from_text] never raises; when one of the four currency
    patterns matches the lower-cased text, the result is a string ending in
    [" Cr"] or [" Lakh"] (the first matching pattern decides, and the
    conversion of its captured group by [float] cannot fail); when none
    matches, the result is [None]; and the two scenario inputs yield
    ["1.5 Cr"] and ["150.0 Lakh"]. *)
Theorem extract_budget_from_text_result `{Unicode} (text : str) :
  (forall e, extract_budget_from_text text <> Raise e)
  /\ (if existsb (fun p => matches p (lower text)) budget_patterns
      then exists amount,
          extract_budget_from_text text = Ok (Some (amount ++ utf8 " Cr"))
          \/ extract_budget_from_text text = Ok (Some (amount ++ utf8 " Lakh"))
      else extract_budget_from_text text = Ok None)
  /\ extract_budget_from_text (utf8 "around 1.5 cr for a flat") = Ok (Some (utf8 "1.5 Cr"))
  /\ extract_budget_from_text (utf8 "150 lakhs works") = Ok (Some (utf8 "150.0 Lakh")).
Proof.
  pose proof (budget_loop_spec budget_patterns (lower text) budget_patterns_well_formed)
    as Hspec.
  unfold extract_budget_from_text.
  split; [|split; [|split]].
  - intros e He.
    destruct (existsb _ budget_patterns).
    + destruct Hspec as (amount & [Hr|Hr]); rewrite Hr in He; discriminate.
    + rewrite Hspec in He. discriminate.
  - exact Hspec.
  - vm_compute. reflexivity.
  - vm_compute. reflexivity.
Qed.

(** ** The Gemini call *)

Section GeminiFacts.
Context `{World} `{Config}.

(** One guarded attempt: it posts once, after a sleep of two seconds
    unless it is the first, and never lets an exception out. *)
Lemma try_gemini_attempt attempt p tr :
  let before := if bool_decide (0 < attempt)%nat then tr ++ [Sleep 2] else tr in
  exists r,
    try (gemini_attempt attempt p) tr = (Ok r, before ++ [Post (GenerateContent p)])
    /\ match r with
       | Ok (Some text) => response_text (requests_post before (GenerateContent p)) = Some text
       | _ => response_text (requests_post before (GenerateContent p)) = None
       end.
Proof.
  unfold try, gemini_attempt, bind, post, sleep, ret, raise, eval. simpl.
  destruct (bool_decide (0 < attempt)%nat); simpl;
    (destruct (requests_post _ (GenerateContent p)) as [|status [result|]]; simpl;
     [ eexists; split; [reflexivity | reflexivity]
     | destruct (status =? 200)%Z; simpl;
       [ destruct (candidate_text result) as [[text|]|e];
         eexists; (split; [reflexivity | reflexivity])
       | eexists; split; [reflexivity | reflexivity] ]
     | destruct (status =? 200)%Z; eexists; (split; [reflexivity | reflexivity]) ]).
Qed.

(** The closed form of [call_gemini_api]. *)
Lemma call_gemini_api_unfolded p language tr :
  let g := GenerateContent p in
  call_gemini_api p language tr =
  if api_key_configured
  then match response_text (requests_post tr g) with
       | Some text => (Ok text, tr ++ [Post g])
       | None =>
           match response_text (requests_post (tr ++ [Post g; Sleep 2]) g) with
           | Some text => (Ok text, tr ++ [Post g; Sleep 2; Post g])
           | None => (Ok (PStr gemini_apology), tr ++ [Post g; Sleep 2; Post g])
           end
       end
  else (Ok (PStr gemini_key_warning), tr).
Proof.
  intros g. unfold call_gemini_api, api_key_configured.
  destruct GEMINI_API_KEY as [[|c key]|]; try reflexivity.
  change (seq 0 2) with [0%nat; 1%nat]. cbn [gemini_attempts].
  unfold bind at 1.
  destruct (try_gemini_attempt 0 p tr) as (r1 & Hrun1 & Hr1).
  change (bool_decide (0 < 0)%nat) with false in Hrun1, Hr1.
  cbv beta iota zeta in Hrun1, Hr1. rewrite Hrun1. fold g in Hr1 |- *.
  destruct (try_gemini_attempt 1 p (tr ++ [Post g])) as (r2 & Hrun2 & Hr2).
  change (bool_decide (0 < 1)%nat) with true in Hrun2, Hr2.
  cbv beta iota zeta in Hrun2, Hr2. fold g in Hrun2, Hr2.
  rewrite <- !app_assoc in Hrun2, Hr2. simpl in Hrun2, Hr2.
  destruct r1 as [[text|]|e]; rewrite Hr1; try reflexivity.
  - unfold bind at 1. rewrite Hrun2.
    destruct r2 as [[text|]|e]; rewrite Hr2; unfold ret;
      rewrite <- app_assoc; reflexivity.
  - unfold bind at 1. rewrite Hrun2.
    destruct r2 as [[text|]|e']; rewrite Hr2; unfold ret;
      rewrite <- app_assoc; reflexivity.
Qed.

End GeminiFacts.

(** C6. [call_gemini_api] never raises; it posts the prompt at most twice,
    the second time only after the first attempt gave no text, and sleeps
    exactly once, two seconds, between the two posts; when the API key is
    configured and neither response is a successful one it returns exactly
    the apology, which names +91 1234567890.  (Without an API key it posts
    nothing and returns the configuration notice.) *)
Theorem call_gemini_api_retries_once `{World} `{Config}
    (p : prompt) (language : str) (tr : list event) :
  let g := GenerateContent p in
  let first := requests_post tr g in
  let second := requests_post (tr ++ [Post g; Sleep 2]) g in
  exists answer new,
    call_gemini_api p language tr = (Ok answer, tr ++ new)
    /\ (new = [] \/ new = [Post g] \/ new = [Post g; Sleep 2; Post g])
    /\ (new = [Post g; Sleep 2; Post g] -> response_text first = None)
    /\ (api_key_configured = false -> new = [] /\ answer = PStr gemini_key_warning)
    /\ (api_key_configured = true ->
        response_text first = None -> response_text second = None ->
        new = [Post g; Sleep 2; Post g] /\ answer = PStr gemini_apology)
    /\ contains (utf8 "+91 1234567890") gemini_apology = true.
Proof.
  intros g first second. rewrite call_gemini_api_unfolded. fold g first second.
  assert (Hphone : contains (utf8 "+91 1234567890") gemini_apology = true)
    by (vm_compute; reflexivity).
  destruct api_key_configured.
  - destruct (response_text first) as [text1|] eqn:H1.
    + exists text1, [Post g].
      split; [reflexivity|]. split; [auto|]. split; [discriminate|].
      split; [discriminate|]. split; [discriminate|]. exact Hphone.
    + destruct (response_text second) as [text2|] eqn:H2.
      * exists text2, [Post g; Sleep 2; Post g].
        split; [reflexivity|]. split; [auto|]. split; [reflexivity|].
        split; [discriminate|]. split; [discriminate|]. exact Hphone.
      * exists (PStr gemini_apology), [Post g; Sleep 2; Post g].
        split; [reflexivity|]. split; [auto|]. split; [reflexivity|].
        split; [discriminate|]. split; [auto|]. exact Hphone.
  - exists (PStr gemini_key_warning), []. rewrite app_nil_r.
    split; [reflexivity|]. split; [auto|]. split; [discriminate|].
    split; [auto|]. split; [discriminate|]. exact Hphone.
Qed.

(** In a world that answers nothing, both attempts fail and the apology
    comes back. *)
Lemma call_gemini_api_retries_once_witness :
  @call_gemini_api unreachable_world sample_config
     (Prompt ∅ [] english (utf8 "price?")) english []
  = (Ok (PStr gemini_apology),
     [Post (GenerateContent (Prompt ∅ [] english (utf8 "price?"))); Sleep 2;
      Post (GenerateContent (Prompt ∅ [] english (utf8 "price?")))]).
Proof.
  destruct (@call_gemini_api_retries_once unreachable_world sample_config
              (Prompt ∅ [] english (utf8 "price?")) english [])
    as (answer & new & Hrun & _ & _ & _ & Hboth & _).
  destruct Hboth as [-> ->]; [reflexivity | reflexivity | reflexivity |].
  exact Hrun.
Defined.

(** ** The capture mode *)

Section ModeFacts.
Context `{Unicode} `{World} `{Config}.

Lemma keeps_ret {A} (a : A) : keeps_mode_none (ret a).
Proof. intros t Ht. exact Ht. Qed.

Lemma keeps_raise {A} e : keeps_mode_none (@raise turn A e).
Proof. intros t Ht. exact Ht. Qed.

Lemma keeps_eval {A} (o : outcome A) : keeps_mode_none (eval o).
Proof. intros t Ht. exact Ht. Qed.

Lemma keeps_read {A} (f : conv_state -> A) : keeps_mode_none (read f).
Proof. intros t Ht. exact Ht. Qed.

Lemma keeps_io {A} (m : IO A) : keeps_mode_none (io m).
Proof. intros t Ht. unfold io. destruct (m (trace t)). exact Ht. Qed.

Lemma keeps_update f :
  (forall s, lead_capture_mode s = None -> lead_capture_mode (f s) = None) ->
  keeps_mode_none (update f).
Proof. intros Hf t Ht. simpl. auto. Qed.

Lemma keeps_bind {A B} (m : M turn A) (f : A -> M turn B) :
  keeps_mode_none m -> (forall a, keeps_mode_none (f a)) -> keeps_mode_none (bind m f).
Proof.
  intros Hm Hf t Ht. unfold bind. specialize (Hm t Ht).
  destruct (m t) as [[a|e] t']; simpl in *; [by apply Hf | assumption].
Qed.

Lemma keeps_say reply : keeps_mode_none (say reply).
Proof.
  unfold say. apply keeps_bind; [|intros; apply keeps_ret].
  apply keeps_update. intros s Hs. exact Hs.
Qed.

Lemma keeps_update_booking f : keeps_mode_none (update_booking f).
Proof. apply keeps_update. intros s Hs. exact Hs. Qed.

Ltac keeps_mode :=
  repeat first
    [ match goal with
      | |- keeps_mode_none (ret _) => apply keeps_ret
      | |- keeps_mode_none (raise _) => apply keeps_raise
      | |- keeps_mode_none (eval _) => apply keeps_eval
      | |- keeps_mode_none (read _) => apply keeps_read
      | |- keeps_mode_none (io _) => apply keeps_io
      | |- keeps_mode_none (say _) => apply keeps_say
      | |- keeps_mode_none (update_booking _) => apply keeps_update_booking
      | |- keeps_mode_none (update _) =>
          apply keeps_update; intros ? ?; first [assumption | reflexivity]
      end
    | match goal with
      | |- keeps_mode_none (bind _ _) => apply keeps_bind; [|intros ?]
      end
    | match goal with
      | |- keeps_mode_none (if ?b then _ else _) => destruct b
      | |- keeps_mode_none (match ?x with _ => _ end) => destruct x
      end ].

Lemma keeps_use_gemini message_text : keeps_mode_none (use_gemini message_text).
Proof. unfold use_gemini. keeps_mode. Qed.

Lemma keeps_booking_step from_phone message_text user_lower :
  keeps_mode_none (booking_step from_phone message_text user_lower).
Proof.
  unfold booking_step. keeps_mode; try apply keeps_use_gemini.
  - unfold step_name. keeps_mode.
  - unfold step_confirm_phone. keeps_mode.
  - unfold step_date. keeps_mode.
  - unfold step_time. keeps_mode.
  - unfold step_unit_type. keeps_mode.
  - unfold step_budget. keeps_mode.
Qed.

Lemma keeps_whatsapp_contact_request from_phone message_text user_lower :
  keeps_mode_none (whatsapp_contact_request from_phone message_text user_lower).
Proof.
  unfold whatsapp_contact_request. keeps_mode.
  unfold site_visit_booking. keeps_mode.
  - unfold send_booking_form. keeps_mode.
  - unfold booking_form_submission. keeps_mode.
    + apply keeps_booking_step.
    + apply keeps_use_gemini.
Qed.

Lemma keeps_phone_number_for_brochure from_phone message_text user_lower :
  keeps_mode_none (phone_number_for_brochure from_phone message_text user_lower).
Proof.
  unfold phone_number_for_brochure. keeps_mode.
  - unfold capture_phone_number. keeps_mode.
  - unfold brochure_request. keeps_mode.
    + unfold send_requested_brochure. keeps_mode.
    + unfold affirmative_response_to_brochure. keeps_mode.
      * unfold send_confirmed_brochure. keeps_mode.
      * apply keeps_whatsapp_contact_request.
      * apply keeps_whatsapp_contact_request.
Qed.

Lemma keeps_process_turn from_phone message_text :
  keeps_mode_none (process_turn from_phone message_text).
Proof.
  unfold process_turn. destruct message_text; try apply keeps_raise.
  keeps_mode. apply keeps_phone_number_for_brochure.
Qed.

Lemma process_incoming_message_no_capture_mode from_phone message_text message_id m :
  no_capture_mode m ->
  no_capture_mode (snd (process_incoming_message from_phone message_text message_id m)).
Proof.
  intros Hm. unfold process_incoming_message.
  destruct (hash_key from_phone) as [k|e]; [|exact Hm].
  pose proof (keeps_process_turn from_phone message_text
                (Turn (default (new_state from_phone) (CONV_STATE m !! k)) (events m)))
    as Hturn.
  destruct (process_turn _ _ _) as [r t]. simpl in *.
  intros k' s'. simpl. destruct (decide (k = k')) as [<-|Hne].
  - rewrite lookup_insert_eq. intros [= <-]. apply Hturn.
    destruct (CONV_STATE m !! k) as [s|] eqn:Hk; simpl; [by eapply Hm | reflexivity].
  - rewrite lookup_insert_ne by assumption. apply Hm.
Qed.

Lemma reachable_no_capture_mode m : reachable m -> no_capture_mode m.
Proof.
  induction 1 as [tr|m from_phone message_text message_id _ IH].
  - intros k s Hk. simpl in Hk. rewrite lookup_empty in Hk. discriminate.
  - by apply process_incoming_message_no_capture_mode.
Qed.

(** Without a capture mode the two capture branches are skipped. *)
Lemma phone_capture_skipped from_phone message_text user_lower t :
  lead_capture_mode (state t) = None ->
  phone_number_for_brochure from_phone message_text user_lower t
  = brochure_request from_phone message_text user_lower t.
Proof.
  intros Ht. unfold phone_number_for_brochure, bind, read. rewrite Ht. reflexivity.
Qed.

Lemma booking_steps_skipped from_phone message_text user_lower t :
  lead_capture_mode (state t) = None ->
  booking_form_submission from_phone message_text user_lower t
  = use_gemini message_text t.
Proof.
  intros Ht. unfold booking_form_submission, bind, read. rewrite Ht. reflexivity.
Qed.

End ModeFacts.

(** C10. Starting from an empty [CONV_STATE], after any sequence of calls
    to [process_incoming_message] (any senders, any messages, whatever the
    world answers, whether a call returns or raises) every conversation
    state has [lead_capture_mode = None]; and the state a further call works
    on has none either, so on it the phone-capture branch is the brochure
    check and the booking-step branch is the default answer: neither
    capture branch runs. *)
Theorem capture_mode_never_set `{Unicode} `{World} `{Config} (m : machine) :
  reachable m ->
  (forall k s, CONV_STATE m !! k = Some s -> lead_capture_mode s = None)
  /\ (forall from_phone k,
        hash_key from_phone = Ok k ->
        lead_capture_mode (default (new_state from_phone) (CONV_STATE m !! k)) = None)
  /\ (forall from_phone message_text user_lower t,
        lead_capture_mode (state t) = None ->
        phone_number_for_brochure from_phone message_text user_lower t
        = brochure_request from_phone message_text user_lower t
        /\ booking_form_submission from_phone message_text user_lower t
           = use_gemini message_text t).
Proof.
  intros Hreach. pose proof (reachable_no_capture_mode m Hreach) as Hnone.
  split; [exact Hnone|]. split.
  - intros from_phone k _.
    destruct (CONV_STATE m !! k) as [s|] eqn:Hk; simpl; [by eapply Hnone | reflexivity].
  - intros from_phone message_text user_lower t Ht. split.
    + by apply phone_capture_skipped.
    + by apply booking_steps_skipped.
Qed.

(** A machine one call away from the start, and what the theorem says of
    it. *)
Lemma capture_mode_never_set_witness :
  let m := snd (@process_incoming_message ascii_only obliging_world sample_config
                  (PStr (utf8 "919876543210")) (PStr (utf8 "Can you send the brochure"))
                  (PStr (utf8 "wamid.1")) start) in
  exists s, CONV_STATE m !! KStr (utf8 "919876543210") = Some s
            /\ lead_capture_mode s = None.
Proof.
  intros m.
  assert (Hreach : @reachable ascii_only obliging_world sample_config m)
    by (apply reachable_call; apply reachable_start).
  destruct (CONV_STATE m !! KStr (utf8 "919876543210")) as [s|] eqn:Hs;
    [|vm_compute in Hs; discriminate].
  exists s. split; [reflexivity|].
  exact (proj1 (@capture_mode_never_set ascii_only obliging_world sample_config m Hreach)
           _ _ Hs).
Defined.

(** ** The router *)

Section RouterFacts.
Context `{Unicode} `{World} `{Config}.

Lemma process_turn_inbound from_phone message_text t :
  process_turn from_phone (PStr message_text) t
  = phone_number_for_brochure from_phone message_text (strip (lower message_text))
      (inbound message_text t).
Proof. reflexivity. Qed.

(** The monad, one step at a time *)
Lemma bind_assoc_at {S A B C} (m : M S A) (f : A -> M S B) (g : B -> M S C) t :
  bind (bind m f) g t = bind m (fun a => bind (f a) g) t.
Proof. unfold bind. destruct (m t) as [[a|e] t']; reflexivity. Qed.


Lemma bind_read_at {A B} (f : conv_state -> A) (k : A -> M turn B) t :
  bind (read f) k t = k (f (state t)) t.
Proof. reflexivity. Qed.

Lemma bind_update_at {B} f (k : unit -> M turn B) t :
  bind (update f) k t = k tt (Turn (f (state t)) (trace t)).
Proof. reflexivity. Qed.

Lemma bind_eval_at {S A B} (a : A) (k : A -> M S B) t : bind (eval (Ok a)) k t = k a t.
Proof. reflexivity. Qed.

Lemma bind_eval_raise_at {S A B} e (k : A -> M S B) t :
  bind (eval (Raise e)) k t = (Raise e, t).
Proof. reflexivity. Qed.


Lemma drop_pending_confirmation_at {B} (k : unit -> M turn B) t :
  bind drop_pending_confirmation k t
  = k tt (if asked_about_brochure (state t)
          then Turn (set_asked_about_brochure false (state t)) (trace t)
          else t).
Proof.
  unfold drop_pending_confirmation. rewrite bind_assoc_at, bind_read_at.
  destruct (asked_about_brochure (state t)); reflexivity.
Qed.

Lemma router_first_match from_phone message_text user_lower t :
  phone_number_for_brochure from_phone message_text user_lower t
  = outcome_of (first_matching_check (state t) user_lower)
      from_phone message_text user_lower t.
Proof.
  unfold phone_number_for_brochure, first_matching_check.
  rewrite bind_read_at.
  destruct (bool_decide (lead_capture_mode (state t) = Some (utf8 "phone_for_brochure")));
    [reflexivity|].
  unfold brochure_request.
  destruct (any_in brochure_keywords user_lower); [reflexivity|].
  unfold affirmative_response_to_brochure. rewrite bind_read_at.
  assert (Hlater :
    whatsapp_contact_request from_phone message_text user_lower
      (if asked_about_brochure (state t)
       then Turn (set_asked_about_brochure false (state t)) (trace t) else t)
    = outcome_of
        (if any_in contact_patterns user_lower then HumanHandoff
         else if any_in (booking_keywords_english ++ booking_keywords_gujarati) user_lower
         then BookingForm
         else if bool_decide (lead_capture_mode (state t) = Some (utf8 "booking"))
         then BookingSteps else DefaultAnswer)
        from_phone message_text user_lower t).
  { unfold whatsapp_contact_request.
    destruct (any_in contact_patterns user_lower);
      [unfold outcome_of; rewrite drop_pending_confirmation_at; reflexivity|].
    unfold site_visit_booking.
    destruct (any_in (booking_keywords_english ++ booking_keywords_gujarati) user_lower);
      [unfold outcome_of; rewrite drop_pending_confirmation_at; reflexivity|].
    unfold booking_form_submission. rewrite bind_read_at.
    replace (lead_capture_mode
               (state (if asked_about_brochure (state t)
                       then Turn (set_asked_about_brochure false (state t)) (trace t)
                       else t)))
      with (lead_capture_mode (state t))
      by (destruct (asked_about_brochure (state t)); reflexivity).
    destruct (bool_decide (lead_capture_mode (state t) = Some (utf8 "booking")));
      unfold outcome_of; rewrite drop_pending_confirmation_at; reflexivity. }
  destruct (asked_about_brochure (state t)) eqn:Hasked; cbn [andb].
  - rewrite bind_update_at.
    destruct (any_in affirmative_patterns user_lower).
    + unfold outcome_of. rewrite bind_update_at. reflexivity.
    + exact Hlater.
  - exact Hlater.
Qed.

(** The inbound step changes neither the capture mode nor the pending
    confirmation, so the router sees the state the turn started with. *)
Lemma first_matching_check_inbound message_text t user_lower :
  first_matching_check (state (inbound message_text t)) user_lower
  = first_matching_check (state t) user_lower.
Proof. reflexivity. Qed.

End RouterFacts.



(** ** The document flow, from the webhook *)

Section DocumentFlow.
Context `{Unicode} `{World} `{Config}.

Lemma bind_io_at {A B} (m : IO A) (k : A -> M turn B) t :
  bind (io m) k t
  = match m (trace t) with
    | (Ok a, tr) => k a (Turn (state t) tr)
    | (Raise e, tr) => (Raise e, Turn (state t) tr)
    end.
Proof. unfold bind, io. destruct (m (trace t)) as [[a|e] tr]; reflexivity. Qed.

Lemma bind_world_at {A B} (m : IO A) (k : A -> M machine B) s :
  bind (world m) k s
  = match m (events s) with
    | (Ok a, tr) => k a (Machine (CONV_STATE s) tr)
    | (Raise e, tr) => (Raise e, Machine (CONV_STATE s) tr)
    end.
Proof. unfold bind, world. destruct (m (events s)) as [[a|e] tr]; reflexivity. Qed.

Lemma send_whatsapp_document_at to_phone document_id tr :
  send_whatsapp_document to_phone document_id tr
  = (Ok (accepted (requests_post tr (SendDocument to_phone document_id))),
     tr ++ [Post (SendDocument to_phone document_id)]).
Proof.
  unfold send_whatsapp_document, bind, post, ret, accepted.
  destruct (requests_post tr _) as [|status body]; [reflexivity|].
  destruct (status =? 200)%Z; reflexivity.
Qed.

Lemma send_whatsapp_text_at to_phone message tr :
  send_whatsapp_text to_phone message tr
  = (Ok (accepted (requests_post tr (SendText to_phone message))),
     tr ++ [Post (SendText to_phone message)]).
Proof.
  unfold send_whatsapp_text, bind, post, ret, accepted.
  destruct (requests_post tr _) as [|status body]; [reflexivity|].
  destruct (status =? 200)%Z; reflexivity.
Qed.

Lemma mark_message_as_read_at message_id tr :
  mark_message_as_read message_id tr = (Ok tt, tr ++ [Post (MarkRead message_id)]).
Proof. reflexivity. Qed.

(** The document branch, by what the transport answers. *)
Lemma send_requested_brochure_at from_phone t :
  send_requested_brochure from_phone t
  = let sent := Turn (set_asked_about_brochure true (state t))
                  (trace t ++ [Post (SendDocument from_phone BROCHURE_MEDIA_ID)]) in
    if accepted (requests_post (trace t) (SendDocument from_phone BROCHURE_MEDIA_ID))
    then (Ok PNone, sent)
    else say brochure_issue_reply sent.
Proof.
  unfold send_requested_brochure. rewrite bind_update_at, bind_io_at.
  cbn [state trace]. rewrite send_whatsapp_document_at.
  destruct (accepted _); reflexivity.
Qed.

Lemma document_request_turn from_phone message_text t :
  lead_capture_mode (state t) <> Some (utf8 "phone_for_brochure") ->
  any_in brochure_keywords (strip (lower message_text)) = true ->
  process_turn from_phone (PStr message_text) t
  = send_requested_brochure from_phone (inbound message_text t).
Proof.
  intros Hmode Hdoc. rewrite process_turn_inbound, router_first_match.
  rewrite first_matching_check_inbound. unfold first_matching_check.
  rewrite bool_decide_eq_false_2 by assumption. rewrite Hdoc. reflexivity.
Qed.

(** What the webhook does with a text message. *)
Lemma handle_text_message from_phone message_id body s :
  handle_message (text_message from_phone message_id body) s
  = if truthy body
    then (world (mark_message_as_read message_id) ;;
          response_text <- process_incoming_message from_phone body message_id ;;
          world (send_whatsapp_text from_phone response_text) ;;
          ret tt) s
    else (Ok tt, s).
Proof.
  unfold handle_message.
  replace (py_get (text_message from_phone message_id body) (utf8 "from") PNone)
    with (Ok from_phone) by (vm_compute; reflexivity).
  rewrite bind_eval_at.
  replace (py_get (text_message from_phone message_id body) (utf8 "id") PNone)
    with (Ok message_id) by (vm_compute; reflexivity).
  rewrite bind_eval_at.
  replace (py_get (text_message from_phone message_id body) (utf8 "type") PNone)
    with (Ok (PStr (utf8 "text"))) by (vm_compute; reflexivity).
  rewrite bind_eval_at.
  replace (message_text_of (text_message from_phone message_id body) (PStr (utf8 "text")))
    with (Ok body) by (vm_compute; reflexivity).
  rewrite bind_eval_at.
  destruct (truthy body); reflexivity.
Qed.

End DocumentFlow.

Section DocumentTurn.
Context `{Unicode} `{World} `{Config}.

Lemma process_incoming_message_at from_phone message_text message_id m k :
  hash_key from_phone = Ok k ->
  process_incoming_message from_phone message_text message_id m
  = let '(r, t) :=
      process_turn from_phone message_text
        (Turn (default (new_state from_phone) (CONV_STATE m !! k)) (events m)) in
    (r, Machine (<[k := state t]> (CONV_STATE m)) (trace t)).
Proof. intros Hk. unfold process_incoming_message. rewrite Hk. reflexivity. Qed.

(** A document request that the transport accepts: the call returns
    [None], and the sender's state gains the flag, the language and the
    inbound entry. *)
Lemma document_request_accepted from_phone message_text message_id m k :
  hash_key from_phone = Ok k ->
  let s0 := default (new_state from_phone) (CONV_STATE m !! k) in
  lead_capture_mode s0 <> Some (utf8 "phone_for_brochure") ->
  any_in brochure_keywords (strip (lower message_text)) = true ->
  accepted (requests_post (events m) (SendDocument from_phone BROCHURE_MEDIA_ID)) = true ->
  process_incoming_message from_phone (PStr message_text) message_id m
  = (Ok PNone,
     Machine (<[k := set_asked_about_brochure true
                       (append_history (PStr message_text, true)
                          (set_language (detect_language message_text) s0))]>
                (CONV_STATE m))
             (events m ++ [Post (SendDocument from_phone BROCHURE_MEDIA_ID)])).
Proof.
  intros Hk s0 Hmode Hdoc Hsent.
  rewrite (process_incoming_message_at _ _ _ _ _ Hk). fold s0.
  rewrite document_request_turn by assumption.
  rewrite send_requested_brochure_at. cbn [inbound state trace].
  rewrite Hsent. reflexivity.
Qed.

End DocumentTurn.

(** C1 (what the code does). A text message with a document keyword,
    from a sender not in the awaiting-phone mode, in a world that accepts
    the document: [process_incoming_message] returns [None] and the chat
    history gains only the inbound entry; but [webhook]'s loop body then
    calls [send_whatsapp_text] all the same, so the turn posts a text
    message to the sender, with [None] for its body. *)
Theorem document_turn_posts_a_text `{Unicode} `{World} `{Config}
    (from_phone message_id : pyval) (message_text : str) (m : machine) (k : key) :
  message_text <> [] ->
  hash_key from_phone = Ok k ->
  let s0 := default (new_state from_phone) (CONV_STATE m !! k) in
  lead_capture_mode s0 <> Some (utf8 "phone_for_brochure") ->
  any_in brochure_keywords (strip (lower message_text)) = true ->
  (forall tr, accepted (requests_post tr (SendDocument from_phone BROCHURE_MEDIA_ID)) = true) ->
  let s1 := set_asked_about_brochure true
              (append_history (PStr message_text, true)
                 (set_language (detect_language message_text) s0)) in
  process_incoming_message from_phone (PStr message_text) message_id m
  = (Ok PNone,
     Machine (<[k := s1]> (CONV_STATE m))
             (events m ++ [Post (SendDocument from_phone BROCHURE_MEDIA_ID)]))
  /\ chat_history s1 = chat_history s0 ++ [(PStr message_text, true)]
  /\ handle_message (text_message from_phone message_id (PStr message_text)) m
     = (Ok tt,
        Machine (<[k := s1]> (CONV_STATE m))
                (events m ++ [ Post (MarkRead message_id);
                               Post (SendDocument from_phone BROCHURE_MEDIA_ID);
                               Post (SendText from_phone PNone) ])).
Proof.
  intros Htext Hk s0 Hmode Hdoc Hsent s1.
  split; [|split].
  - apply document_request_accepted; auto.
  - reflexivity.
  - rewrite handle_text_message.
    replace (truthy (PStr message_text)) with true
      by (simpl; rewrite bool_decide_eq_false_2 by assumption; reflexivity).
    rewrite bind_world_at, mark_message_as_read_at.
    unfold bind at 1.
    rewrite (document_request_accepted from_phone message_text message_id
               (Machine (CONV_STATE m) (events m ++ [Post (MarkRead message_id)])) k Hk)
      by (cbn [CONV_STATE events]; auto).
    cbn [CONV_STATE events]. fold s0 s1.
    rewrite bind_world_at, send_whatsapp_text_at. cbn [CONV_STATE events].
    unfold ret. rewrite <- !app_assoc. reflexivity.
Qed.

(** "can you send the brochure", first message of a sender, everything
    accepted: three posts, the last one a text message without a text. *)
Lemma document_turn_posts_a_text_witness :
  let from_phone := PStr (utf8 "919876543210") in
  let message_id := PStr (utf8 "wamid.1") in
  events (snd (@handle_message ascii_only obliging_world sample_config
                 (text_message from_phone message_id (PStr (utf8 "can you send the brochure")))
                 start))
  = [ Post (MarkRead message_id);
      Post (SendDocument from_phone (utf8 "1562506805130847"));
      Post (SendText from_phone PNone) ].
Proof.
  intros from_phone message_id.
  destruct (@document_turn_posts_a_text ascii_only obliging_world sample_config
              from_phone message_id (utf8 "can you send the brochure") start
              (KStr (utf8 "919876543210")))
    as (_ & _ & Hpost).
  - vm_compute. discriminate.
  - reflexivity.
  - vm_compute. discriminate.
  - vm_compute. reflexivity.
  - intros tr. reflexivity.
  - rewrite Hpost. reflexivity.
Defined.

(** ** The booking steps *)

Section BookingFacts.
Context `{Unicode} `{World} `{Config}.





















End BookingFacts.

Section BookingSequence.
Context `{Unicode} `{World} `{Config}.





End BookingSequence.






(** ** The webhook loop *)

Section WebhookFacts.
Context `{Unicode} `{World} `{Config}.





End WebhookFacts.




(** ** The booking ledger *)

Section LedgerFacts.
Context `{World} `{Sheets}.

(** What [process_record] does with a new row that has its four fields:
    the confirmation goes out, and the status write depends on [row_num]. *)
Lemma process_record_new all_records record phone name date time unit budget status p :
  py_get record (utf8 "Status") PNone = Ok status -> truthy status = false ->
  py_get record (utf8 "Phone") PNone = Ok (PStr phone) ->
  py_get record (utf8 "Name") PNone = Ok name ->
  py_get record (utf8 "Preferred Date") PNone = Ok date ->
  py_get record (utf8 "Preferred Time") PNone = Ok time ->
  py_get record (utf8 "Unit Type") PNone = Ok unit ->
  py_get record (utf8 "Budget") PNone = Ok budget ->
  phone <> [] ->
  forall sent_to,
    format_phone (PStr phone) = Ok (PStr sent_to) -> sent_to <> [] ->
    truthy name = true -> truthy date = true -> truthy time = true ->
    let message := PStr (booking_confirmation name date time unit budget) in
    accepted (requests_post (poll_trace p) (SendText (PStr sent_to) message)) = false ->
    process_record all_records record p
    = match row_num p with
      | None =>
          (Raise UnboundLocalError,
           Poll None (poll_trace p ++ [Post (SendText (PStr sent_to) message)]))
      | Some row =>
          update_status row (utf8 "Pending - WhatsApp Failed")
            (Poll (Some row) (poll_trace p ++ [Post (SendText (PStr sent_to) message)]))
      end.
Proof.
  intros Hstatus Hnew Hphone Hname Hdate Htime Hunit Hbudget Hp sent_to Hfmt Hto
    Hn Hd Ht message Hsend.
  unfold process_record.
  rewrite Hstatus, bind_eval_at, Hnew. cbn [negb].
  rewrite Hphone, bind_eval_at, Hname, bind_eval_at, Hdate, bind_eval_at,
    Htime, bind_eval_at, Hunit, bind_eval_at, Hbudget, bind_eval_at.
  rewrite Hfmt, bind_eval_at.
  replace (truthy (PStr sent_to)) with true
    by (simpl; rewrite bool_decide_eq_false_2 by assumption; reflexivity).
  rewrite Hn, Hd, Ht. cbn [andb].
  unfold bind at 1. unfold outside at 1. rewrite send_whatsapp_text_at.
  fold message. rewrite Hsend.
  unfold bind at 1. cbn [row_num poll_trace].
  destruct p as [[row|] tr]; reflexivity.
Qed.

End LedgerFacts.

(** C9 (what the code does). A new row whose confirmation is not accepted,
    with no earlier row confirmed in the same poll: the failure branch
    reads [row_num] before anything assigned it, so [process_record]
    raises [UnboundLocalError]; [check_new_bookings] catches it and
    returns [False]: no status is written and the rows after it are not
    processed. *)
Theorem failed_send_writes_no_status `{World} `{Sheets}
    (record : pyval) (rest : list pyval) (phone sent_to : str)
    (name date time unit budget status : pyval) (tr : list event) :
  google_creds = true ->
  get_all_records = Some (record :: rest) ->
  py_get record (utf8 "Status") PNone = Ok status -> truthy status = false ->
  py_get record (utf8 "Phone") PNone = Ok (PStr phone) ->
  py_get record (utf8 "Name") PNone = Ok name ->
  py_get record (utf8 "Preferred Date") PNone = Ok date ->
  py_get record (utf8 "Preferred Time") PNone = Ok time ->
  py_get record (utf8 "Unit Type") PNone = Ok unit ->
  py_get record (utf8 "Budget") PNone = Ok budget ->
  phone <> [] -> format_phone (PStr phone) = Ok (PStr sent_to) -> sent_to <> [] ->
  truthy name = true -> truthy date = true -> truthy time = true ->
  let message := PStr (booking_confirmation name date time unit budget) in
  accepted (requests_post tr (SendText (PStr sent_to) message)) = false ->
  process_record (record :: rest) record (Poll None tr)
  = (Raise UnboundLocalError, Poll None (tr ++ [Post (SendText (PStr sent_to) message)]))
  /\ check_new_bookings tr = (Ok false, tr ++ [Post (SendText (PStr sent_to) message)]).
Proof.
  intros Hcreds Hrecords Hstatus Hnew Hphone Hname Hdate Htime Hunit Hbudget Hp Hfmt Hto
    Hn Hd Ht message Hsend.
  assert (Hrecord :
    process_record (record :: rest) record (Poll None tr)
    = (Raise UnboundLocalError, Poll None (tr ++ [Post (SendText (PStr sent_to) message)]))).
  { exact (process_record_new (record :: rest) record phone name date time unit budget
             status (Poll None tr) Hstatus Hnew Hphone Hname Hdate Htime Hunit Hbudget Hp
             sent_to Hfmt Hto Hn Hd Ht Hsend). }
  split; [exact Hrecord|].
  unfold check_new_bookings, check_all_records.
  rewrite Hcreds, Hrecords. cbn [negb for_each].
  unfold bind at 1. unfold bind at 1. rewrite Hrecord. reflexivity.
Qed.

(** One new row, nobody reachable: the poll returns [False] after the one
    send, and writes nothing. *)
Lemma failed_send_writes_no_status_witness :
  let row := ledger_row "9876543210" "Asha" "" in
  exists message,
    @check_new_bookings unreachable_world (ledger [row; ledger_row "9876500000" "Ravi" ""]) []
    = (Ok false, [Post (SendText (PStr (utf8 "+919876543210")) message)]).
Proof.
  intros row. eexists.
  refine (proj2 (@failed_send_writes_no_status unreachable_world
                   (ledger [row; ledger_row "9876500000" "Ravi" ""])
                   row [ledger_row "9876500000" "Ravi" ""]
                   (utf8 "9876543210") (utf8 "+919876543210")
                   (PStr (utf8 "Asha")) (PStr (utf8 "05/11/2025")) (PStr (utf8 "10:00 AM"))
                   (PStr (utf8 "3 BHK")) (PStr (utf8 "1.5 Cr")) (PStr []) []
                   _ _ _ _ _ _ _ _ _ _ _ _ _ _ _ _ _));
    try (vm_compute; reflexivity); vm_compute; discriminate.
Defined.

(** The other face of the same slip: after a confirmed row, [row_num] is
    that row's number, and the failed send of the next row writes its
    status over the confirmed one (row 2), not on its own row (row 3). *)
Lemma failed_send_overwrites_confirmed_row :
  exists sent1 sent2,
    @check_new_bookings (reaches_only "+919876543210")
       (ledger [ledger_row "9876543210" "Asha" ""; ledger_row "9876500000" "Ravi" ""]) []
    = (Ok true,
       [ Post sent1; UpdateCell 2 7 (utf8 "Confirmed");
         Post sent2; UpdateCell 2 7 (utf8 "Pending - WhatsApp Failed") ]).
Proof. eexists _, _. vm_compute. reflexivity. Qed.

(** ** Relevant data *)

Section RelevanceFacts.
Context `{Unicode}.

Ltac key_neq := let E := fresh in intros E; vm_compute in E; discriminate E.

(** Taking apart a computation that returned. *)
Ltac returned :=
  repeat match goal with
         | H : Ok _ = Ok _ |- _ => injection H as H; try subst
         | H : Raise _ = Ok _ |- _ => discriminate H
         | H : obind ?m _ = Ok _ |- _ =>
             let E := fresh "E" in
             destruct m eqn:E; cbn [obind] in H; [|discriminate H]
         | H : (if ?b then _ else _) = Ok _ |- _ => destruct b eqn:?
         end.

Lemma copy_section_cases (lang_data : pyval) (name target : str) (rd rd' : gmap str pyval) :
  copy_section lang_data name target rd = Ok rd' ->
  (py_in name lang_data = Ok false /\ rd' = rd)
  \/ (exists v, py_in name lang_data = Ok true
                /\ py_getitem lang_data name = Ok v /\ rd' = <[target := v]> rd).
Proof.
  unfold copy_section. intros Hc. returned.
  - right. eauto.
  - left. auto.
Qed.

Lemma copy_section_identity (lang_data : pyval) (name target : str) (rd rd' : gmap str pyval) :
  target <> identity ->
  copy_section lang_data name target rd = Ok rd' ->
  rd' !! identity = rd !! identity.
Proof.
  intros Hne Hc. apply copy_section_cases in Hc as [[_ ->]|(v & _ & _ & ->)];
    [reflexivity | by apply lookup_insert_ne].
Qed.

Lemma copy_construction_elevator_identity (lang_data : pyval) (rd rd' : gmap str pyval) :
  copy_construction_elevator lang_data rd = Ok rd' ->
  rd' !! identity = rd !! identity.
Proof.
  unfold copy_construction_elevator. intros Hc. returned; [|reflexivity].
  apply lookup_insert_ne. key_neq.
Qed.

Lemma unit_slice_identity (lang_data : pyval) (plan label price parking : str) (rd rd' : gmap str pyval) :
  unit_slice lang_data plan label price parking rd = Ok rd' ->
  rd' !! identity = rd !! identity.
Proof.
  unfold unit_slice. intros Hc. returned; [|reflexivity].
  rewrite !lookup_insert_ne by key_neq. reflexivity.
Qed.

Lemma facility_and_flat_queries_identity (q : str) (lang_data : pyval) (rd rd' : gmap str pyval) :
  facility_and_flat_queries q lang_data rd = Ok rd' ->
  rd' !! identity = rd !! identity.
Proof.
  unfold facility_and_flat_queries. intros Hc. returned; try reflexivity;
    repeat match goal with
           | E : unit_slice _ _ _ _ _ _ = Ok _ |- _ => apply unit_slice_identity in E
           | E : copy_section _ _ _ _ = Ok _ |- _ =>
               apply copy_section_identity in E; [|key_neq]
           | E : copy_construction_elevator _ _ = Ok _ |- _ =>
               apply copy_construction_elevator_identity in E
           end; congruence.
Qed.

Lemma ground_floor_queries_identity (q : str) (lang_data : pyval) (rd rd' : gmap str pyval) :
  ground_floor_queries q lang_data rd = Ok rd' ->
  rd' !! identity = rd !! identity.
Proof.
  unfold ground_floor_queries. intros Hc.
  destruct (any_in _ q); [|by injection Hc as <-].
  returned; [|reflexivity].
  repeat match goal with
         | |- context [if ?b then _ else _] => destruct b
         end;
    rewrite !lookup_insert_ne by key_neq; reflexivity.
Qed.

Lemma plan_details_identity (lang_data : pyval) (plan target : str) (asked : bool) (rd rd' : gmap str pyval) :
  target <> identity ->
  plan_details lang_data plan target asked rd = Ok rd' ->
  rd' !! identity = rd !! identity.
Proof.
  unfold plan_details. intros Hne Hc. returned; [|reflexivity].
  by apply lookup_insert_ne.
Qed.

Lemma unit_configuration_queries_identity (q : str) (lang_data : pyval) (rd rd' : gmap str pyval) :
  unit_configuration_queries q lang_data rd = Ok rd' ->
  rd' !! identity = rd !! identity.
Proof.
  unfold unit_configuration_queries. intros Hc.
  destruct (any_in _ q); [|by injection Hc as <-].
  returned;
    repeat match goal with
           | E : plan_details _ _ _ _ _ = Ok _ |- _ =>
               apply plan_details_identity in E; [|key_neq]
           | E : copy_section _ _ _ _ = Ok _ |- _ =>
               apply copy_section_identity in E; [|key_neq]
           end;
    rewrite ?lookup_insert_ne in * by key_neq; congruence.
Qed.

Lemma topic_identity (keywords : list str) (name target q : str) (lang_data : pyval) (rd rd' : gmap str pyval) :
  target <> identity ->
  topic keywords name target q lang_data rd = Ok rd' ->
  rd' !! identity = rd !! identity.
Proof.
  unfold topic. intros Hne Hc. destruct (any_in keywords q).
  - by eapply copy_section_identity.
  - by injection Hc as <-.
Qed.

Lemma room_queries_identity (q : str) (lang_data : pyval) (rd rd' : gmap str pyval) :
  room_queries q lang_data rd = Ok rd' ->
  rd' !! identity = rd !! identity.
Proof.
  unfold room_queries. intros Hc.
  destruct (any_in _ q); [|by injection Hc as <-].
  returned.
  apply copy_section_identity in E; [|key_neq].
  apply copy_section_identity in Hc; [|key_neq]. congruence.
Qed.

Lemma elevator_detail_queries_identity (q : str) (lang_data : pyval) (rd rd' : gmap str pyval) :
  elevator_detail_queries q lang_data rd = Ok rd' ->
  rd' !! identity = rd !! identity.
Proof.
  unfold elevator_detail_queries. intros Hc.
  destruct (any_in _ q); [|by injection Hc as <-].
  returned;
    match goal with
    | E : copy_construction_elevator _ _ = Ok _ |- _ =>
        apply copy_construction_elevator_identity in E
    end;
    rewrite ?lookup_insert_ne by key_neq; congruence.
Qed.

(** The topic checks never touch the identity entry. *)
Lemma topic_checks_identity (q : str) (lang_data : pyval) (rd rd' : gmap str pyval) :
  topic_checks q lang_data rd = Ok rd' ->
  rd' !! identity = rd !! identity.
Proof.
  unfold topic_checks. intros Hc. returned.
  repeat match goal with
         | E : facility_and_flat_queries _ _ _ = Ok _ |- _ =>
             apply facility_and_flat_queries_identity in E
         | E : ground_floor_queries _ _ _ = Ok _ |- _ =>
             apply ground_floor_queries_identity in E
         | E : unit_configuration_queries _ _ _ = Ok _ |- _ =>
             apply unit_configuration_queries_identity in E
         | E : room_queries _ _ _ = Ok _ |- _ => apply room_queries_identity in E
         | E : elevator_detail_queries _ _ _ = Ok _ |- _ =>
             apply elevator_detail_queries_identity in E
         | E : topic _ _ _ _ _ _ = Ok _ |- _ => apply topic_identity in E; [|key_neq]
         end.
  congruence.
Qed.

Lemma absent_has_no_item (name : str) (lang_data : pyval) :
  py_in name lang_data = Ok false -> exists e, py_getitem lang_data name = Raise e.
Proof.
  destruct lang_data as [| | | | |d]; simpl; try (intros; by eexists).
  intros [= Hin]. apply bool_decide_eq_false in Hin.
  destruct (dict_lookup name d); [|by eexists].
  exfalso. apply Hin. by eexists.
Qed.

Lemma add_sections_merged (sections : list str) (lang_data : pyval) :
  forall rd rd' : gmap str pyval,
    add_sections sections lang_data rd = Ok rd' -> rd' = merged sections lang_data rd.
Proof.
  induction sections as [|section rest IH]; intros rd rd' Ha; simpl in Ha.
  - by injection Ha as <-.
  - destruct (copy_section lang_data section section rd) as [rd1|e] eqn:Hc;
      [|discriminate]. cbn [obind] in Ha.
    apply IH in Ha as ->. unfold merged. cbn [foldl].
    apply copy_section_cases in Hc as [[Habs ->]|(v & _ & Hv & ->)].
    + destruct (absent_has_no_item _ _ Habs) as [e ->]. reflexivity.
    + rewrite Hv. reflexivity.
Qed.

Lemma merged_identity (sections : list str) (lang_data : pyval) :
  identity ∉ sections ->
  forall rd : gmap str pyval, merged sections lang_data rd !! identity = rd !! identity.
Proof.
  unfold merged. induction sections as [|section rest IH]; intros Hnot rd; [reflexivity|].
  cbn [foldl]. rewrite IH by (intros Hin; apply Hnot; by right).
  destruct (py_getitem lang_data section); [|reflexivity].
  apply lookup_insert_ne. intros ->. apply Hnot. by left.
Qed.

(** What [extract_relevant_data] returns, when it returns: the identity
    section if the tree has it, and the gathered sections broadened by the
    fallback when they are at most two. *)
Lemma extract_relevant_data_returns (user_question : str) (faq_data : pyval)
    (language : str) (lang_data : pyval) (rd : gmap str pyval) :
  language_tree faq_data language = Ok lang_data ->
  extract_relevant_data user_question faq_data language = Ok rd ->
  (py_in identity lang_data = Ok true ->
   exists v, py_getitem lang_data identity = Ok v /\ rd !! identity = Some v)
  /\ (exists gathered,
        (let? with_identity := copy_section lang_data identity identity ∅ in
         topic_checks (lower user_question) lang_data with_identity) = Ok gathered
        /\ rd = if bool_decide (size gathered <= 2)%nat
                then merged fallback_sections lang_data gathered
                else gathered).
Proof.
  intros Htree Hrun. unfold extract_relevant_data in Hrun.
  rewrite Htree in Hrun. cbn [obind] in Hrun.
  fold identity in Hrun.
  destruct (copy_section lang_data identity identity ∅) as [rd0|e] eqn:Hid;
    [|discriminate]. cbn [obind] in Hrun.
  destruct (topic_checks (lower user_question) lang_data rd0) as [rd1|e] eqn:Htopics;
    [|discriminate]. cbn [obind] in Hrun.
  assert (Hfinal : rd = if bool_decide (size rd1 <= 2)%nat
                        then merged fallback_sections lang_data rd1 else rd1).
  { unfold minimal_data_fallback in Hrun.
    destruct (bool_decide (size rd1 <= 2)%nat).
    - by apply add_sections_merged.
    - by injection Hrun as <-. }
  split.
  - intros Hpresent.
    apply copy_section_cases in Hid as [[Habs _]|(v & _ & Hv & ->)]; [congruence|].
    exists v. split; [exact Hv|].
    assert (Hkept : rd !! identity = rd1 !! identity).
    { rewrite Hfinal. destruct (bool_decide _); [|reflexivity].
      apply merged_identity. intros Hin. apply list_elem_of_In in Hin.
      vm_compute in Hin.
      repeat (destruct Hin as [Hin|Hin]; [discriminate Hin|]). exact Hin. }
    rewrite Hkept, (topic_checks_identity _ _ _ _ Htopics). apply lookup_insert_eq.
  - exists rd1. cbn [obind]. split; [exact Htopics | exact Hfinal].
Qed.

End RelevanceFacts.

(** *** What the function leaves alone *)

Section Frame.
Context `{Unicode}.
Import Stored.

Lemma spares_ret base {A} (a : A) : spares base (ret a).
Proof. intros h Hh. exact Hh. Qed.

Lemma spares_raise base {A} e : spares base (@raise (list obj) A e).
Proof. intros h Hh. exact Hh. Qed.

Lemma spares_bind base {A B} (m : M (list obj) A) (f : A -> M (list obj) B) :
  spares base m -> (forall a, spares base (f a)) -> spares base (bind m f).
Proof.
  intros Hm Hf h Hh. unfold bind. specialize (Hm h Hh).
  destruct (m h) as [[a|e] h']; simpl in *; [by apply Hf | assumption].
Qed.

Lemma spares_deref base v : spares base (deref v).
Proof. intros h Hh. exact Hh. Qed.

Lemma spares_alloc base o : spares base (alloc o).
Proof. intros h Hh. simpl. by apply prefix_app_r. Qed.

(** An allocation gives a reference beyond [base]. *)
Lemma spares_alloc_then base {B} o (f : val -> M (list obj) B) :
  (forall l, (length base <= l)%nat -> spares base (f (VRef l))) ->
  spares base (bind (alloc o) f).
Proof.
  intros Hf h Hh. unfold bind, alloc.
  apply Hf; [by apply prefix_length | by apply prefix_app_r].
Qed.

(** The write: harmless when its target lies beyond [base]. *)
Lemma spares_setitem base l k v :
  (length base <= l)%nat -> spares base (setitem (VRef l) k v).
Proof.
  intros Hl h [rest ->]. unfold setitem.
  destruct ((base ++ rest) !! l) as [[d|items]|]; simpl; try by eexists.
  rewrite insert_app_r_alt by assumption. by eexists.
Qed.

Ltac reads :=
  intros; unfold has, getitem, get, iter, len;
  apply spares_bind; [apply spares_deref|];
  intros;
  repeat match goal with
         | |- spares _ (ret _) => apply spares_ret
         | |- spares _ (raise _) => apply spares_raise
         | |- spares _ (match ?x with _ => _ end) => destruct x
         end.

Lemma spares_has base k v : spares base (has k v).
Proof. reads. Qed.
Lemma spares_getitem base v k : spares base (getitem v k).
Proof. reads. Qed.
Lemma spares_get base v k d : spares base (get v k d).
Proof. reads. Qed.
Lemma spares_iter base v : spares base (iter v).
Proof. reads. Qed.
Lemma spares_len base v : spares base (len v).
Proof. reads. Qed.

Lemma spares_literal base : forall p, spares base (literal p).
Proof.
  fix IH 1. intros [|b|z|s|l|d]; cbn [literal]; try apply spares_ret.
  - apply spares_bind; [|intros; apply spares_alloc].
    revert l. fix IHl 1. intros [|x l]; [apply spares_ret|].
    apply spares_bind; [apply IH|]. intros v.
    apply spares_bind; [apply IHl|]. intros vs. apply spares_ret.
  - apply spares_bind; [|intros; apply spares_alloc].
    revert d. fix IHd 1. intros [|[k x] d]; [apply spares_ret|].
    apply spares_bind; [apply IH|]. intros v.
    apply spares_bind; [apply IHd|]. intros vs. apply spares_ret.
Qed.

Lemma spares_for_each base {A} (body : A -> M (list obj) unit) xs :
  (forall x, spares base (body x)) -> spares base (for_each xs body).
Proof.
  intros Hbody. induction xs as [|x xs IH]; simpl; [apply spares_ret|].
  apply spares_bind; [apply Hbody | intros; apply IH].
Qed.

Ltac frame :=
  repeat match goal with
         | |- spares _ (ret _) => apply spares_ret
         | |- spares _ (raise _) => apply spares_raise
         | |- spares _ (bind (alloc _) _) => apply spares_alloc_then; intros ? ?
         | |- spares _ (bind empty_dict _) => apply spares_alloc_then; intros ? ?
         | |- spares _ (bind _ _) => apply spares_bind; [|intros ?]
         | |- spares _ (alloc _) => apply spares_alloc
         | |- spares _ empty_dict => apply spares_alloc
         | |- spares _ (has _ _) => apply spares_has
         | |- spares _ (getitem _ _) => apply spares_getitem
         | |- spares _ (get _ _ _) => apply spares_get
         | |- spares _ (iter _) => apply spares_iter
         | |- spares _ (len _) => apply spares_len
         | |- spares _ (literal _) => apply spares_literal
         | |- spares _ (setitem (VRef _) _ _) => apply spares_setitem; assumption
         | |- spares _ (if ?b then _ else _) => destruct b
         end.

Section Blocks.
Variables (base : list obj) (lang_data : val) (l : nat).
Hypothesis fresh : (length base <= l)%nat.

Lemma spares_copy_section name target :
  spares base (copy_section lang_data name target (VRef l)).
Proof. unfold copy_section. frame. Qed.

Lemma spares_copy_construction_elevator :
  spares base (copy_construction_elevator lang_data (VRef l)).
Proof. unfold copy_construction_elevator. frame. Qed.

Lemma spares_unit_slice plan label price parking :
  spares base (unit_slice lang_data plan label price parking (VRef l)).
Proof. unfold unit_slice. frame. Qed.

Lemma spares_facility_and_flat_queries q :
  spares base (facility_and_flat_queries q lang_data (VRef l)).
Proof.
  unfold facility_and_flat_queries. frame;
    first [apply spares_unit_slice | apply spares_copy_section
          | apply spares_copy_construction_elevator].
Qed.

Lemma spares_ground_floor_queries q :
  spares base (ground_floor_queries q lang_data (VRef l)).
Proof. unfold ground_floor_queries, plan_entry. frame. Qed.

Lemma spares_first_config_in items kind field :
  spares base (first_config_in items kind field).
Proof. induction items as [|config rest IH]; simpl; frame. exact IH. Qed.

Lemma spares_unit_summary configs kind : spares base (unit_summary configs kind).
Proof. unfold unit_summary, first_config. frame; apply spares_first_config_in. Qed.

Lemma spares_plan_details plan target asked :
  spares base (plan_details lang_data plan target asked (VRef l)).
Proof. unfold plan_details. frame. Qed.

Lemma spares_unit_configuration_queries q :
  spares base (unit_configuration_queries q lang_data (VRef l)).
Proof.
  unfold unit_configuration_queries. frame;
    first [apply spares_unit_summary | apply spares_plan_details | apply spares_copy_section].
Qed.

Lemma spares_topic keywords name target q :
  spares base (topic keywords name target q lang_data (VRef l)).
Proof. unfold topic. frame. apply spares_copy_section. Qed.

Lemma spares_room_queries q : spares base (room_queries q lang_data (VRef l)).
Proof. unfold room_queries. frame; apply spares_copy_section. Qed.

Lemma spares_elevator_detail_queries q :
  spares base (elevator_detail_queries q lang_data (VRef l)).
Proof.
  unfold elevator_detail_queries, lift_lobby. frame.
  apply spares_copy_construction_elevator.
Qed.

Lemma spares_minimal_data_fallback :
  spares base (minimal_data_fallback lang_data (VRef l)).
Proof.
  unfold minimal_data_fallback. frame.
  apply spares_for_each. intros section. apply spares_copy_section.
Qed.

Lemma spares_topic_checks q : spares base (topic_checks q lang_data (VRef l)).
Proof.
  unfold topic_checks. frame;
    first [ apply spares_facility_and_flat_queries | apply spares_ground_floor_queries
          | apply spares_unit_configuration_queries | apply spares_room_queries
          | apply spares_elevator_detail_queries | apply spares_topic ].
Qed.

End Blocks.

(** Every object that was in the store before the call is in it
    afterwards, unchanged. *)
Lemma extract_relevant_data_spares_store user_question faq_data language (h : list obj) :
  h `prefix_of` snd (Stored.extract_relevant_data user_question faq_data language h).
Proof.
  assert (Hkeeps : spares h (Stored.extract_relevant_data user_question faq_data language)).
  { unfold Stored.extract_relevant_data, Stored.language_tree. frame.
    - by apply spares_copy_section.
    - by apply spares_topic_checks.
    - by apply spares_minimal_data_fallback. }
  by apply Hkeeps.
Qed.

End Frame.

(** *** The calls that do not return *)

Section Raising.
Context `{Unicode}.

(** The second elevator check indexes both zones of the ground floor plan:
    a plan without one of them raises. *)
Lemma elevator_detail_queries_raises q tree plan rd :
  any_in [utf8 "elevator"; utf8 "lift"; utf8 "lifts"] q = true ->
  dict_lookup (utf8 "ground_floor_plan") tree = Some (PDict plan) ->
  dict_lookup (utf8 "block_a_zone") plan = None
  \/ dict_lookup (utf8 "block_b_zone") plan = None ->
  exists e, elevator_detail_queries q (PDict tree) rd = Raise e.
Proof.
  intros Hq Hplan Hzone. unfold elevator_detail_queries. rewrite Hq.
  destruct (copy_construction_elevator (PDict tree) rd) as [rd1|e];
    [|eexists; reflexivity].
  cbn [obind py_in py_getitem]. rewrite Hplan.
  rewrite bool_decide_eq_true_2 by (eexists; reflexivity).
  cbn [obind py_getitem].
  destruct (dict_lookup (utf8 "block_a_zone") plan) as [zone_a|] eqn:Ha;
    [|eexists; reflexivity].
  destruct Hzone as [Hzone|Hzone]; [discriminate|]. rewrite Hzone.
  cbn [obind]. destruct (py_get zone_a (utf8 "lift_lobby") (PDict [])) as [lifts|e];
    eexists; reflexivity.
Qed.

(** The ground floor check reads the zones of the same plan with a
    default, and returns. *)
Lemma ground_floor_queries_returns q tree plan rd :
  dict_lookup (utf8 "ground_floor_plan") tree = Some (PDict plan) ->
  exists rd', ground_floor_queries q (PDict tree) rd = Ok rd'.
Proof.
  intros Hplan. unfold ground_floor_queries.
  destruct (any_in _ q); [|eexists; reflexivity].
  cbn [obind py_in py_getitem py_get]. rewrite Hplan.
  rewrite bool_decide_eq_true_2 by (eexists; reflexivity).
  cbn [obind py_getitem py_get]. eexists; reflexivity.
Qed.

Lemma topic_checks_raises q tree plan rd :
  any_in [utf8 "elevator"; utf8 "lift"; utf8 "lifts"] q = true ->
  dict_lookup (utf8 "ground_floor_plan") tree = Some (PDict plan) ->
  dict_lookup (utf8 "block_a_zone") plan = None
  \/ dict_lookup (utf8 "block_b_zone") plan = None ->
  exists e, topic_checks q (PDict tree) rd = Raise e.
Proof.
  intros Hq Hplan Hzone. unfold topic_checks.
  repeat match goal with
         | |- exists e, obind (elevator_detail_queries q (PDict tree) ?r) _ = Raise e =>
             destruct (elevator_detail_queries_raises q tree plan r Hq Hplan Hzone)
               as [e ->]; eexists; reflexivity
         | |- exists e, obind ?step _ = Raise e =>
             destruct step as [?rd|?e]; [cbn [obind]|eexists; reflexivity]
         end.
Qed.

Lemma extract_relevant_data_raises user_question faq_data language tree plan :
  language_tree faq_data language = Ok (PDict tree) ->
  dict_lookup (utf8 "ground_floor_plan") tree = Some (PDict plan) ->
  dict_lookup (utf8 "block_a_zone") plan = None
  \/ dict_lookup (utf8 "block_b_zone") plan = None ->
  any_in [utf8 "elevator"; utf8 "lift"; utf8 "lifts"] (lower user_question) = true ->
  exists e, extract_relevant_data user_question faq_data language = Raise e.
Proof.
  intros Htree Hplan Hzone Hq. unfold extract_relevant_data.
  rewrite Htree. cbn [obind].
  destruct (copy_section (PDict tree) (utf8 "project_info") (utf8 "project_info") ∅)
    as [rd|e]; [cbn [obind]|eexists; reflexivity].
  destruct (topic_checks_raises (lower user_question) tree plan rd Hq Hplan Hzone)
    as [e ->].
  eexists; reflexivity.
Qed.

End Raising.

(** C8 (what the code does).  For every question, knowledge base and
    language.  When [extract_relevant_data] returns, the result holds the
    tree's [project_info] under that key whenever the selected language
    tree has it; and if the sections gathered by the identity step and the
    topic checks are at most two, the result is those with exactly the
    sections [unit_configurations], [pricing], [3bhk_unit_plan],
    [4bhk_unit_plan], [amenities], [location_details] that the tree holds
    merged in (and is the gathered sections themselves when they are
    more).  On the store of shared objects, a call leaves every object that
    existed before it as it was: the knowledge base is not mutated, whether
    the call returns or raises.  But the call does not always return: when
    the question names an elevator or a lift and the tree's
    [ground_floor_plan] is a dict without [block_a_zone] or without
    [block_b_zone], the second elevator check indexes the missing zone and
    the call raises, so that nothing is included, [project_info] or other;
    the ground floor check before it reads the same zones with a default
    and returns on every such tree. *)
Theorem extract_relevant_data_includes_or_raises `{Unicode}
    (user_question : str) (faq_data : pyval) (language : str) :
  (forall (lang_data : pyval) (rd : gmap str pyval),
     language_tree faq_data language = Ok lang_data ->
     extract_relevant_data user_question faq_data language = Ok rd ->
     (py_in (utf8 "project_info") lang_data = Ok true ->
      exists v, py_getitem lang_data (utf8 "project_info") = Ok v
                /\ rd !! utf8 "project_info" = Some v)
     /\ (exists gathered,
           (let? with_identity :=
              copy_section lang_data (utf8 "project_info") (utf8 "project_info") ∅ in
            topic_checks (lower user_question) lang_data with_identity) = Ok gathered
           /\ rd = if bool_decide (size gathered <= 2)%nat
                   then merged [ utf8 "unit_configurations"; utf8 "pricing";
                                 utf8 "3bhk_unit_plan"; utf8 "4bhk_unit_plan";
                                 utf8 "amenities"; utf8 "location_details" ]
                          lang_data gathered
                   else gathered))
  /\ (forall (stored_faq_data : Stored.val) (h : list Stored.obj),
        h `prefix_of`
          snd (Stored.extract_relevant_data user_question stored_faq_data language h))
  /\ (forall (tree plan : list (str * pyval)),
        language_tree faq_data language = Ok (PDict tree) ->
        dict_lookup (utf8 "ground_floor_plan") tree = Some (PDict plan) ->
        dict_lookup (utf8 "block_a_zone") plan = None
        \/ dict_lookup (utf8 "block_b_zone") plan = None ->
        any_in [utf8 "elevator"; utf8 "lift"; utf8 "lifts"] (lower user_question) = true ->
        (exists e, extract_relevant_data user_question faq_data language = Raise e)
        /\ (forall rd : gmap str pyval,
              exists rd',
                ground_floor_queries (lower user_question) (PDict tree) rd = Ok rd')).
Proof.
  split; [|split].
  - intros lang_data rd Htree Hrun.
    exact (extract_relevant_data_returns _ _ _ _ _ Htree Hrun).
  - intros stored_faq_data h. apply extract_relevant_data_spares_store.
  - intros tree plan Htree Hplan Hzone Hq. split.
    + exact (extract_relevant_data_raises _ _ _ _ _ Htree Hplan Hzone Hq).
    + intros rd. exact (ground_floor_queries_returns _ _ _ _ Hplan).
Qed.

(** On the sample the function on a store returns what the function on
    nested values returns, for a question that hits no topic, one about
    prices and one about amenities and the location. *)
Lemma readings_agree_on_sample :
  Forall (fun user_question =>
            is_Some (on_values user_question)
            /\ on_store user_question = on_values user_question)
    [ utf8 "hello"; utf8 "What is the price of a 3BHK?";
      utf8 "Is there a gym? And where is the site, any metro nearby?" ].
Proof.
  repeat constructor; try (vm_compute; eexists; reflexivity); vm_compute; reflexivity.
Qed.

(** "hello" on the sample hits no topic: the identity section alone is
    gathered, and the fallback adds the prices and the amenities.  "Is
    there a lift?" on the knowledge base without zones: the tree has
    [project_info], the ground floor check returns, and the call raises
    [KeyError]. *)
Lemma extract_relevant_data_includes_or_raises_witness :
  (exists rd,
     @extract_relevant_data ascii_only (utf8 "hello") sample_faq_data english = Ok rd
     /\ rd !! utf8 "project_info" = Some (PDict [(utf8 "name", PStr (utf8 "Brookstone"))])
     /\ size rd = 3%nat)
  /\ py_in (utf8 "project_info") zoneless_tree = Ok true
  /\ @extract_relevant_data ascii_only (utf8 "Is there a lift?") zoneless_faq_data english
     = Raise KeyError
  /\ exists rd,
       ground_floor_queries (@lower ascii_only (utf8 "Is there a lift?"))
         zoneless_tree ∅ = Ok rd.
Proof.
  split.
  { destruct (@extract_relevant_data ascii_only (utf8 "hello") sample_faq_data english)
      as [rd|e] eqn:Hrun; [|vm_compute in Hrun; discriminate].
    exists rd. split; [reflexivity|].
    assert (Htree : language_tree sample_faq_data english = Ok sample_tree)
      by (vm_compute; reflexivity).
    destruct (@extract_relevant_data_includes_or_raises ascii_only (utf8 "hello")
                sample_faq_data english) as (Hreturns & _).
    destruct (Hreturns sample_tree rd Htree Hrun)
      as (Hid & (gathered & Hgathered & Hrd)).
    split.
    - destruct Hid as (v & Hv & Hlookup); [vm_compute; reflexivity|].
      vm_compute in Hv. injection Hv as <-. exact Hlookup.
    - vm_compute in Hgathered. injection Hgathered as <-.
      rewrite Hrd. vm_compute. reflexivity. }
  split; [vm_compute; reflexivity|].
  destruct (@extract_relevant_data_includes_or_raises ascii_only
              (utf8 "Is there a lift?") zoneless_faq_data english)
    as (_ & _ & Hraises).
  destruct (Hraises
              [ (utf8 "project_info", PDict [(utf8 "name", PStr (utf8 "Brookstone"))]);
                (utf8 "ground_floor_plan",
                 PDict [(utf8 "summary", PStr (utf8 "Two blocks around a court"))]) ]
              [(utf8 "summary", PStr (utf8 "Two blocks around a court"))])
    as [[e He] Hsibling];
    [vm_compute; reflexivity | vm_compute; reflexivity
    | left; vm_compute; reflexivity | vm_compute; reflexivity |].
  split.
  - assert (He' : e = KeyError) by (vm_compute in He; congruence).
    rewrite He' in He. exact He.
  - exact (Hsibling ∅).
Defined.

(** * Further properties *)

(** ** The matcher finds every run *)

Section RegexComplete.
Context `{Unicode}.

Lemma cursor_eta c : Cursor (seen c) (ahead c) (group1 c) = c.
Proof. destruct c; reflexivity. Qed.

Lemma re_star_complete {A} p (k : cursor -> option A) c c' a :
  star_steps p c c' -> k c' = Some a ->
  is_Some (re_star p (seen c) (ahead c) (group1 c) k).
Proof.
  intros Hstar Hk. induction Hstar as [c|c x ah' c' Hah Hp Hstar IH].
  - destruct (ahead c) as [|x ah'] eqn:Hah; cbn [re_star].
    + rewrite <- Hah, cursor_eta, Hk. eexists; reflexivity.
    + destruct (p x); [destruct (re_star p (x :: seen c) ah' (group1 c) k)|];
        try (eexists; reflexivity);
        rewrite <- Hah, cursor_eta, Hk; eexists; reflexivity.
  - rewrite Hah. cbn [re_star]. rewrite Hp.
    destruct (IH Hk) as [a' Ha']. cbn [seen ahead group1] in Ha'. rewrite Ha'.
    eexists; reflexivity.
Qed.

(** The backtracking matcher misses no run: when the pattern can take the
    matcher to a position the continuation accepts, it returns a match. *)
Lemma re_run_complete {A} r c c' :
  steps r c c' ->
  forall (k : cursor -> option A) a, k c' = Some a -> is_Some (re_run r c k).
Proof.
  induction 1 as [p c x ah' Hah Hp|c|r1 r2 c c1 c2 _ IH1 _ IH2|r1 r2 c c' _ IH
                 |r1 r2 c c' _ IH|p c c' Hstar|r c c1 _ IH|c Hb];
    intros k a Hk; cbn [re_run].
  - rewrite Hah, Hp, Hk. eexists; reflexivity.
  - rewrite Hk. eexists; reflexivity.
  - destruct (IH2 k a Hk) as [a2 Ha2]. exact (IH1 _ a2 Ha2).
  - destruct (IH k a Hk) as [a1 ->]. eexists; reflexivity.
  - destruct (re_run r1 c k); [eexists; reflexivity | exact (IH k a Hk)].
  - exact (re_star_complete p k c c' a Hstar Hk).
  - exact (IH _ a Hk).
  - rewrite Hb, Hk. eexists; reflexivity.
Qed.

Lemma re_search_from_complete r pre :
  forall sn suf c',
    steps r (Cursor (rev pre ++ sn) suf None) c' ->
    is_Some (re_search_from r sn (pre ++ suf)).
Proof.
  induction pre as [|x pre IH]; intros sn suf c' Hsteps.
  - cbn [rev app] in *.
    assert (Hat : is_Some (re_at r (Cursor sn suf None)))
      by (unfold re_at; eapply re_run_complete; [exact Hsteps | reflexivity]).
    destruct Hat as [m Hm].
    destruct suf; cbn [re_search_from]; rewrite Hm; eexists; reflexivity.
  - cbn [app re_search_from].
    destruct (re_at r (Cursor sn (x :: pre ++ suf) None)); [eexists; reflexivity|].
    apply (IH (x :: sn) suf c').
    cbn [rev] in Hsteps. rewrite <- app_assoc in Hsteps. exact Hsteps.
Qed.

(** Where a search matched: the text splits into what precedes the match
    and the rest, and the pattern runs from there. *)
Lemma re_search_from_position r ah :
  forall sn m, re_search_from r sn ah = Some m ->
    exists pre suf c', ah = pre ++ suf /\ steps r (Cursor (rev pre ++ sn) suf None) c'.
Proof.
  induction ah as [|x ah IH]; intros sn m Hs; cbn [re_search_from] in Hs.
  - destruct (re_at r (Cursor sn [] None)) as [m'|] eqn:Hat; [|discriminate].
    unfold re_at in Hat. apply re_run_sound in Hat as (c' & Hsteps & _).
    exists [], [], c'. split; [reflexivity | exact Hsteps].
  - destruct (re_at r (Cursor sn (x :: ah) None)) as [m'|] eqn:Hat.
    + unfold re_at in Hat. apply re_run_sound in Hat as (c' & Hsteps & _).
      exists [], (x :: ah), c'. split; [reflexivity | exact Hsteps].
    + destruct (IH _ _ Hs) as (pre & suf & c' & -> & Hsteps).
      exists (x :: pre), suf, c'. split; [reflexivity|].
      cbn [rev]. rewrite <- app_assoc. exact Hsteps.
Qed.

(** A run only moves text from ahead to seen. *)
Lemma steps_consumes r c c' :
  steps r c c' ->
  exists w, seen c' = rev w ++ seen c /\ ahead c = w ++ ahead c'.
Proof.
  induction 1 as [p c x ah' Hah Hp|c|r1 r2 c c1 c2 _ IH1 _ IH2|r1 r2 c c' _ IH
                 |r1 r2 c c' _ IH|p c c' Hstar|r c c1 _ IH|c Hb].
  - exists [x]. split; [reflexivity | exact Hah].
  - exists []. split; reflexivity.
  - destruct IH1 as (w1 & Hs1 & Ha1), IH2 as (w2 & Hs2 & Ha2).
    exists (w1 ++ w2). split.
    + rewrite Hs2, Hs1, rev_app_distr, app_assoc. reflexivity.
    + rewrite Ha1, Ha2, app_assoc. reflexivity.
  - exact IH.
  - exact IH.
  - destruct (star_steps_consumes p c c' Hstar) as (w & _ & Hs & Ha).
    exists w. split; assumption.
  - exact IH.
  - exists []. split; reflexivity.
Qed.

End RegexComplete.

(** ** Budget extraction: the order of the patterns *)

Section BudgetOrder.
Context `{Unicode}.

Lemma groupless_RLit s : groupless (RLit s) = true.
Proof. induction s as [|x s IH]; [reflexivity | exact IH]. Qed.

(** Behind a currency sign there is an amount with its unit: where a
    pattern with the sign matches, the pattern without it matches too. *)
Lemma rupee_then_amount_then unit text :
  is_Some (re_search (rupee_then unit) text) ->
  is_Some (re_search (amount_then unit) text).
Proof.
  intros [m Hm]. unfold re_search in *.
  apply re_search_from_position in Hm as (pre & suf & c' & -> & Hsteps).
  unfold rupee_then in Hsteps.
  apply steps_seq_inv in Hsteps as (c1 & Hsign & Hrest).
  apply steps_seq_inv in Hrest as (c2 & Hspace & Hamount).
  assert (Hg1 : group1 c1 = None)
    by (apply (groupless_keeps _ _ _ Hsign), groupless_RLit).
  assert (Hg2 : group1 c2 = None).
  { apply steps_star_inv, star_steps_group in Hspace. congruence. }
  destruct (steps_consumes _ _ _ Hsign) as (w1 & Hs1 & Ha1).
  destruct (steps_consumes _ _ _ Hspace) as (w2 & Hs2 & Ha2).
  cbn [seen ahead] in Hs1, Ha1.
  assert (Hc2 : c2 = Cursor (rev (pre ++ w1 ++ w2) ++ []) (ahead c2) None).
  { destruct c2 as [sn2 ah2 g2]. cbn [seen ahead group1] in *. subst g2.
    rewrite Hs2, Hs1, !app_nil_r, !rev_app_distr, <- !app_assoc. reflexivity. }
  rewrite Hc2 in Hamount.
  replace (pre ++ suf) with ((pre ++ w1 ++ w2) ++ ahead c2)
    by (rewrite Ha1, Ha2, <- !app_assoc; reflexivity).
  exact (re_search_from_complete _ _ _ _ _ Hamount).
Qed.

End BudgetOrder.

Section BudgetClosedForm.
Context `{Unicode}.

Lemma float_str_of_decimal g :
  is_Some (decimal_literal g) -> exists amount, float_str g = Some amount.
Proof.
  intros [[i f] Hd]. unfold float_str. rewrite Hd. eexists; reflexivity.
Qed.

Lemma budget_loop_two text_lower :
  budget_loop budget_patterns text_lower
  = budget_loop [crore_pattern; lakh_pattern] text_lower.
Proof.
  unfold budget_patterns. cbn [budget_loop].
  destruct (re_search (pattern_re crore_pattern) text_lower) as [m|] eqn:Hcrore;
    [reflexivity|].
  destruct (re_search (pattern_re lakh_pattern) text_lower) as [m|] eqn:Hlakh;
    [reflexivity|].
  destruct (re_search (pattern_re rupee_crore_pattern) text_lower) as [m|] eqn:Hrc.
  { destruct (rupee_then_amount_then crore_unit text_lower) as [m' Hm'].
    - exists m. exact Hrc.
    - cbn [pattern_re crore_pattern] in Hcrore. congruence. }
  destruct (re_search (pattern_re rupee_lakh_pattern) text_lower) as [m|] eqn:Hrl.
  { destruct (rupee_then_amount_then lakh_unit text_lower) as [m' Hm'].
    - exists m. exact Hrl.
    - cbn [pattern_re lakh_pattern] in Hlakh. congruence. }
  reflexivity.
Qed.

End BudgetClosedForm.

(** X1. [extract_budget_from_text] in closed form, for every text and any
    tables of the runtime.  If the lower-cased text holds an amount in
    crore anywhere, the result is the leftmost such amount, as [float]
    prints it, with [" Cr"], also when an amount in lakh comes first in
    the text; otherwise, if it holds an amount in lakh, the leftmost one
    with [" Lakh"]; otherwise [None].  The two patterns that begin with
    the currency sign never decide the result. *)
Theorem extract_budget_from_text_by_unit `{Unicode} (text : str) :
  match re_search (pattern_re crore_pattern) (lower text) with
  | Some m =>
      exists g amount,
        captured m = Some g /\ float_str g = Some amount
        /\ extract_budget_from_text text = Ok (Some (amount ++ utf8 " Cr"))
  | None =>
      match re_search (pattern_re lakh_pattern) (lower text) with
      | Some m =>
          exists g amount,
            captured m = Some g /\ float_str g = Some amount
            /\ extract_budget_from_text text = Ok (Some (amount ++ utf8 " Lakh"))
      | None => extract_budget_from_text text = Ok None
      end
  end.
Proof.
  unfold extract_budget_from_text. rewrite budget_loop_two.
  pose proof budget_patterns_well_formed as Hwf. unfold budget_patterns in Hwf.
  apply Forall_cons in Hwf as [[Hcrore _] Hwf].
  apply Forall_cons in Hwf as [[Hlakh _] _].
  assert (Hcr : contains (utf8 "cr") (pattern_src crore_pattern) = true)
    by (vm_compute; reflexivity).
  assert (Hl1 : contains (utf8 "cr") (pattern_src lakh_pattern) = false)
    by (vm_compute; reflexivity).
  assert (Hl2 : contains (utf8 "crore") (pattern_src lakh_pattern) = false)
    by (vm_compute; reflexivity).
  assert (Hl3 : contains (utf8 "lakh") (pattern_src lakh_pattern) = true)
    by (vm_compute; reflexivity).
  cbn [budget_loop].
  destruct (re_search (pattern_re crore_pattern) (lower text)) as [m|] eqn:Hm.
  - destruct (Hcrore _ _ Hm) as (g & Hg & Hd).
    destruct (float_str_of_decimal g Hd) as [amount Hamount].
    exists g, amount. rewrite Hg, Hamount, Hcr. auto.
  - destruct (re_search (pattern_re lakh_pattern) (lower text)) as [m|] eqn:Hm'.
    + destruct (Hlakh _ _ Hm') as (g & Hg & Hd).
      destruct (float_str_of_decimal g Hd) as [amount Hamount].
      exists g, amount. rewrite Hg, Hamount, Hl1, Hl2, Hl3. auto.
    + reflexivity.
Qed.

(** An amount in lakh, then one in crore: the crore amount is the budget. *)
Lemma extract_budget_from_text_by_unit_example :
  @extract_budget_from_text ascii_only (utf8 "50 lakh now, 1.2 Cr later")
  = Ok (Some (utf8 "1.2 Cr"))
  /\ @extract_budget_from_text ascii_only (utf8 "Rs 75 Lakhs") = Ok (Some (utf8 "75.0 Lakh")).
Proof. split; vm_compute; reflexivity. Qed.

(** ** Language detection *)


Section LanguageFacts.

Lemma gujarati_count_none text :
  Forall (fun c => c < 2688 \/ 2815 < c) text ->
  filter (fun c => Is_true ((2688 <=? c) && (c <=? 2815))) text = [].
Proof.
  induction 1 as [|c text Hc _ IH]; [reflexivity|].
  rewrite filter_cons, IH.
  destruct (decide (Is_true ((2688 <=? c) && (c <=? 2815)))) as [Hin|]; [|reflexivity].
  apply Is_true_true, andb_true_iff in Hin as [H1 H2].
  apply N.leb_le in H1, H2. lia.
Qed.

Lemma gujarati_count_all text :
  Forall (fun c => 2688 <= c /\ c <= 2815) text ->
  filter (fun c => Is_true ((2688 <=? c) && (c <=? 2815))) text = text.
Proof.
  induction 1 as [|c text [H1 H2] _ IH]; [reflexivity|].
  rewrite filter_cons, IH.
  destruct (decide (Is_true ((2688 <=? c) && (c <=? 2815)))) as [|Hout]; [reflexivity|].
  exfalso. apply Hout, Is_true_true, andb_true_iff.
  split; apply N.leb_le; assumption.
Qed.

End LanguageFacts.

(** X2. [detect_language] answers ['gujarati'] exactly when more than one
    character in five lies in the Gujarati block U+0A80..U+0AFF.  So a text
    with no such character (the empty text, digits, Latin letters, emoji) is
    English, and a non-empty text made only of such characters is
    Gujarati. *)
Theorem detect_language_threshold (text : str) :
  (detect_language text = gujarati
   <-> (length text < 5 * gujarati_chars text)%nat)
  /\ (detect_language text = gujarati \/ detect_language text = english)
  /\ (Forall (fun c => c < 2688 \/ 2815 < c) text -> detect_language text = english)
  /\ (text <> [] -> Forall (fun c => 2688 <= c /\ c <= 2815) text ->
      detect_language text = gujarati).
Proof.
  assert (Hne : english <> gujarati) by (intros E; vm_compute in E; discriminate E).
  assert (Hiff : detect_language text = gujarati
     <-> (length text < 5 * gujarati_chars text)%nat).
  { unfold detect_language, gujarati_chars.
    set (g := length (filter _ text)).
    assert (Hg : (g <= length text)%nat) by apply length_filter.
    clearbody g.
    destruct (bool_decide (0 < length text)%nat) eqn:Hlen; cbn [andb].
    - destruct (N.of_nat (length text) <? 5 * N.of_nat g) eqn:Hlt.
      + apply N.ltb_lt in Hlt. split; [intros _; lia | reflexivity].
      + apply N.ltb_ge in Hlt.
        split; [intros E; by destruct Hne | intros Hl; exfalso; lia].
    - apply bool_decide_eq_false in Hlen.
      split; [intros E; by destruct Hne | intros Hl; exfalso; lia]. }
  split; [exact Hiff|]. split; [|split].
  - unfold detect_language. destruct (_ && _); auto.
  - intros Hnone. unfold gujarati_chars in Hiff.
    rewrite (gujarati_count_none text Hnone) in Hiff.
    unfold detect_language in *. destruct (_ && _); [|reflexivity].
    exfalso. cbn [length] in Hiff. destruct Hiff as [Hiff _].
    specialize (Hiff eq_refl). lia.
  - intros Hnonempty Hall. apply Hiff. unfold gujarati_chars.
    rewrite (gujarati_count_all text Hall).
    destruct text; [congruence | cbn [length]; lia].
Qed.

(** ** The chat history of a turn *)


Section HistoryFacts.
Context `{Unicode} `{World} `{Config}.

Lemma silent_ret {A} (a : A) : silent (ret a).
Proof. intros t. reflexivity. Qed.

Lemma silent_raise {A} e : silent (@raise turn A e).
Proof. intros t. reflexivity. Qed.

Lemma silent_eval {A} (o : outcome A) : silent (eval o).
Proof. intros t. reflexivity. Qed.

Lemma silent_read {A} (f : conv_state -> A) : silent (read f).
Proof. intros t. reflexivity. Qed.

Lemma silent_io {A} (m : IO A) : silent (io m).
Proof. intros t. unfold io. destruct (m (trace t)). reflexivity. Qed.

Lemma silent_update f :
  (forall s, chat_history (f s) = chat_history s) -> silent (update f).
Proof. intros Hf t. exact (Hf (state t)). Qed.

Lemma silent_update_booking f : silent (update_booking f).
Proof. apply silent_update. intros s. reflexivity. Qed.

Lemma silent_bind {A B} (m : M turn A) (f : A -> M turn B) :
  silent m -> (forall a, silent (f a)) -> silent (bind m f).
Proof.
  intros Hm Hf t. unfold bind. specialize (Hm t).
  destruct (m t) as [[a|e] t']; cbn [snd] in *; [|exact Hm].
  rewrite (Hf a t'). exact Hm.
Qed.

Lemma replies_bind {A} (m : M turn A) (f : A -> M turn pyval) :
  silent m -> (forall a, replies (f a)) -> replies (bind m f).
Proof.
  intros Hm Hf t. unfold bind. specialize (Hm t).
  destruct (m t) as [[a|e] t']; cbn [snd] in *; [|exact Hm].
  specialize (Hf a t'). destruct (f a t') as [[reply|e] t'']; rewrite <- Hm; exact Hf.
Qed.

Lemma replies_raise e : replies (raise e).
Proof. intros t. reflexivity. Qed.

Lemma replies_reply (reply : pyval) :
  replies (bind (update (append_history (reply, false))) (fun _ => ret reply)).
Proof. intros t. reflexivity. Qed.

Lemma replies_say reply : replies (say reply).
Proof. exact (replies_reply (PStr reply)). Qed.

Lemma delivers_bind {A} (m : M turn A) (f : A -> M turn pyval) :
  silent m -> (forall a, delivers (f a)) -> delivers (bind m f).
Proof.
  intros Hm Hf t. unfold bind. specialize (Hm t).
  destruct (m t) as [[a|e] t']; cbn [snd] in *; [|exact Hm].
  specialize (Hf a t'). destruct (f a t') as [[reply|e] t'']; rewrite <- Hm; exact Hf.
Qed.

Lemma delivers_nothing : delivers (ret PNone).
Proof. intros t. left. split; reflexivity. Qed.

Lemma delivers_say reply : delivers (say reply).
Proof. intros t. right. split; [discriminate | reflexivity]. Qed.

Ltac turn_end :=
  repeat first
    [ match goal with
      | |- silent (ret _) => apply silent_ret
      | |- silent (raise _) => apply silent_raise
      | |- silent (eval _) => apply silent_eval
      | |- silent (read _) => apply silent_read
      | |- silent (io _) => apply silent_io
      | |- silent (update_booking _) => apply silent_update_booking
      | |- silent (update _) => apply silent_update; intros ?; reflexivity
      | |- replies (say _) => apply replies_say
      | |- replies (raise _) => apply replies_raise
      | |- replies (bind (update (append_history (?r, false))) (fun _ => ret ?r)) =>
          apply replies_reply
      | |- delivers (say _) => apply delivers_say
      | |- delivers (ret PNone) => apply delivers_nothing
      end
    | match goal with
      | |- silent (bind _ _) => apply silent_bind; [|intros ?]
      | |- replies (bind _ _) => apply replies_bind; [|intros ?]
      | |- delivers (bind _ _) => apply delivers_bind; [|intros ?]
      end
    | match goal with
      | |- silent (if ?b then _ else _) => destruct b
      | |- silent (match ?x with _ => _ end) => destruct x
      | |- replies (if ?b then _ else _) => destruct b
      | |- replies (match ?x with _ => _ end) => destruct x
      | |- delivers (if ?b then _ else _) => destruct b
      | |- delivers (match ?x with _ => _ end) => destruct x
      end ].

Lemma silent_drop_pending_confirmation : silent drop_pending_confirmation.
Proof. unfold drop_pending_confirmation. turn_end. Qed.

(** The default answer appends what Gemini gave, whatever it is. *)
Lemma replies_use_gemini message_text : replies (use_gemini message_text).
Proof. unfold use_gemini. turn_end. Qed.

Lemma replies_booking_step from_phone message_text user_lower :
  replies (booking_step from_phone message_text user_lower).
Proof.
  unfold booking_step. turn_end; try apply replies_use_gemini.
  - unfold step_name. turn_end.
  - unfold step_confirm_phone. turn_end.
  - unfold step_date. turn_end.
  - unfold step_time. turn_end.
  - unfold step_unit_type. turn_end.
  - unfold step_budget. turn_end.
Qed.

(** What a check appends once it has matched. *)
Lemma outcome_of_history c from_phone message_text user_lower :
  if document_check c
  then delivers (outcome_of c from_phone message_text user_lower)
  else replies (outcome_of c from_phone message_text user_lower).
Proof.
  destruct c; cbn [document_check outcome_of].
  - unfold capture_phone_number. turn_end.
  - unfold send_requested_brochure. turn_end.
  - unfold send_confirmed_brochure. turn_end.
  - apply replies_bind; [apply silent_drop_pending_confirmation|]. intros _.
    apply replies_say.
  - apply replies_bind; [apply silent_drop_pending_confirmation|]. intros _.
    unfold send_booking_form. turn_end.
  - apply replies_bind; [apply silent_drop_pending_confirmation|]. intros _.
    apply replies_booking_step.
  - apply replies_bind; [apply silent_drop_pending_confirmation|]. intros _.
    apply replies_use_gemini.
Qed.

(** A turn on a text: the inbound entry, then what the matched check
    appended. *)
Lemma process_turn_appends from_phone message_text t :
  match process_turn from_phone (PStr message_text) t with
  | (Ok reply, t') =>
      if document_check (first_matching_check (state t) (strip (lower message_text)))
      then (reply = PNone
            /\ chat_history (state t')
               = chat_history (state t) ++ [(PStr message_text, true)])
           \/ (reply <> PNone
               /\ chat_history (state t')
                  = chat_history (state t) ++ [(PStr message_text, true); (reply, false)])
      else chat_history (state t')
           = chat_history (state t) ++ [(PStr message_text, true); (reply, false)]
  | (Raise _, t') =>
      chat_history (state t') = chat_history (state t) ++ [(PStr message_text, true)]
  end.
Proof.
  rewrite process_turn_inbound, router_first_match, first_matching_check_inbound.
  pose proof (outcome_of_history
                (first_matching_check (state t) (strip (lower message_text)))
                from_phone message_text (strip (lower message_text))) as Hc.
  assert (Hin : forall entry,
            chat_history (state (inbound message_text t)) ++ [entry]
            = chat_history (state t) ++ [(PStr message_text, true); entry]).
  { intros entry. unfold inbound.
    cbn [state chat_history append_history set_chat_history].
    rewrite <- app_assoc. reflexivity. }
  destruct (document_check _); specialize (Hc (inbound message_text t)).
  - destruct (outcome_of _ _ _ _ _) as [[reply|e] t']; [|exact Hc].
    destruct Hc as [[Hreply Hc]|[Hreply Hc]].
    + left. split; [exact Hreply | exact Hc].
    + right. split; [exact Hreply|]. rewrite Hc. apply Hin.
  - destruct (outcome_of _ _ _ _ _) as [[reply|e] t']; [|exact Hc].
    rewrite Hc. apply Hin.
Qed.

End HistoryFacts.

(** X3. The chat history is append-only and records the turn.  A call of
    [process_incoming_message] with a text appends the text as the user's
    entry, after the entries from before the call, which stay in place.
    When the check that matches is the default answer, the hand-off, the
    booking form or a booking step, whatever the call returns is the entry
    after it, marked as the bot's: a returned [None] too, which is what
    Gemini's [null] text gives.  When the check is one that sends the
    brochure, the call returns [None] and nothing else is appended, or it
    returns a text, which is the entry after the user's.  When the call
    raises, nothing else is appended. *)
Theorem history_records_the_turn `{Unicode} `{World} `{Config}
    (from_phone message_id : pyval) (message_text : str) (m : machine) (k : key) :
  hash_key from_phone = Ok k ->
  let s := default (new_state from_phone) (CONV_STATE m !! k) in
  let before := chat_history s in
  exists r s' sent,
    process_incoming_message from_phone (PStr message_text) message_id m
    = (r, Machine (<[k := s']> (CONV_STATE m)) sent)
    /\ match r with
       | Ok reply =>
           if document_check (first_matching_check s (strip (lower message_text)))
           then (reply = PNone
                 /\ chat_history s' = before ++ [(PStr message_text, true)])
                \/ (reply <> PNone
                    /\ chat_history s'
                       = before ++ [(PStr message_text, true); (reply, false)])
           else chat_history s' = before ++ [(PStr message_text, true); (reply, false)]
       | Raise _ => chat_history s' = before ++ [(PStr message_text, true)]
       end.
Proof.
  intros Hk s before. unfold process_incoming_message. rewrite Hk.
  pose proof (process_turn_appends from_phone message_text (Turn s (events m))) as Hturn.
  fold s. destruct (process_turn _ _ _) as [r t'].
  exists r, (state t'), (trace t'). split; [reflexivity|]. exact Hturn.
Qed.

(** A first message that asks for the price.  In a world that answers
    nothing the history holds the question and the apology; in a world
    where Gemini's text is [null] the call returns [None] and the history
    holds the question and [(None, False)]. *)
Lemma history_records_the_turn_witness :
  (exists r s' sent,
     @process_incoming_message ascii_only unreachable_world sample_config
       (PStr (utf8 "919876543210")) (PStr (utf8 "What is the price?"))
       (PStr (utf8 "wamid.1")) start
     = (r, Machine (<[KStr (utf8 "919876543210") := s']> ∅) sent)
     /\ r = Ok (PStr gemini_apology)
     /\ chat_history s'
        = [(PStr (utf8 "What is the price?"), true); (PStr gemini_apology, false)])
  /\ (exists r s' sent,
        @process_incoming_message ascii_only null_text_world sample_config
          (PStr (utf8 "919876543210")) (PStr (utf8 "What is the price?"))
          (PStr (utf8 "wamid.1")) start
        = (r, Machine (<[KStr (utf8 "919876543210") := s']> ∅) sent)
        /\ r = Ok PNone
        /\ chat_history s' = [(PStr (utf8 "What is the price?"), true); (PNone, false)]).
Proof.
  split.
  - destruct (@history_records_the_turn ascii_only unreachable_world sample_config
                (PStr (utf8 "919876543210")) (PStr (utf8 "wamid.1"))
                (utf8 "What is the price?") start (KStr (utf8 "919876543210")) eq_refl)
      as (r & s' & sent & Hrun & Hhistory).
    exists r, s', sent. split; [exact Hrun|].
    assert (Hr : r = Ok (PStr gemini_apology)).
    { apply (f_equal fst) in Hrun. cbn [fst] in Hrun. rewrite <- Hrun.
      vm_compute. reflexivity. }
    split; [exact Hr|]. rewrite Hr in Hhistory. exact Hhistory.
  - destruct (@history_records_the_turn ascii_only null_text_world sample_config
                (PStr (utf8 "919876543210")) (PStr (utf8 "wamid.1"))
                (utf8 "What is the price?") start (KStr (utf8 "919876543210")) eq_refl)
      as (r & s' & sent & Hrun & Hhistory).
    exists r, s', sent. split; [exact Hrun|].
    assert (Hr : r = Ok PNone).
    { apply (f_equal fst) in Hrun. cbn [fst] in Hrun. rewrite <- Hrun.
      vm_compute. reflexivity. }
    split; [exact Hr|]. rewrite Hr in Hhistory. exact Hhistory.
Defined.

(** ** What a turn leaves alone *)


Section KeepsFacts.
Context `{Unicode} `{World} `{Config}.

Section Rules.
Variable I : conv_state -> Prop.

Lemma kept_ret {A} (a : A) : keeps I (ret a).
Proof. intros t Ht. exact Ht. Qed.

Lemma kept_raise {A} e : keeps I (@raise turn A e).
Proof. intros t Ht. exact Ht. Qed.

Lemma kept_eval {A} (o : outcome A) : keeps I (eval o).
Proof. intros t Ht. exact Ht. Qed.

Lemma kept_read {A} (f : conv_state -> A) : keeps I (read f).
Proof. intros t Ht. exact Ht. Qed.

Lemma kept_io {A} (m : IO A) : keeps I (io m).
Proof. intros t Ht. unfold io. destruct (m (trace t)). exact Ht. Qed.

Lemma kept_update f : (forall s, I s -> I (f s)) -> keeps I (update f).
Proof. intros Hf t Ht. exact (Hf _ Ht). Qed.

Lemma kept_bind {A B} (m : M turn A) (f : A -> M turn B) :
  keeps I m -> (forall a, keeps I (f a)) -> keeps I (bind m f).
Proof.
  intros Hm Hf t Ht. unfold bind. specialize (Hm t Ht).
  destruct (m t) as [[a|e] t']; cbn [snd] in *; [exact (Hf a t' Hm) | exact Hm].
Qed.

Hypothesis I_mode : forall s, I s -> lead_capture_mode s = None.
Hypothesis I_history : forall s entry, I s -> I (append_history entry s).
Hypothesis I_drop : forall s, I s -> I (set_asked_about_brochure false s).

Lemma kept_say reply : keeps I (say reply).
Proof.
  unfold say. apply kept_bind; [|intros; apply kept_ret].
  apply kept_update. intros s Hs. apply I_history, Hs.
Qed.

Ltac kept :=
  repeat first
    [ match goal with
      | |- keeps I (ret _) => apply kept_ret
      | |- keeps I (raise _) => apply kept_raise
      | |- keeps I (eval _) => apply kept_eval
      | |- keeps I (read _) => apply kept_read
      | |- keeps I (io _) => apply kept_io
      | |- keeps I (say _) => apply kept_say
      | |- keeps I (update (append_history _)) =>
          apply kept_update; intros ? ?; apply I_history; assumption
      | |- keeps I (update (set_asked_about_brochure false)) =>
          apply kept_update; intros ? ?; apply I_drop; assumption
      end
    | match goal with
      | |- keeps I (bind _ _) => apply kept_bind; [|intros ?]
      end
    | match goal with
      | |- keeps I (if ?b then _ else _) => destruct b
      | |- keeps I (match ?x with _ => _ end) => destruct x
      end ].

Lemma kept_use_gemini message_text : keeps I (use_gemini message_text).
Proof. unfold use_gemini. kept. Qed.

Lemma kept_booking_form_submission from_phone message_text user_lower :
  keeps I (booking_form_submission from_phone message_text user_lower).
Proof.
  intros t Ht. rewrite booking_steps_skipped by (apply I_mode, Ht).
  exact (kept_use_gemini message_text t Ht).
Qed.

Lemma kept_whatsapp_contact_request from_phone message_text user_lower :
  keeps I (whatsapp_contact_request from_phone message_text user_lower).
Proof.
  unfold whatsapp_contact_request. kept.
  unfold site_visit_booking. kept.
  - unfold send_booking_form. kept.
  - apply kept_booking_form_submission.
Qed.

Lemma kept_affirmative_response_to_brochure from_phone message_text user_lower :
  keeps I (affirmative_response_to_brochure from_phone message_text user_lower).
Proof.
  unfold affirmative_response_to_brochure. kept.
  - unfold send_confirmed_brochure. kept.
  - apply kept_whatsapp_contact_request.
  - apply kept_whatsapp_contact_request.
Qed.

End Rules.

(** After the check for a pending confirmation, none is pending. *)
Lemma affirmative_response_clears from_phone message_text user_lower t :
  lead_capture_mode (state t) = None ->
  asked_about_brochure
    (state (snd (affirmative_response_to_brochure from_phone message_text user_lower t)))
  = false.
Proof.
  intros Hmode.
  assert (Hmode' : forall s, nothing_pending s -> lead_capture_mode s = None)
    by (intros s Hs; exact (proj1 Hs)).
  assert (Hhistory : forall s entry, nothing_pending s -> nothing_pending (append_history entry s))
    by (intros s entry Hs; exact Hs).
  assert (Hdrop : forall s, nothing_pending s -> nothing_pending (set_asked_about_brochure false s))
    by (intros s Hs; split; [exact (proj1 Hs) | reflexivity]).
  pose proof (kept_affirmative_response_to_brochure nothing_pending Hmode' Hhistory Hdrop
                from_phone message_text user_lower) as Hkept.
  destruct (asked_about_brochure (state t)) eqn:Hasked.
  - unfold affirmative_response_to_brochure.
    rewrite bind_read_at, Hasked, bind_update_at.
    set (t1 := Turn (set_asked_about_brochure false (state t)) (trace t)).
    assert (Hnp : nothing_pending (state t1)) by (split; [exact Hmode | reflexivity]).
    destruct (any_in affirmative_patterns user_lower).
    + unfold send_confirmed_brochure.
      assert (Hk : keeps nothing_pending
                (success <- io (send_whatsapp_document from_phone BROCHURE_MEDIA_ID) ;;
                 if negb success then say brochure_whatsapp_issue_reply else ret PNone)).
      { apply kept_bind; [apply kept_io|]. intros success.
        destruct (negb success);
          [apply kept_say; exact Hhistory | apply kept_ret]. }
      exact (proj2 (Hk t1 Hnp)).
    + exact (proj2 (kept_whatsapp_contact_request nothing_pending Hmode' Hhistory
                      from_phone message_text user_lower t1 Hnp)).
  - exact (proj2 (Hkept t (conj Hmode Hasked))).
Qed.

(** A turn on a state outside the capture modes. *)
Lemma turn_without_capture_mode from_phone message_text t :
  lead_capture_mode (state t) = None ->
  let s' := state (snd (process_turn from_phone (PStr message_text) t)) in
  settled (user_phone (state t)) (booking_info (state t)) (detect_language message_text) s'
  /\ asked_about_brochure s' = any_in brochure_keywords (strip (lower message_text)).
Proof.
  intros Hmode s'. subst s'. rewrite process_turn_inbound.
  set (t0 := inbound message_text t).
  assert (Hsettled : settled (user_phone (state t)) (booking_info (state t))
                       (detect_language message_text) (state t0))
    by (repeat split; exact Hmode).
  rewrite phone_capture_skipped by exact Hmode.
  unfold brochure_request.
  destruct (any_in brochure_keywords (strip (lower message_text))).
  - rewrite send_requested_brochure_at. cbn zeta.
    destruct (accepted _); [split; [exact Hsettled | reflexivity]|].
    unfold say. rewrite bind_update_at. split; [exact Hsettled | reflexivity].
  - split.
    + apply (kept_affirmative_response_to_brochure
               (settled (user_phone (state t)) (booking_info (state t))
                  (detect_language message_text))).
      * intros s Hs. exact (proj1 Hs).
      * intros s entry Hs. exact Hs.
      * intros s Hs. exact Hs.
      * exact Hsettled.
    + apply affirmative_response_clears. exact Hmode.
Qed.

Lemma process_incoming_message_untouched_drafts from_phone message_text message_id m :
  untouched_drafts m ->
  untouched_drafts (snd (process_incoming_message from_phone message_text message_id m)).
Proof.
  intros Hm. unfold process_incoming_message.
  destruct (hash_key from_phone) as [k|e] eqn:Hk; [|exact Hm].
  set (s0 := default (new_state from_phone) (CONV_STATE m !! k)).
  assert (Hstart : lead_capture_mode s0 = None /\ booking_info s0 = empty_booking
               /\ hash_key (user_phone s0) = Ok k).
  { subst s0. destruct (CONV_STATE m !! k) as [s|] eqn:Hs; cbn [default from_option];
      [exact (Hm k s Hs) | repeat split; exact Hk]. }
  destruct Hstart as (Hmode & Hdraft & Hphone).
  assert (Hturn : let s' := state (snd (process_turn from_phone message_text (Turn s0 (events m)))) in
                  lead_capture_mode s' = None /\ booking_info s' = empty_booking
                  /\ hash_key (user_phone s') = Ok k).
  { destruct message_text as [| | |text| |];
      try (cbn [process_turn raise snd state]; repeat split; assumption).
    destruct (turn_without_capture_mode from_phone text (Turn s0 (events m)) Hmode)
      as [(Hm1 & Hm2 & Hm3 & _) _].
    cbn [state] in *. rewrite Hm1, Hm2, Hm3. repeat split; assumption. }
  destruct (process_turn _ _ _) as [r t']. cbn [snd] in *.
  intros k' s'. cbn [CONV_STATE]. destruct (decide (k = k')) as [<-|Hne].
  - rewrite lookup_insert_eq. intros [= <-]. exact Hturn.
  - rewrite lookup_insert_ne by assumption. apply Hm.
Qed.

Lemma reachable_untouched_drafts m : reachable m -> untouched_drafts m.
Proof.
  induction 1 as [tr|m from_phone message_text message_id _ IH].
  - intros k s Hk. cbn [CONV_STATE] in Hk. rewrite lookup_empty in Hk. discriminate.
  - apply process_incoming_message_untouched_drafts. exact IH.
Qed.

End KeepsFacts.

(** X4. After a call on a text, in any process started from an empty
    [CONV_STATE]: the sender's language is the one detected in this very
    message, and a document confirmation is pending exactly when this
    message held a document keyword (so a pending confirmation lasts for one
    message only); whether the call returned or raised; and no other
    sender's state has changed. *)
Theorem call_sets_language_and_flag `{Unicode} `{World} `{Config}
    (from_phone message_id : pyval) (message_text : str) (m : machine) (k : key) :
  reachable m ->
  hash_key from_phone = Ok k ->
  let m' := snd (process_incoming_message from_phone (PStr message_text) message_id m) in
  (exists s',
      CONV_STATE m' !! k = Some s'
      /\ language s' = detect_language message_text
      /\ asked_about_brochure s'
         = any_in brochure_keywords (strip (lower message_text)))
  /\ (forall k', k' <> k -> CONV_STATE m' !! k' = CONV_STATE m !! k').
Proof.
  intros Hreach Hk m'. subst m'.
  rewrite (process_incoming_message_at _ _ _ _ _ Hk).
  set (s0 := default (new_state from_phone) (CONV_STATE m !! k)).
  assert (Hmode : lead_capture_mode s0 = None).
  { subst s0. destruct (CONV_STATE m !! k) as [s|] eqn:Hs; cbn [default from_option];
      [exact (reachable_no_capture_mode m Hreach k s Hs) | reflexivity]. }
  destruct (turn_without_capture_mode from_phone message_text (Turn s0 (events m)) Hmode)
    as [(_ & _ & _ & Hlanguage) Hflag].
  destruct (process_turn _ _ _) as [r t']. cbn [snd CONV_STATE state] in *.
  split.
  - exists (state t'). split; [apply lookup_insert_eq|]. split; assumption.
  - intros k' Hne. apply lookup_insert_ne. congruence.
Qed.

(** A Gujarati greeting after a request for the brochure: the language
    turns, and the confirmation is no longer pending. *)
Lemma call_sets_language_and_flag_witness :
  let m := snd (@process_incoming_message ascii_only obliging_world sample_config
                  (PStr (utf8 "919876543210")) (PStr (utf8 "Can you send the brochure"))
                  (PStr (utf8 "wamid.1")) start) in
  let m' := snd (@process_incoming_message ascii_only obliging_world sample_config
                   (PStr (utf8 "919876543210")) (PStr [2728; 2734; 2744; 2765; 2724; 2759])
                   (PStr (utf8 "wamid.2")) m) in
  (asked_about_brochure <$> CONV_STATE m !! KStr (utf8 "919876543210")) = Some true
  /\ exists s', CONV_STATE m' !! KStr (utf8 "919876543210") = Some s'
               /\ language s' = gujarati /\ asked_about_brochure s' = false.
Proof.
  intros m m'. split; [vm_compute; reflexivity|].
  assert (Hreach : @reachable ascii_only obliging_world sample_config m)
    by (apply reachable_call; apply reachable_start).
  destruct (@call_sets_language_and_flag ascii_only obliging_world sample_config
              (PStr (utf8 "919876543210")) (PStr (utf8 "wamid.2"))
              [2728; 2734; 2744; 2765; 2724; 2759] m (KStr (utf8 "919876543210"))
              Hreach eq_refl)
    as [(s' & Hs' & Hlanguage & Hflag) _].
  exists s'. split; [exact Hs'|]. split.
  - rewrite Hlanguage. vm_compute. reflexivity.
  - rewrite Hflag. vm_compute. reflexivity.
Defined.

(** X5. In any process started from an empty [CONV_STATE], whatever was
    received: every conversation's booking draft is empty (no step of the
    booking dialogue ever runs, so no name, date or budget is stored) and
    the phone recorded for a conversation is the sender's own. *)
Theorem drafts_stay_empty `{Unicode} `{World} `{Config} (m : machine) :
  reachable m ->
  forall k s, CONV_STATE m !! k = Some s ->
    booking_info s = empty_booking /\ hash_key (user_phone s) = Ok k.
Proof.
  intros Hreach k s Hs.
  destruct (reachable_untouched_drafts m Hreach k s Hs) as (_ & Hdraft & Hphone).
  split; assumption.
Qed.

(** A sender who names a budget and then another phone number. *)
Lemma drafts_stay_empty_witness :
  let m := snd (@process_incoming_message ascii_only obliging_world sample_config
                  (PStr (utf8 "919876543210")) (PStr (utf8 "My budget is 1.5 Cr"))
                  (PStr (utf8 "wamid.1")) start) in
  let m' := snd (@process_incoming_message ascii_only obliging_world sample_config
                   (PStr (utf8 "919876543210")) (PStr (utf8 "Call me on 9876500000"))
                   (PStr (utf8 "wamid.2")) m) in
  exists s, CONV_STATE m' !! KStr (utf8 "919876543210") = Some s
            /\ booking_info s = empty_booking
            /\ user_phone s = PStr (utf8 "919876543210").
Proof.
  intros m m'.
  assert (Hreach : @reachable ascii_only obliging_world sample_config m')
    by (do 2 apply reachable_call; apply reachable_start).
  destruct (CONV_STATE m' !! KStr (utf8 "919876543210")) as [s|] eqn:Hs;
    [|vm_compute in Hs; discriminate].
  exists s. split; [reflexivity|].
  destruct (@drafts_stay_empty ascii_only obliging_world sample_config m' Hreach _ _ Hs)
    as [Hdraft Hphone].
  split; [exact Hdraft|].
  destruct (user_phone s) as [| | |p| |]; try discriminate Hphone.
  injection Hphone as ->. reflexivity.
Defined.

(** ** What a turn sends *)


Section EventFacts.
Context `{Unicode} `{World} `{Config}.

Lemma emits_nothing {A} (m : M turn A) :
  (forall t, trace (snd (m t)) = trace t) -> emits m.
Proof. intros Hm t. exists []. rewrite app_nil_r. split; [apply Hm | reflexivity]. Qed.

Lemma emits_ret {A} (a : A) : emits (ret a).
Proof. apply emits_nothing. reflexivity. Qed.

Lemma emits_raise {A} e : emits (@raise turn A e).
Proof. apply emits_nothing. reflexivity. Qed.

Lemma emits_eval {A} (o : outcome A) : emits (eval o).
Proof. apply emits_nothing. reflexivity. Qed.

Lemma emits_read {A} (f : conv_state -> A) : emits (read f).
Proof. apply emits_nothing. reflexivity. Qed.

Lemma emits_update f : emits (update f).
Proof. apply emits_nothing. reflexivity. Qed.

Lemma emits_update_booking f : emits (update_booking f).
Proof. apply emits_update. Qed.

Lemma emits_io {A} (m : IO A) : calls m -> emits (io m).
Proof.
  intros Hm t. destruct (Hm (trace t)) as (new & Hnew & Hall).
  exists new. unfold io. destruct (m (trace t)) as [r tr]. split; [exact Hnew | exact Hall].
Qed.

Lemma emits_bind {A B} (m : M turn A) (f : A -> M turn B) :
  emits m -> (forall a, emits (f a)) -> emits (bind m f).
Proof.
  intros Hm Hf t. unfold bind. destruct (Hm t) as (new1 & Hnew1 & Hall1).
  destruct (m t) as [[a|e] t']; cbn [snd] in *; [|exists new1; split; assumption].
  destruct (Hf a t') as (new2 & Hnew2 & Hall2).
  exists (new1 ++ new2). split.
  - rewrite Hnew2, Hnew1, app_assoc. reflexivity.
  - rewrite forallb_app, Hall1, Hall2. reflexivity.
Qed.

Lemma emits_say reply : emits (say reply).
Proof. apply emits_nothing. reflexivity. Qed.

Lemma calls_send_whatsapp_document to_phone document_id :
  calls (send_whatsapp_document to_phone document_id).
Proof.
  intros tr. rewrite send_whatsapp_document_at.
  exists [Post (SendDocument to_phone document_id)]. split; reflexivity.
Qed.

Lemma calls_call_gemini_api p language : calls (call_gemini_api p language).
Proof.
  intros tr. rewrite call_gemini_api_unfolded. cbn zeta.
  destruct api_key_configured; [|exists []; rewrite app_nil_r; split; reflexivity].
  destruct (response_text (requests_post tr (GenerateContent p))).
  - exists [Post (GenerateContent p)]. split; reflexivity.
  - destruct (response_text _);
      exists [Post (GenerateContent p); Sleep 2; Post (GenerateContent p)];
      split; reflexivity.
Qed.

Ltac emitted :=
  repeat first
    [ match goal with
      | |- emits (ret _) => apply emits_ret
      | |- emits (raise _) => apply emits_raise
      | |- emits (eval _) => apply emits_eval
      | |- emits (read _) => apply emits_read
      | |- emits (say _) => apply emits_say
      | |- emits (update_booking _) => apply emits_update_booking
      | |- emits (update _) => apply emits_update
      | |- emits (io (send_whatsapp_document _ _)) =>
          apply emits_io, calls_send_whatsapp_document
      | |- emits (io (call_gemini_api _ _)) => apply emits_io, calls_call_gemini_api
      end
    | match goal with
      | |- emits (bind _ _) => apply emits_bind; [|intros ?]
      end
    | match goal with
      | |- emits (if ?b then _ else _) => destruct b
      | |- emits (match ?x with _ => _ end) => destruct x
      end ].

Lemma emits_use_gemini message_text : emits (use_gemini message_text).
Proof. unfold use_gemini. emitted. Qed.

Lemma emits_booking_step from_phone message_text user_lower :
  emits (booking_step from_phone message_text user_lower).
Proof.
  unfold booking_step. emitted; try apply emits_use_gemini.
  - unfold step_name. emitted.
  - unfold step_confirm_phone. emitted.
  - unfold step_date. emitted.
  - unfold step_time. emitted.
  - unfold step_unit_type. emitted.
  - unfold step_budget. emitted.
Qed.

Lemma emits_whatsapp_contact_request from_phone message_text user_lower :
  emits (whatsapp_contact_request from_phone message_text user_lower).
Proof.
  unfold whatsapp_contact_request. emitted.
  unfold site_visit_booking. emitted.
  - unfold send_booking_form. emitted.
  - unfold booking_form_submission. emitted.
    + apply emits_booking_step.
    + apply emits_use_gemini.
Qed.

Lemma emits_phone_number_for_brochure from_phone message_text user_lower :
  emits (phone_number_for_brochure from_phone message_text user_lower).
Proof.
  unfold phone_number_for_brochure. emitted.
  - unfold capture_phone_number. emitted.
  - unfold brochure_request. emitted.
    + unfold send_requested_brochure. emitted.
    + unfold affirmative_response_to_brochure. emitted.
      * unfold send_confirmed_brochure. emitted.
      * apply emits_whatsapp_contact_request.
      * apply emits_whatsapp_contact_request.
Qed.

Lemma emits_process_turn from_phone message_text :
  emits (process_turn from_phone message_text).
Proof.
  unfold process_turn. destruct message_text; try apply emits_raise.
  emitted. apply emits_phone_number_for_brochure.
Qed.

Lemma process_incoming_message_events from_phone message_text message_id m :
  exists new,
    events (snd (process_incoming_message from_phone message_text message_id m))
    = events m ++ new
    /\ forallb turn_event new = true.
Proof.
  unfold process_incoming_message.
  destruct (hash_key from_phone) as [k|e];
    [|exists []; rewrite app_nil_r; split; reflexivity].
  destruct (emits_process_turn from_phone message_text
              (Turn (default (new_state from_phone) (CONV_STATE m !! k)) (events m)))
    as (new & Hnew & Hall).
  destruct (process_turn _ _ _) as [r t']. exists new. split; assumption.
Qed.

End EventFacts.

(** X6. One reply per message, sent last.  For a text message with a
    non-empty body, [webhook]'s loop body posts the read receipt first, then
    runs the turn, whose own events are only document sends, Gemini requests
    and the pause before a retry, and then posts exactly one text message to
    the sender carrying whatever the turn returned; it does so whether or not
    the transport accepts that message.  When the turn raises, no text is
    posted. *)
Theorem one_reply_per_message `{Unicode} `{World} `{Config}
    (from_phone message_id body : pyval) (m : machine) :
  truthy body = true ->
  exists r m1 new,
    process_incoming_message from_phone body message_id
      (Machine (CONV_STATE m) (events m ++ [Post (MarkRead message_id)]))
    = (r, m1)
    /\ events m1 = events m ++ [Post (MarkRead message_id)] ++ new
    /\ forallb turn_event new = true
    /\ handle_message (text_message from_phone message_id body) m
       = match r with
         | Ok reply =>
             (Ok tt, Machine (CONV_STATE m1)
                       (events m ++ [Post (MarkRead message_id)] ++ new
                        ++ [Post (SendText from_phone reply)]))
         | Raise e => (Raise e, m1)
         end.
Proof.
  intros Hbody.
  set (m0 := Machine (CONV_STATE m) (events m ++ [Post (MarkRead message_id)])).
  destruct (process_incoming_message_events from_phone body message_id m0)
    as (new & Hnew & Hall).
  destruct (process_incoming_message from_phone body message_id m0) as [r m1] eqn:Hrun.
  cbn [snd] in Hnew. subst m0. cbn [events] in Hnew.
  exists r, m1, new. split; [reflexivity|].
  split; [rewrite Hnew, <- app_assoc; reflexivity|]. split; [exact Hall|].
  rewrite handle_text_message, Hbody.
  rewrite bind_world_at. unfold mark_message_as_read, bind at 1, post, ret.
  unfold bind at 1. rewrite Hrun.
  destruct r as [reply|e]; [|reflexivity].
  rewrite bind_world_at, send_whatsapp_text_at.
  rewrite Hnew, <- !app_assoc. reflexivity.
Qed.

(** "hello" from a new sender in a world that answers nothing: the read
    receipt, two Gemini requests around the pause, the apology. *)
Lemma one_reply_per_message_witness :
  exists m1,
    @handle_message ascii_only unreachable_world sample_config
      (text_message (PStr (utf8 "919876543210")) (PStr (utf8 "wamid.1")) (PStr (utf8 "hello")))
      start
    = (Ok tt, m1)
    /\ head (events m1) = Some (Post (MarkRead (PStr (utf8 "wamid.1"))))
    /\ last (events m1)
       = Some (Post (SendText (PStr (utf8 "919876543210")) (PStr gemini_apology)))
    /\ length (events m1) = 5%nat.
Proof.
  destruct (@one_reply_per_message ascii_only unreachable_world sample_config
              (PStr (utf8 "919876543210")) (PStr (utf8 "wamid.1")) (PStr (utf8 "hello"))
              start eq_refl)
    as (r & m1 & new & Hrun & Hnew & _ & Hhandle).
  vm_compute in Hrun. injection Hrun as <- <-.
  vm_compute in Hnew. injection Hnew as <-.
  cbv beta iota in Hhandle.
  eexists. split; [exact Hhandle|]. vm_compute. repeat split; reflexivity.
Defined.

(** ** What the webhook reads from a message *)


Section MessageFacts.
Context `{Unicode} `{World} `{Config}.

(** The loop body on a message that is a JSON object: sender, id and type
    are read with defaults, and only the text decides what happens. *)
Lemma handle_message_fields fields m :
  handle_message (PDict fields) m
  = let from_phone := default PNone (dict_lookup (utf8 "from") fields) in
    let message_id := default PNone (dict_lookup (utf8 "id") fields) in
    let msg_type := default PNone (dict_lookup (utf8 "type") fields) in
    match message_text_of (PDict fields) msg_type with
    | Raise e => (Raise e, m)
    | Ok text =>
        if truthy text
        then (world (mark_message_as_read message_id) ;;
              response_text <- process_incoming_message from_phone text message_id ;;
              world (send_whatsapp_text from_phone response_text) ;;
              ret tt) m
        else (Ok tt, m)
    end.
Proof.
  unfold handle_message. cbn [py_get]. rewrite !bind_eval_at. cbn zeta.
  destruct (message_text_of _ _) as [text|e];
    [rewrite bind_eval_at | rewrite bind_eval_raise_at; reflexivity].
  destruct (truthy text); reflexivity.
Qed.

Lemma message_text_of_unread_type message msg_type :
  py_eq_str msg_type (utf8 "text") = false ->
  py_eq_str msg_type (utf8 "button") = false ->
  py_eq_str msg_type (utf8 "interactive") = false ->
  message_text_of message msg_type = Ok (PStr []).
Proof. intros H1' H2' H3'. unfold message_text_of. rewrite H1', H2', H3'. reflexivity. Qed.

Lemma handle_message_unread_type message m :
  unread_type message -> handle_message message m = (Ok tt, m).
Proof.
  intros (fields & -> & Htext & Hbutton & Hinteractive).
  rewrite handle_message_fields. cbn zeta.
  rewrite (message_text_of_unread_type _ _ Htext Hbutton Hinteractive). reflexivity.
Qed.


End MessageFacts.

(** X7. A message from which no text is extracted is dropped: no read
    receipt, no reply, no conversation state, and the loop goes on.  That is
    so for a text with an empty body and for every message whose type is
    not [text], [button] or [interactive] (an image, a location, a
    sticker). *)
Theorem messages_without_text_are_dropped `{Unicode} `{World} `{Config}
    (fields : list (str * pyval)) (m : machine) :
  let message := PDict fields in
  let msg_type := default PNone (dict_lookup (utf8 "type") fields) in
  (forall text, message_text_of message msg_type = Ok text -> truthy text = false ->
     handle_message message m = (Ok tt, m))
  /\ (unread_type message -> handle_message message m = (Ok tt, m))
  /\ (forall from_phone message_id media_id,
        handle_message (image_message from_phone message_id media_id) m = (Ok tt, m)).
Proof.
  intros message msg_type. split; [|split].
  - intros text Htext Hfalse. subst message msg_type.
    rewrite handle_message_fields. cbn zeta. rewrite Htext, Hfalse. reflexivity.
  - apply handle_message_unread_type.
  - intros from_phone message_id media_id. apply handle_message_unread_type.
    eexists. split; [reflexivity|]. vm_compute. repeat split; reflexivity.
Qed.

(** X8. The webhook handles a message by its sender, its id and the text
    extracted from it, and by nothing else: a button press and the title of
    a button or list reply are processed exactly as if the user had typed
    that text. *)
Theorem reply_titles_are_text `{Unicode} `{World} `{Config}
    (fields : list (str * pyval)) (text : pyval) (m : machine) :
  let from_phone := default PNone (dict_lookup (utf8 "from") fields) in
  let message_id := default PNone (dict_lookup (utf8 "id") fields) in
  let msg_type := default PNone (dict_lookup (utf8 "type") fields) in
  message_text_of (PDict fields) msg_type = Ok text ->
  handle_message (PDict fields) m
  = handle_message (text_message from_phone message_id text) m.
Proof.
  intros from_phone message_id msg_type Htext.
  rewrite handle_message_fields, handle_text_message. cbn zeta.
  fold from_phone message_id msg_type. rewrite Htext. reflexivity.
Qed.

(** A "Book site visit" button and the same words picked from a list. *)
Lemma reply_titles_are_text_witness :
  @handle_message ascii_only obliging_world sample_config
    (button_message (PStr (utf8 "919876543210")) (PStr (utf8 "wamid.1"))
       (PStr (utf8 "Book site visit"))) start
  = @handle_message ascii_only obliging_world sample_config
      (text_message (PStr (utf8 "919876543210")) (PStr (utf8 "wamid.1"))
         (PStr (utf8 "Book site visit"))) start
  /\ @handle_message ascii_only obliging_world sample_config
       (list_reply_message (PStr (utf8 "919876543210")) (PStr (utf8 "wamid.1"))
          (PStr (utf8 "row-1")) (PStr (utf8 "Book site visit"))) start
     = @handle_message ascii_only obliging_world sample_config
         (text_message (PStr (utf8 "919876543210")) (PStr (utf8 "wamid.1"))
            (PStr (utf8 "Book site visit"))) start.
Proof.
  split.
  - unfold button_message.
    match goal with
    | |- handle_message (PDict ?fields) _ = _ =>
        exact (@reply_titles_are_text ascii_only obliging_world sample_config fields
                 (PStr (utf8 "Book site visit")) start eq_refl)
    end.
  - unfold list_reply_message.
    match goal with
    | |- handle_message (PDict ?fields) _ = _ =>
        exact (@reply_titles_are_text ascii_only obliging_world sample_config fields
                 (PStr (utf8 "Book site visit")) start eq_refl)
    end.
Defined.



(** ** The booking ledger, row by row *)


Section LedgerRows.
Context `{World} `{Sheets}.

Lemma process_record_has_status all_records record p :
  has_status record -> process_record all_records record p = (Ok tt, p).
Proof.
  intros (fields & -> & Hstatus). unfold process_record. cbn [py_get].
  rewrite bind_eval_at. unfold cell in Hstatus. rewrite Hstatus. reflexivity.
Qed.

Lemma process_record_incomplete all_records record p :
  incomplete record -> process_record all_records record p = (Ok tt, p).
Proof.
  intros (fields & phone & -> & Hstatus & Hphone & Hmissing).
  unfold process_record. cbn [py_get]. unfold cell in *.
  rewrite bind_eval_at, Hstatus. cbn [negb].
  rewrite !bind_eval_at. rewrite Hphone, bind_eval_at, Hmissing. reflexivity.
Qed.

Lemma process_record_passed_over all_records record p :
  passed_over record -> process_record all_records record p = (Ok tt, p).
Proof.
  intros [Hs|Hi];
    [apply process_record_has_status | apply process_record_incomplete]; assumption.
Qed.

Lemma for_each_passed_over all_records records :
  Forall passed_over records ->
  forall p, for_each records (process_record all_records) p = (Ok tt, p).
Proof.
  induction 1 as [|record records Hr _ IH]; intros p; cbn [for_each]; [reflexivity|].
  unfold bind. rewrite (process_record_passed_over _ _ _ Hr). apply IH.
Qed.

Lemma for_each_app {S A} (body : A -> M S unit) before after :
  forall s s1,
    for_each before body s = (Ok tt, s1) ->
    for_each (before ++ after) body s = for_each after body s1.
Proof.
  induction before as [|x before IH]; intros s s1 Hbefore; cbn [for_each app] in *.
  - injection Hbefore as <-. reflexivity.
  - unfold bind in *. destruct (body x s) as [[[]|e] s']; [|discriminate].
    exact (IH _ _ Hbefore).
Qed.

(** A new row whose phone is not text: formatting it raises. *)
Lemma process_record_phone_raises all_records fields e p :
  truthy (cell fields "Status") = false ->
  format_phone (cell fields "Phone") = Raise e ->
  process_record all_records (PDict fields) p = (Raise e, p).
Proof.
  intros Hstatus Hphone. unfold process_record. cbn [py_get]. unfold cell in *.
  rewrite bind_eval_at, Hstatus. cbn [negb].
  rewrite !bind_eval_at. rewrite Hphone, bind_eval_raise_at. reflexivity.
Qed.

End LedgerRows.


(** A confirmed row and a row without a name. *)
Lemma poll_passes_over_processed_rows_example :
  @check_new_bookings obliging_world
    (ledger [ledger_row "9876543210" "Asha" "Confirmed"; ledger_row "9876500000" "" ""]) []
  = (Ok true, []).
Proof. vm_compute. reflexivity. Qed.

(** X11. A phone cell that is not text stops the poll.  When the rows
    before it are passed over and a new row's [Phone] is a value on which
    the formatting raises (a number, as a cell holding only digits is read),
    the exception leaves the loop: [check_new_bookings] returns [False], no
    confirmation is sent for that row, and the rows after it are not looked
    at. *)
Theorem numeric_phone_stops_the_poll `{World} `{Sheets}
    (before after : list pyval) (fields : list (str * pyval)) (e : exn)
    (tr : list event) :
  google_creds = true ->
  get_all_records = Some (before ++ PDict fields :: after) ->
  Forall passed_over before ->
  truthy (cell fields "Status") = false ->
  format_phone (cell fields "Phone") = Raise e ->
  check_new_bookings tr = (Ok false, tr).
Proof.
  intros Hcreds Hrecords Hbefore Hstatus Hphone.
  unfold check_new_bookings, check_all_records. rewrite Hcreds, Hrecords. cbn [negb].
  unfold bind at 1.
  rewrite (for_each_app _ before (PDict fields :: after) _ _
             (for_each_passed_over _ before Hbefore (Poll None tr))).
  cbn [for_each]. unfold bind at 1.
  rewrite (process_record_phone_raises _ fields e _ Hstatus Hphone). reflexivity.
Qed.

(** A confirmed row, then a row whose phone was read as a number, then a
    new row that would have been confirmed. *)
Lemma numeric_phone_stops_the_poll_witness :
  @check_new_bookings obliging_world
    (ledger [ ledger_row "9876543210" "Asha" "Confirmed";
              numeric_row 9876500000 "Ravi";
              ledger_row "9876511111" "Meera" "" ]) []
  = (Ok false, []).
Proof.
  unfold numeric_row.
  match goal with
  | |- @check_new_bookings _ (ledger (?r :: PDict ?fields :: ?rest)) _ = _ =>
      apply (@numeric_phone_stops_the_poll obliging_world
               (ledger (r :: PDict fields :: rest)) [r] rest fields TypeError [])
  end.
  - reflexivity.
  - reflexivity.
  - constructor; [|constructor]. left. eexists. split; [reflexivity|].
    vm_compute. reflexivity.
  - vm_compute. reflexivity.
  - vm_compute. reflexivity.
Defined.

(** ** Formatting the phone of a row *)


Section PhoneFormat.

Lemma kept_chars_phone_char p :
  forallb phone_char (filter (fun c => (48 <= c /\ c <= 57) \/ c = 43) p) = true.
Proof.
  induction p as [|c p IH]; [reflexivity|].
  rewrite filter_cons. destruct (decide _) as [Hc|_]; [|exact IH].
  cbn [forallb]. rewrite IH, andb_true_r. unfold phone_char.
  destruct Hc as [[Hlo Hhi]| ->]; [|reflexivity].
  apply N.leb_le in Hlo, Hhi. rewrite Hlo, Hhi. reflexivity.
Qed.

Lemma kept_chars_fixed q :
  forallb phone_char q = true ->
  filter (fun c => (48 <= c /\ c <= 57) \/ c = 43) q = q.
Proof.
  induction q as [|c q IH]; [reflexivity|]. cbn [forallb]. intros Hq.
  apply andb_true_iff in Hq as [Hc Hq]. rewrite filter_cons, (IH Hq).
  destruct (decide _) as [_|Hout]; [reflexivity|].
  exfalso. apply Hout. unfold phone_char in Hc.
  apply orb_true_iff in Hc as [Hc|Hc].
  - apply andb_true_iff in Hc as [Hlo Hhi]. apply N.leb_le in Hlo, Hhi. left. split; assumption.
  - apply N.eqb_eq in Hc. right. exact Hc.
Qed.

Lemma format_phone_text p :
  format_phone (PStr p)
  = let kept := filter (fun c => (48 <= c /\ c <= 57) \/ c = 43) p in
    Ok (PStr (if bool_decide (p = []) then []
              else if bool_decide (length kept = 10%nat) && negb (starts_with (utf8 "+") kept)
                   then utf8 "+91" ++ kept else kept)).
Proof.
  unfold format_phone, truthy. destruct (bool_decide (p = [])) eqn:Hp; cbn [negb].
  - apply bool_decide_eq_true in Hp. subst p. reflexivity.
  - cbn zeta. destruct (_ && _); reflexivity.
Qed.

Lemma kept_chars_filter (p : str) :
  filter (fun c => (48 <= c /\ c <= 57) \/ c = 43) p
  = filter (fun c => Is_true (phone_char c)) p.
Proof.
  apply list_filter_iff. intros c. unfold phone_char.
  rewrite orb_True, andb_True, !Is_true_true, !N.leb_le, N.eqb_eq. reflexivity.
Qed.

(** A text is falsy only when it is empty, and then nothing is kept of it:
    the code's test on the phone makes no difference to the result. *)
Lemma format_phone_kept (p : str) :
  format_phone (PStr p)
  = let kept := filter (fun c => Is_true (phone_char c)) p in
    Ok (PStr (if bool_decide (length kept = 10%nat) && negb (starts_with (utf8 "+") kept)
              then utf8 "+91" ++ kept else kept)).
Proof.
  rewrite format_phone_text, kept_chars_filter. cbn zeta.
  destruct (bool_decide (p = [])) eqn:Hp; [|reflexivity].
  apply bool_decide_eq_true in Hp. subst p. reflexivity.
Qed.

End PhoneFormat.

(** X12. The phone of a row, formatted.  For every text the result is
    given by the characters of the text that are ASCII digits or plus
    signs, in their order: when these are exactly ten and the first is no
    plus, the result is [+91] followed by them, otherwise it is they
    themselves (a number written with the country code but without the
    plus stays without it).  So the result holds only digits and plus
    signs, a character that is neither makes no difference wherever it
    stands, a text of digits and plus signs loses nothing, formatting
    never fails on text, and formatting the result again changes
    nothing. *)
Theorem format_phone_normal_form (p : str) :
  let kept := filter (fun c => Is_true (phone_char c)) p in
  let q := if bool_decide (length kept = 10%nat) && negb (starts_with (utf8 "+") kept)
           then utf8 "+91" ++ kept else kept in
  format_phone (PStr p) = Ok (PStr q)
  /\ forallb phone_char q = true
  /\ format_phone (PStr q) = Ok (PStr q)
  /\ (forallb phone_char p = true -> kept = p)
  /\ (forall (before after : str) (c : char),
        p = before ++ c :: after -> phone_char c = false ->
        format_phone (PStr p) = format_phone (PStr (before ++ after))).
Proof.
  intros kept q.
  assert (Hrun : format_phone (PStr p) = Ok (PStr q)) by apply format_phone_kept.
  assert (Hkept : forallb phone_char kept = true)
    by (subst kept; rewrite <- kept_chars_filter; apply kept_chars_phone_char).
  assert (Hfixed : forall t, forallb phone_char t = true ->
                             filter (fun c => Is_true (phone_char c)) t = t)
    by (intros t Ht; rewrite <- kept_chars_filter; apply kept_chars_fixed; exact Ht).
  split; [exact Hrun|].
  assert (Hq : forallb phone_char q = true /\ format_phone (PStr q) = Ok (PStr q)).
  { subst q.
    destruct (bool_decide (length kept = 10%nat) && negb (starts_with (utf8 "+") kept))
      eqn:Hten.
    - apply andb_true_iff in Hten as [Hlen Hplus]. apply bool_decide_eq_true in Hlen.
      assert (Hall : forallb phone_char (utf8 "+91" ++ kept) = true)
        by (rewrite forallb_app, Hkept; reflexivity).
      split; [exact Hall|].
      rewrite format_phone_kept. cbn zeta. rewrite (Hfixed _ Hall).
      rewrite (bool_decide_eq_false_2 (length (utf8 "+91" ++ kept) = 10%nat));
        [reflexivity|].
      rewrite length_app, Hlen. vm_compute. discriminate.
    - split; [exact Hkept|].
      rewrite format_phone_kept. cbn zeta. rewrite (Hfixed _ Hkept), Hten. reflexivity. }
  destruct Hq as [Hall Hagain].
  split; [exact Hall|]. split; [exact Hagain|]. split.
  - intros Hclean. exact (Hfixed p Hclean).
  - intros before after c -> Hc. rewrite !format_phone_kept. cbn zeta.
    rewrite !filter_app, filter_cons_False; [reflexivity|].
    rewrite Hc. exact id.
Qed.

(** A number as people write it: the hyphen and the space go, the ten
    digits stay in their order and get the prefix. *)
Lemma format_phone_normal_form_witness :
  format_phone (PStr (utf8 "98765-43210 ")) = Ok (PStr (utf8 "+919876543210")).
Proof.
  destruct (format_phone_normal_form (utf8 "98765-43210 ")) as [Hrun _].
  exact Hrun.
Defined.

(** One with the country code but no plus, and one with both. *)
Lemma format_phone_normal_form_example :
  format_phone (PStr (utf8 "91 98765 43210")) = Ok (PStr (utf8 "919876543210"))
  /\ format_phone (PStr (utf8 "+91 98765 43210")) = Ok (PStr (utf8 "+919876543210")).
Proof. repeat split; vm_compute; reflexivity. Qed.

(** ** Where the status of a confirmed row is written *)

Section LedgerWrites.
Context `{World} `{Sheets}.

(** [records.index(record)] is the first position holding an equal
    record. *)
Lemma index_of_first record records :
  forall j, index_of record records = Some j ->
    (exists r, records !! j = Some r /\ py_eqb r record = true)
    /\ (forall j' r, (j' < j)%nat -> records !! j' = Some r -> py_eqb r record = false).
Proof.
  induction records as [|r0 records IH]; intros j Hj; cbn [index_of] in Hj;
    [discriminate|].
  destruct (py_eqb r0 record) eqn:Heq.
  - injection Hj as <-. split; [exists r0; split; [reflexivity | exact Heq]|].
    intros j' r Hlt. lia.
  - destruct (index_of record records) as [i|] eqn:Hi; [|discriminate].
    cbn [fmap option_fmap option_map] in Hj. injection Hj as <-.
    destruct (IH i eq_refl) as [(r & Hr & Hreq) Hfirst].
    split; [exists r; split; [exact Hr | exact Hreq]|].
    intros [|j'] r' Hlt Hr'.
    + cbn in Hr'. injection Hr' as <-. exact Heq.
    + apply (Hfirst j' r'); [lia | exact Hr'].
Qed.

(** A new row that has its four fields and whose confirmation is
    accepted: the row written is the one [index] returns. *)
Lemma process_record_sent all_records record phone name date time unit budget status p :
  py_get record (utf8 "Status") PNone = Ok status -> truthy status = false ->
  py_get record (utf8 "Phone") PNone = Ok (PStr phone) ->
  py_get record (utf8 "Name") PNone = Ok name ->
  py_get record (utf8 "Preferred Date") PNone = Ok date ->
  py_get record (utf8 "Preferred Time") PNone = Ok time ->
  py_get record (utf8 "Unit Type") PNone = Ok unit ->
  py_get record (utf8 "Budget") PNone = Ok budget ->
  forall sent_to j,
    format_phone (PStr phone) = Ok (PStr sent_to) -> sent_to <> [] ->
    truthy name = true -> truthy date = true -> truthy time = true ->
    index_of record all_records = Some j ->
    let message := PStr (booking_confirmation name date time unit budget) in
    accepted (requests_post (poll_trace p) (SendText (PStr sent_to) message)) = true ->
    process_record all_records record p
    = update_status (j + 2) (utf8 "Confirmed")
        (Poll (Some (j + 2)%nat) (poll_trace p ++ [Post (SendText (PStr sent_to) message)])).
Proof.
  intros Hstatus Hnew Hphone Hname Hdate Htime Hunit Hbudget sent_to j Hfmt Hto
    Hn Hd Ht Hj message Hsend.
  unfold process_record.
  rewrite Hstatus, bind_eval_at, Hnew. cbn [negb].
  rewrite Hphone, bind_eval_at, Hname, bind_eval_at, Hdate, bind_eval_at,
    Htime, bind_eval_at, Hunit, bind_eval_at, Hbudget, bind_eval_at.
  rewrite Hfmt, bind_eval_at.
  replace (truthy (PStr sent_to)) with true
    by (cbn [truthy]; rewrite bool_decide_eq_false_2 by assumption; reflexivity).
  rewrite Hn, Hd, Ht. cbn [andb].
  unfold bind at 1. unfold outside at 1. rewrite send_whatsapp_text_at.
  fold message. rewrite Hsend, Hj.
  unfold bind at 1. unfold modify. cbn [poll_trace]. reflexivity.
Qed.

End LedgerWrites.

(** X13. The row that is marked [Confirmed].  For a new row with its four
    fields, a text phone and an accepted confirmation, the status is written
    at the row number taken from [all_records.index(record)]: the first row
    of the sheet that equals this one.  That is the row itself when no
    earlier row is equal to it; when an earlier row is (the same visit
    submitted twice), it is the earlier row that is written, and this row
    keeps its empty status. *)
Theorem confirmation_marks_first_equal_row `{World} `{Sheets}
    (all_records : list pyval) (record : pyval) (phone sent_to : str)
    (name date time unit budget status : pyval) (col : Z) (j : nat) (p : poll) :
  py_get record (utf8 "Status") PNone = Ok status -> truthy status = false ->
  py_get record (utf8 "Phone") PNone = Ok (PStr phone) ->
  py_get record (utf8 "Name") PNone = Ok name ->
  py_get record (utf8 "Preferred Date") PNone = Ok date ->
  py_get record (utf8 "Preferred Time") PNone = Ok time ->
  py_get record (utf8 "Unit Type") PNone = Ok unit ->
  py_get record (utf8 "Budget") PNone = Ok budget ->
  format_phone (PStr phone) = Ok (PStr sent_to) -> sent_to <> [] ->
  truthy name = true -> truthy date = true -> truthy time = true ->
  index_of record all_records = Some j ->
  find_status_col = Some col ->
  let message := PStr (booking_confirmation name date time unit budget) in
  let sent := poll_trace p ++ [Post (SendText (PStr sent_to) message)] in
  accepted (requests_post (poll_trace p) (SendText (PStr sent_to) message)) = true ->
  update_cell_ok sent (j + 2) col (utf8 "Confirmed") = true ->
  process_record all_records record p
  = (Ok tt, Poll (Some (j + 2)%nat) (sent ++ [UpdateCell (j + 2) col (utf8 "Confirmed")]))
  /\ (exists r, all_records !! j = Some r /\ py_eqb r record = true)
  /\ (forall j' r, (j' < j)%nat -> all_records !! j' = Some r -> py_eqb r record = false).
Proof.
  intros Hstatus Hnew Hphone Hname Hdate Htime Hunit Hbudget Hfmt Hto Hn Hd Ht Hj Hcol
    message sent Hsend Hupdate.
  split; [|exact (index_of_first record all_records j Hj)].
  rewrite (process_record_sent all_records record phone name date time unit budget status p
             Hstatus Hnew Hphone Hname Hdate Htime Hunit Hbudget sent_to j Hfmt Hto
             Hn Hd Ht Hj Hsend).
  fold message. fold sent. unfold update_status. rewrite Hcol.
  cbn [poll_trace row_num]. rewrite Hupdate. reflexivity.
Qed.

(** The same visit submitted twice: both rows are new and equal.  The
    second row, processed after the first, writes row 2 again, not row 3. *)
Lemma confirmation_marks_first_equal_row_witness :
  let row := ledger_row "9876543210" "Asha" "" in
  exists message,
    @process_record obliging_world (ledger [row; row]) [row; row] row
      (Poll (Some 2%nat) [Post (SendText (PStr (utf8 "+919876543210")) message);
                          UpdateCell 2 7 (utf8 "Confirmed")])
    = (Ok tt,
       Poll (Some 2%nat)
         [ Post (SendText (PStr (utf8 "+919876543210")) message);
           UpdateCell 2 7 (utf8 "Confirmed");
           Post (SendText (PStr (utf8 "+919876543210")) message);
           UpdateCell 2 7 (utf8 "Confirmed") ]).
Proof.
  intros row. eexists.
  refine (proj1 (@confirmation_marks_first_equal_row obliging_world (ledger [row; row])
                   [row; row] row (utf8 "9876543210") (utf8 "+919876543210")
                   (PStr (utf8 "Asha")) (PStr (utf8 "05/11/2025")) (PStr (utf8 "10:00 AM"))
                   (PStr (utf8 "3 BHK")) (PStr (utf8 "1.5 Cr")) (PStr []) 7%Z 0%nat
                   (Poll (Some 2%nat) _)
                   _ _ _ _ _ _ _ _ _ _ _ _ _ _ _ _ _));
    try (vm_compute; reflexivity); vm_compute; discriminate.
Defined.

(** ** The periodic check *)

Section PollEvents.
Context `{World} `{Sheets}.

Lemma records_only_nothing {A} (m : M poll A) :
  (forall p, poll_trace (snd (m p)) = poll_trace p) -> records_only m.
Proof. intros Hm p. exists []. rewrite app_nil_r. split; [apply Hm | reflexivity]. Qed.

Lemma records_only_ret {A} (a : A) : records_only (ret a).
Proof. apply records_only_nothing. reflexivity. Qed.

Lemma records_only_raise {A} e : records_only (@raise poll A e).
Proof. apply records_only_nothing. reflexivity. Qed.

Lemma records_only_eval {A} (o : outcome A) : records_only (eval o).
Proof. apply records_only_nothing. reflexivity. Qed.

Lemma records_only_modify f :
  (forall p, poll_trace (f p) = poll_trace p) -> records_only (modify f).
Proof. intros Hf. apply records_only_nothing. intros p. apply Hf. Qed.

Lemma records_only_bind {A B} (m : M poll A) (f : A -> M poll B) :
  records_only m -> (forall a, records_only (f a)) -> records_only (bind m f).
Proof.
  intros Hm Hf p. unfold bind. destruct (Hm p) as (new1 & Hnew1 & Hall1).
  destruct (m p) as [[a|e] p']; cbn [snd] in *; [|exists new1; split; assumption].
  destruct (Hf a p') as (new2 & Hnew2 & Hall2).
  exists (new1 ++ new2). split.
  - rewrite Hnew2, Hnew1, app_assoc. reflexivity.
  - rewrite forallb_app, Hall1, Hall2. reflexivity.
Qed.

Lemma records_only_send to_phone message :
  records_only (outside (send_whatsapp_text to_phone message)).
Proof.
  intros p. unfold outside. rewrite send_whatsapp_text_at.
  exists [Post (SendText to_phone message)]. split; reflexivity.
Qed.

Lemma records_only_update_status row value : records_only (update_status row value).
Proof.
  unfold update_status. destruct find_status_col as [col|]; [|apply records_only_raise].
  intros p. destruct (update_cell_ok (poll_trace p) row col value).
  - exists [UpdateCell row col value]. split; reflexivity.
  - exists []. rewrite app_nil_r. split; reflexivity.
Qed.

Lemma records_only_process_record all_records record :
  records_only (process_record all_records record).
Proof.
  unfold process_record.
  repeat first
    [ match goal with
      | |- records_only (ret _) => apply records_only_ret
      | |- records_only (raise _) => apply records_only_raise
      | |- records_only (eval _) => apply records_only_eval
      | |- records_only (outside (send_whatsapp_text _ _)) => apply records_only_send
      | |- records_only (update_status _ _) => apply records_only_update_status
      | |- records_only (modify _) => apply records_only_modify; intros ?; reflexivity
      | |- records_only (fun p => (Ok (row_num p), p)) =>
          apply records_only_nothing; intros ?; reflexivity
      end
    | match goal with
      | |- records_only (bind _ _) => apply records_only_bind; [|intros ?]
      end
    | match goal with
      | |- records_only (if ?b then _ else _) => destruct b
      | |- records_only (match ?x with _ => _ end) => destruct x
      end ].
Qed.

Lemma records_only_for_each all_records records :
  records_only (for_each records (process_record all_records)).
Proof.
  induction records as [|record records IH]; cbn [for_each]; [apply records_only_ret|].
  apply records_only_bind; [apply records_only_process_record | intros _; exact IH].
Qed.

(** A poll returns, and what it added to the log are confirmations and
    status writes. *)
Lemma check_new_bookings_events tr :
  exists b new,
    check_new_bookings tr = (Ok b, tr ++ new) /\ forallb ledger_event new = true.
Proof.
  assert (Hall : records_only check_all_records).
  { unfold check_all_records. destruct (negb google_creds); [apply records_only_ret|].
    destruct get_all_records as [records|]; [|apply records_only_raise].
    apply records_only_bind; [apply records_only_for_each | intros _; apply records_only_ret]. }
  destruct (Hall (Poll None tr)) as (new & Hnew & Hevents).
  unfold check_new_bookings. cbn [poll_trace] in Hnew.
  destruct (check_all_records (Poll None tr)) as [[b|e] p]; cbn [snd] in Hnew;
    rewrite Hnew; eexists _, new; split; try reflexivity; exact Hevents.
Qed.

End PollEvents.

(** X14. The periodic check, over any number of rounds: it never stops
    with an exception; every round ends with the five-minute sleep, whether
    the check succeeded or returned [False]; and since
    [check_new_bookings] lets no exception out, the one-minute retry of the
    handler never happens.  Between the sleeps the log holds only
    confirmations and status writes. *)
Theorem periodic_check_sleeps_five_minutes `{World} `{Sheets}
    (rounds : nat) (tr : list event) :
  exists new,
    check_bookings_periodically rounds tr = (Ok tt, tr ++ new)
    /\ length (filter (fun e => Is_true (five_minutes e)) new) = rounds
    /\ forallb (fun e => five_minutes e || ledger_event e) new = true.
Proof.
  revert tr. induction rounds as [|rounds IH]; intros tr.
  - exists []. rewrite app_nil_r. repeat split.
  - cbn [check_bookings_periodically].
    destruct (check_new_bookings_events tr) as (b & new1 & Hcheck & Hall1).
    unfold bind at 1. unfold try. unfold bind at 1. rewrite Hcheck.
    unfold sleep at 1. unfold bind at 1. unfold ret at 1.
    destruct (IH ((tr ++ new1) ++ [Sleep 300])) as (new2 & Hrest & Hcount & Hall2).
    unfold bind. cbn [fst snd]. rewrite Hrest.
    exists (new1 ++ [Sleep 300] ++ new2). split; [rewrite <- !app_assoc; reflexivity|].
    split.
    + rewrite !filter_app, !length_app, Hcount.
      replace (filter (fun e => Is_true (five_minutes e)) new1) with (@nil event).
      * reflexivity.
      * symmetry. clear -Hall1. induction new1 as [|e new1 IH']; [reflexivity|].
        cbn [forallb] in Hall1. apply andb_true_iff in Hall1 as [He Hall1].
        rewrite filter_cons, <- (IH' Hall1).
        destruct (decide (Is_true (five_minutes e))) as [Hfive|]; [|reflexivity].
        destruct e as [r|z|row c v]; try (exfalso; exact Hfive). discriminate He.
    + rewrite !forallb_app, Hall2. cbn [forallb five_minutes]. rewrite !andb_true_r.
      clear -Hall1. induction new1 as [|e new1 IH']; [reflexivity|].
      cbn [forallb] in *. apply andb_true_iff in Hall1 as [He Hall1].
      rewrite He, orb_true_r, (IH' Hall1). reflexivity.
Qed.

(** ** What the relevant data can hold *)


Section Within.
Context `{Unicode}.
Variable allowed : str -> pyval -> Prop.
Hypothesis copied : forall k v, is_name copied_names k = true -> allowed k v.
Hypothesis zone_a : allowed (utf8 "block_a_zone") block_a_zone_details.
Hypothesis zone_b : allowed (utf8 "block_b_zone") block_b_zone_details.
Hypothesis zone_c : allowed (utf8 "central_amenities") central_amenities_details.

Lemma within_insert rd k v :
  within allowed rd -> allowed k v -> within allowed (<[k := v]> rd).
Proof.
  intros Hrd Hkv k' v'. destruct (decide (k = k')) as [<-|Hne].
  - rewrite lookup_insert_eq. intros [= <-]. exact Hkv.
  - rewrite lookup_insert_ne by exact Hne. apply Hrd.
Qed.

Ltac took_apart :=
  repeat match goal with
         | H : Ok _ = Ok _ |- _ => injection H as H; try subst
         | H : Raise _ = Ok _ |- _ => discriminate H
         | H : obind ?m _ = Ok _ |- _ =>
             let E := fresh "E" in
             destruct m eqn:E; cbn [obind] in H; [|discriminate H]
         | H : (if ?b then _ else _) = Ok _ |- _ => destruct b eqn:?
         end.

Ltac name_copied := apply copied; vm_compute; reflexivity.

Ltac stored :=
  repeat first
    [ assumption
    | apply within_insert; [|first [name_copied | exact zone_a | exact zone_b | exact zone_c]] ].

Lemma within_copy_section lang_data name target rd rd' :
  is_name copied_names target = true ->
  within allowed rd -> copy_section lang_data name target rd = Ok rd' ->
  within allowed rd'.
Proof.
  intros Hname Hrd Hc. unfold copy_section in Hc. took_apart; [|exact Hrd].
  apply within_insert; [exact Hrd | apply copied, Hname].
Qed.

Lemma within_copy_construction_elevator lang_data rd rd' :
  within allowed rd -> copy_construction_elevator lang_data rd = Ok rd' ->
  within allowed rd'.
Proof.
  intros Hrd Hc. unfold copy_construction_elevator in Hc. took_apart; stored.
Qed.

Lemma within_unit_slice lang_data plan label price parking rd rd' :
  within allowed rd -> unit_slice lang_data plan label price parking rd = Ok rd' ->
  within allowed rd'.
Proof. intros Hrd Hc. unfold unit_slice in Hc. took_apart; stored. Qed.

Lemma within_plan_details lang_data plan target asked rd rd' :
  is_name copied_names target = true ->
  within allowed rd -> plan_details lang_data plan target asked rd = Ok rd' ->
  within allowed rd'.
Proof.
  intros Hname Hrd Hc. unfold plan_details in Hc. took_apart; [|exact Hrd].
  apply within_insert; [exact Hrd | apply copied, Hname].
Qed.

Ltac blocks :=
  repeat match goal with
         | E : unit_slice _ _ _ _ _ ?rd = Ok ?r, Hrd : within allowed ?rd |- _ =>
             assert (within allowed r) by exact (within_unit_slice _ _ _ _ _ _ _ Hrd E);
             clear E
         | E : copy_section ?ld ?n ?t ?rd = Ok ?r, Hrd : within allowed ?rd |- _ =>
             assert (within allowed r)
               by (apply (within_copy_section ld n t rd r);
                   [vm_compute; reflexivity | exact Hrd | exact E]);
             clear E
         | E : plan_details ?ld ?p ?t ?a ?rd = Ok ?r, Hrd : within allowed ?rd |- _ =>
             assert (within allowed r)
               by (apply (within_plan_details ld p t a rd r);
                   [vm_compute; reflexivity | exact Hrd | exact E]);
             clear E
         | E : copy_construction_elevator _ ?rd = Ok ?r, Hrd : within allowed ?rd |- _ =>
             assert (within allowed r)
               by exact (within_copy_construction_elevator _ _ _ Hrd E);
             clear E
         end.

Lemma within_facility_and_flat_queries q lang_data rd rd' :
  within allowed rd -> facility_and_flat_queries q lang_data rd = Ok rd' ->
  within allowed rd'.
Proof.
  intros Hrd Hc. unfold facility_and_flat_queries in Hc. took_apart; blocks; assumption.
Qed.

Lemma within_ground_floor_queries q lang_data rd rd' :
  within allowed rd -> ground_floor_queries q lang_data rd = Ok rd' ->
  within allowed rd'.
Proof.
  intros Hrd Hc. unfold ground_floor_queries in Hc.
  destruct (any_in _ q); [|injection Hc as <-; exact Hrd].
  took_apart; [|exact Hrd].
  repeat match goal with
         | |- context [if ?b then _ else _] => destruct b
         end; stored.
Qed.

Lemma within_unit_configuration_queries q lang_data rd rd' :
  within allowed rd -> unit_configuration_queries q lang_data rd = Ok rd' ->
  within allowed rd'.
Proof.
  intros Hrd Hc. unfold unit_configuration_queries in Hc.
  destruct (any_in _ q); [|injection Hc as <-; exact Hrd].
  took_apart;
    match goal with
    | E1 : plan_details _ (utf8 "3bhk_unit_plan") _ _ ?rd0 = Ok _ |- _ =>
        assert (Hdetails : within allowed rd0) by stored
    end;
    blocks; assumption.
Qed.

Lemma within_topic keywords name target q lang_data rd rd' :
  is_name copied_names target = true ->
  within allowed rd -> topic keywords name target q lang_data rd = Ok rd' ->
  within allowed rd'.
Proof.
  intros Hname Hrd Hc. unfold topic in Hc. destruct (any_in keywords q).
  - exact (within_copy_section _ _ _ _ _ Hname Hrd Hc).
  - injection Hc as <-. exact Hrd.
Qed.

Lemma within_room_queries q lang_data rd rd' :
  within allowed rd -> room_queries q lang_data rd = Ok rd' -> within allowed rd'.
Proof.
  intros Hrd Hc. unfold room_queries in Hc.
  destruct (any_in _ q); [|injection Hc as <-; exact Hrd].
  took_apart. blocks. assumption.
Qed.

Lemma within_elevator_detail_queries q lang_data rd rd' :
  within allowed rd -> elevator_detail_queries q lang_data rd = Ok rd' ->
  within allowed rd'.
Proof.
  intros Hrd Hc. unfold elevator_detail_queries in Hc.
  destruct (any_in _ q); [|injection Hc as <-; exact Hrd].
  took_apart; blocks; stored.
Qed.

Lemma within_topic_checks q lang_data rd rd' :
  within allowed rd -> topic_checks q lang_data rd = Ok rd' -> within allowed rd'.
Proof.
  intros Hrd Hc. unfold topic_checks in Hc. took_apart.
  repeat match goal with
         | E : facility_and_flat_queries _ _ ?rd = Ok ?r, Hrd : within allowed ?rd |- _ =>
             assert (within allowed r)
               by exact (within_facility_and_flat_queries _ _ _ _ Hrd E);
             clear E
         | E : ground_floor_queries _ _ ?rd = Ok ?r, Hrd : within allowed ?rd |- _ =>
             assert (within allowed r) by exact (within_ground_floor_queries _ _ _ _ Hrd E);
             clear E
         | E : unit_configuration_queries _ _ ?rd = Ok ?r, Hrd : within allowed ?rd |- _ =>
             assert (within allowed r)
               by exact (within_unit_configuration_queries _ _ _ _ Hrd E);
             clear E
         | E : room_queries _ _ ?rd = Ok ?r, Hrd : within allowed ?rd |- _ =>
             assert (within allowed r) by exact (within_room_queries _ _ _ _ Hrd E);
             clear E
         | E : elevator_detail_queries _ _ ?rd = Ok ?r, Hrd : within allowed ?rd |- _ =>
             assert (within allowed r)
               by exact (within_elevator_detail_queries _ _ _ _ Hrd E);
             clear E
         | E : topic ?kw ?n ?t ?q ?ld ?rd = Ok ?r, Hrd : within allowed ?rd |- _ =>
             assert (within allowed r)
               by (apply (within_topic kw n t q ld rd r);
                   [vm_compute; reflexivity | exact Hrd | exact E]);
             clear E
         end.
  assumption.
Qed.

Lemma within_add_sections sections lang_data :
  forallb (is_name copied_names) sections = true ->
  forall rd rd', within allowed rd -> add_sections sections lang_data rd = Ok rd' ->
    within allowed rd'.
Proof.
  induction sections as [|section rest IH]; intros Hnames rd rd' Hrd Ha;
    cbn [add_sections] in Ha.
  - injection Ha as <-. exact Hrd.
  - cbn [forallb] in Hnames. apply andb_true_iff in Hnames as [Hname Hnames].
    destruct (copy_section lang_data section section rd) as [rd1|e] eqn:Hc;
      [|discriminate]. cbn [obind] in Ha.
    exact (IH Hnames _ _ (within_copy_section _ _ _ _ _ Hname Hrd Hc) Ha).
Qed.

Lemma within_extract_relevant_data user_question faq_data language rd :
  extract_relevant_data user_question faq_data language = Ok rd -> within allowed rd.
Proof.
  unfold extract_relevant_data. intros Hc.
  destruct (language_tree faq_data language) as [lang_data|e]; [|discriminate].
  cbn [obind] in Hc. cbn zeta in Hc.
  destruct (copy_section lang_data _ _ ∅) as [rd0|e] eqn:H0'; [|discriminate].
  cbn [obind] in Hc.
  destruct (topic_checks _ lang_data rd0) as [rd1|e] eqn:H1'; [|discriminate].
  cbn [obind] in Hc.
  assert (Hempty : within allowed ∅) by (intros k v Hk; rewrite lookup_empty in Hk; discriminate).
  assert (Hrd0 : within allowed rd0)
    by (refine (within_copy_section _ _ _ _ _ _ Hempty H0'); vm_compute; reflexivity).
  pose proof (within_topic_checks _ _ _ _ Hrd0 H1') as Hrd1.
  unfold minimal_data_fallback in Hc. destruct (bool_decide _).
  - refine (within_add_sections fallback_sections lang_data _ _ _ Hrd1 Hc).
    vm_compute. reflexivity.
  - injection Hc as <-. exact Hrd1.
Qed.

End Within.

Section EmptyTree.
Context `{Unicode}.

Lemma topic_checks_empty_tree q rd : topic_checks q (PDict []) rd = Ok rd.
Proof.
  unfold topic_checks.
  assert (Hfacility : facility_and_flat_queries q (PDict []) rd = Ok rd).
  { unfold facility_and_flat_queries.
    repeat match goal with
           | |- context [if ?b then _ else _] => destruct b
           end; reflexivity. }
  assert (Hground : ground_floor_queries q (PDict []) rd = Ok rd)
    by (unfold ground_floor_queries; destruct (any_in _ q); reflexivity).
  assert (Hunits : unit_configuration_queries q (PDict []) rd = Ok rd)
    by (unfold unit_configuration_queries; destruct (any_in _ q); reflexivity).
  assert (Hrooms : room_queries q (PDict []) rd = Ok rd)
    by (unfold room_queries; destruct (any_in _ q); reflexivity).
  assert (Helevator : elevator_detail_queries q (PDict []) rd = Ok rd)
    by (unfold elevator_detail_queries; destruct (any_in _ q); reflexivity).
  assert (Htopic : forall keywords name target,
             topic keywords name target q (PDict []) rd = Ok rd)
    by (intros; unfold topic; destruct (any_in _ q); reflexivity).
  rewrite Hfacility. cbn [obind]. rewrite Hground. cbn [obind].
  rewrite Hunits. cbn [obind]. rewrite Hrooms. cbn [obind].
  repeat (rewrite Htopic; cbn [obind]). rewrite Helevator. cbn [obind].
  repeat (rewrite Htopic; cbn [obind]). reflexivity.
Qed.

Lemma extract_relevant_data_empty_tree user_question faq_data language :
  language_tree faq_data language = Ok (PDict []) ->
  extract_relevant_data user_question faq_data language = Ok ∅.
Proof.
  intros Htree. unfold extract_relevant_data. rewrite Htree. cbn [obind]. cbn zeta.
  replace (copy_section (PDict []) (utf8 "project_info") (utf8 "project_info") ∅)
    with (Ok (∅ : gmap str pyval)) by reflexivity.
  cbn [obind]. rewrite topic_checks_empty_tree. cbn [obind]. reflexivity.
Qed.

End EmptyTree.

(** X15. Without a knowledge base the bot still answers.  When the tree
    of the language is empty, [extract_relevant_data] returns the empty
    result for every question, without raising; that is the case for every
    language when neither FAQ file could be loaded, and then the prompt for
    Gemini is built all the same, with no project data in it. *)
Theorem no_knowledge_base_no_data `{Unicode} `{Config}
    (user_question : str) (faq_data : pyval) (language : str)
    (chat_history : list (pyval * bool)) :
  (language_tree faq_data language = Ok (PDict []) ->
   extract_relevant_data user_question faq_data language = Ok ∅)
  /\ (faq_data_english = None -> faq_data_gujarati = None ->
      extract_relevant_data user_question FAQ_DATA language = Ok ∅
      /\ exists recent,
           create_gemini_prompt user_question FAQ_DATA language chat_history
           = Ok (Prompt ∅ recent language user_question)).
Proof.
  split; [apply extract_relevant_data_empty_tree|].
  intros Henglish Hgujarati.
  assert (Hdata : extract_relevant_data user_question FAQ_DATA language = Ok ∅).
  { apply extract_relevant_data_empty_tree.
    unfold FAQ_DATA, load_faq_data. rewrite Henglish, Hgujarati.
    unfold language_tree. cbn [py_get default from_option id dict_lookup obind].
    replace (str_eqb english english) with true by (vm_compute; reflexivity).
    cbn [default from_option id obind dict_lookup].
    destruct (str_eqb language english); [reflexivity|].
    destruct (str_eqb language gujarati); reflexivity. }
  split; [exact Hdata|].
  unfold create_gemini_prompt. rewrite Hdata. cbn [obind]. eexists. reflexivity.
Qed.

(** X16. The result of [extract_relevant_data] is bounded whatever the
    knowledge base holds: its entries are stored under twenty-three fixed
    names, so it has at most twenty-three of them; a section of the tree
    under any other name is never passed on. *)
Theorem relevant_data_names `{Unicode}
    (user_question : str) (faq_data : pyval) (language : str) (rd : gmap str pyval) :
  extract_relevant_data user_question faq_data language = Ok rd ->
  (forall k, is_Some (rd !! k) -> is_name (copied_names ++ zone_names) k = true)
  /\ (size rd <= 23)%nat.
Proof.
  intros Hrd.
  assert (Hnames : within (fun k _ => is_name (copied_names ++ zone_names) k = true) rd).
  { apply (within_extract_relevant_data _) with user_question faq_data language;
      [|vm_compute; reflexivity..|exact Hrd].
    intros k _ Hk. unfold is_name in *. rewrite existsb_app, Hk. reflexivity. }
  split; [intros k [v Hv]; exact (Hnames k v Hv)|].
  rewrite <- (length_map_to_list rd), <- (length_fmap fst).
  change 23%nat with (length (copied_names ++ zone_names)).
  apply submseteq_length, NoDup_submseteq; [apply NoDup_fst_map_to_list|].
  intros k Hk. apply list_elem_of_fmap in Hk as ([k' v] & -> & Hkv).
  apply elem_of_map_to_list in Hkv. specialize (Hnames _ _ Hkv). cbn [fst].
  unfold is_name in Hnames. apply existsb_exists in Hnames as (x & Hin & Heq).
  apply bool_decide_eq_true in Heq. subst x. apply list_elem_of_In. exact Hin.
Qed.

(** X17. What the model is told about the ground-floor zones never comes
    from the knowledge base: an entry of the result under [block_a_zone],
    [block_b_zone] or [central_amenities] is the dictionary written in the
    code, with its English texts, whatever the tree holds under these names
    and whatever the language. *)
Theorem zone_details_are_the_codes `{Unicode}
    (user_question : str) (faq_data : pyval) (language : str) (rd : gmap str pyval) :
  extract_relevant_data user_question faq_data language = Ok rd ->
  (forall v, rd !! utf8 "block_a_zone" = Some v -> v = block_a_zone_details)
  /\ (forall v, rd !! utf8 "block_b_zone" = Some v -> v = block_b_zone_details)
  /\ (forall v, rd !! utf8 "central_amenities" = Some v -> v = central_amenities_details).
Proof.
  intros Hrd.
  assert (Hzones : within zone_constant rd).
  { apply (within_extract_relevant_data _) with user_question faq_data language;
      [| | | |exact Hrd].
    - intros k v Hk. repeat split; intros ->; vm_compute in Hk; discriminate Hk.
    - repeat split; intros E; try reflexivity; vm_compute in E; discriminate E.
    - repeat split; intros E; try reflexivity; vm_compute in E; discriminate E.
    - repeat split; intros E; try reflexivity; vm_compute in E; discriminate E. }
  repeat split; intros v Hv; destruct (Hzones _ _ Hv) as (Ha & Hb & Hc); auto.
Qed.

(** The sample knowledge base and a greeting. *)
Lemma relevant_data_names_witness :
  exists rd,
    @extract_relevant_data ascii_only (utf8 "hello") sample_faq_data english = Ok rd
    /\ (size rd <= 23)%nat.
Proof.
  assert (Hrun : exists rd,
             @extract_relevant_data ascii_only (utf8 "hello") sample_faq_data english = Ok rd)
    by (eexists; vm_compute; reflexivity).
  destruct Hrun as [rd Hrun]. exists rd. split; [exact Hrun|].
  exact (proj2 (@relevant_data_names ascii_only (utf8 "hello") sample_faq_data english rd Hrun)).
Defined.

(** A question about the society office of Block A: the foyer it is told
    about is the one of the code, not the one of the knowledge base. *)
Lemma zone_details_are_the_codes_witness :
  exists rd v,
    @extract_relevant_data ascii_only (utf8 "Where is the society office in Block A?")
      zoned_faq_data english = Ok rd
    /\ rd !! utf8 "block_a_zone" = Some v
    /\ v = block_a_zone_details.
Proof.
  assert (Hrun : exists rd v,
             @extract_relevant_data ascii_only
               (utf8 "Where is the society office in Block A?") zoned_faq_data english
             = Ok rd
             /\ rd !! utf8 "block_a_zone" = Some v)
    by (eexists _, _; split; vm_compute; reflexivity).
  destruct Hrun as (rd & v & Hrun & Hv). exists rd, v.
  split; [exact Hrun|]. split; [exact Hv|].
  exact (proj1 (@zone_details_are_the_codes ascii_only _ zoned_faq_data english rd Hrun)
           v Hv).
Defined.

(** ** The question put to Gemini *)


Section PromptFacts.
Context `{Unicode} `{World} `{Config}.

Lemma extract_budget_from_text_returns text :
  exists budget, extract_budget_from_text text = Ok budget.
Proof.
  unfold extract_budget_from_text.
  pose proof (budget_loop_spec budget_patterns (lower text) budget_patterns_well_formed)
    as Hspec.
  destruct (existsb _ budget_patterns).
  - destruct Hspec as (amount & [->| ->]); eexists; reflexivity.
  - rewrite Hspec. eexists; reflexivity.
Qed.

Lemma recent_history_last chat_history entry :
  recent_history (chat_history ++ [entry]) `suffix_of` chat_history ++ [entry]
  /\ length (recent_history (chat_history ++ [entry]))
     = Nat.min 4 (length (chat_history ++ [entry]))
  /\ last (recent_history (chat_history ++ [entry])) = Some entry.
Proof.
  unfold recent_history. set (h := chat_history ++ [entry]).
  destruct (bool_decide (4 < length h)%nat) eqn:Hlong.
  - apply bool_decide_eq_true in Hlong. split; [apply suffix_drop|]. split.
    + rewrite length_drop. lia.
    + subst h. rewrite length_app in *. cbn [length] in *.
      rewrite drop_app_le by lia. apply last_snoc.
  - apply bool_decide_eq_false in Hlong. split; [reflexivity|]. split; [lia|].
    subst h. apply last_snoc.
Qed.

(** The default answer, step by step: the prompt is made of the relevant
    data for this question, the recent history with the question in it, the
    language detected in the question and the question. *)
Lemma default_answer_turn from_phone message_text t data :
  first_matching_check (state t) (strip (lower message_text)) = DefaultAnswer ->
  extract_relevant_data message_text FAQ_DATA (detect_language message_text) = Ok data ->
  let asked := inbound message_text t in
  let ready := if asked_about_brochure (state asked)
               then Turn (set_asked_about_brochure false (state asked)) (trace asked)
               else asked in
  let p := Prompt data (recent_history (chat_history (state t) ++ [(PStr message_text, true)]))
             (detect_language message_text) message_text in
  process_turn from_phone (PStr message_text) t
  = match call_gemini_api p (detect_language message_text) (trace t) with
    | (Ok ai_response, tr) =>
        (Ok ai_response, Turn (append_history (ai_response, false) (state ready)) tr)
    | (Raise e, tr) => (Raise e, Turn (state ready) tr)
    end.
Proof.
  intros Hcheck Hdata asked ready p.
  rewrite process_turn_inbound, router_first_match, first_matching_check_inbound, Hcheck.
  cbn [outcome_of]. rewrite drop_pending_confirmation_at. fold asked. fold ready.
  unfold use_gemini.
  destruct (extract_budget_from_text_returns message_text) as [budget ->].
  rewrite bind_eval_at, !bind_read_at.
  assert (Hlanguage : language (state ready) = detect_language message_text)
    by (subst ready asked; destruct (asked_about_brochure _); reflexivity).
  assert (Hhistory : chat_history (state ready)
                     = chat_history (state t) ++ [(PStr message_text, true)])
    by (subst ready asked; destruct (asked_about_brochure _); reflexivity).
  assert (Htrace : trace ready = trace t)
    by (subst ready asked; destruct (asked_about_brochure _); reflexivity).
  rewrite Hlanguage, Hhistory. unfold create_gemini_prompt. rewrite Hdata. cbn [obind].
  fold (recent_history (chat_history (state t) ++ [(PStr message_text, true)])). fold p.
  rewrite bind_eval_at, bind_io_at, Htrace.
  destruct (call_gemini_api p (detect_language message_text) (trace t)) as [[ai|e] tr];
    [|reflexivity].
  rewrite bind_update_at. reflexivity.
Qed.

End PromptFacts.

(** X18. What the default answer asks.  When no earlier check of the
    router matches and the relevant data can be extracted, the turn posts to
    Gemini, before anything else, a prompt made of: the data relevant to
    this question, in the language detected in this question; the question
    itself; and the recent history, which is the last four entries of the
    chat history (all of it when it has no more than four) and always ends
    with the question just received. *)
Theorem default_answer_asks_gemini `{Unicode} `{World} `{Config}
    (from_phone : pyval) (message_text : str) (t : turn) (data : gmap str pyval) :
  first_matching_check (state t) (strip (lower message_text)) = DefaultAnswer ->
  extract_relevant_data message_text FAQ_DATA (detect_language message_text) = Ok data ->
  api_key_configured = true ->
  let history := chat_history (state t) ++ [(PStr message_text, true)] in
  exists recent later,
    trace (snd (process_turn from_phone (PStr message_text) t))
    = trace t
      ++ Post (GenerateContent (Prompt data recent (detect_language message_text) message_text))
         :: later
    /\ recent `suffix_of` history
    /\ length recent = Nat.min 4 (length history)
    /\ last recent = Some (PStr message_text, true).
Proof.
  intros Hcheck Hdata Hkey history.
  exists (recent_history history).
  rewrite (default_answer_turn from_phone message_text t data Hcheck Hdata). cbn zeta.
  fold history. rewrite call_gemini_api_unfolded. cbn zeta. rewrite Hkey.
  set (p := Prompt data (recent_history history) (detect_language message_text) message_text).
  destruct (response_text (requests_post (trace t) (GenerateContent p))) as [text|].
  - exists []. split; [reflexivity | apply recent_history_last].
  - destruct (response_text _) as [text|];
      exists [Sleep 2; Post (GenerateContent p)];
      (split; [reflexivity | apply recent_history_last]).
Qed.

(** A first question with no FAQ file loaded, in a world that answers
    nothing: the prompt carries no data and the question as its only
    history. *)
Lemma default_answer_asks_gemini_witness :
  let text := utf8 "What is the price?" in
  let t := Turn (new_state (PStr (utf8 "919876543210"))) [] in
  exists recent later,
    trace (snd (@process_turn ascii_only unreachable_world sample_config
                  (PStr (utf8 "919876543210")) (PStr text) t))
    = Post (GenerateContent (Prompt ∅ recent english text)) :: later
    /\ recent = [(PStr text, true)].
Proof.
  intros text t.
  destruct (@default_answer_asks_gemini ascii_only unreachable_world sample_config
              (PStr (utf8 "919876543210")) text t ∅)
    as (recent & later & Htrace & Hsuffix & Hlength & Hlast).
  - vm_compute. reflexivity.
  - vm_compute. reflexivity.
  - reflexivity.
  - exists recent, later. split; [exact Htrace|].
    cbn [chat_history state new_state t app length Nat.min] in *.
    destruct recent as [|entry [|entry' recent]]; try discriminate Hlength.
    cbn [last] in Hlast. injection Hlast as ->. reflexivity.
Defined.

(** ** What the date and the phone patterns accept *)


Section PatternFacts.
Context `{Unicode}.

Lemma steps_boundary_inv c c' :
  steps RWordBoundary c c' -> c' = c /\ at_word_boundary c = true.
Proof. inversion 1; subst; split; [reflexivity | assumption]. Qed.

(** A run as a word: what it consumed, and where it stands after. *)
Lemma steps_word r c c' :
  steps r c c' ->
  exists w, c' = Cursor (rev w ++ seen c) (ahead c') (group1 c') /\ ahead c = w ++ ahead c'.
Proof.
  intros Hsteps. destruct (steps_consumes r c c' Hsteps) as (w & Hseen & Hahead).
  exists w. split; [|exact Hahead]. destruct c' as [sn' ah' g']; cbn [seen ahead group1] in *.
  rewrite Hseen. reflexivity.
Qed.

Lemma steps_class_word p c c' :
  steps (RClass p) c c' ->
  exists x, p x = true /\ seen c' = x :: seen c /\ ahead c = x :: ahead c'
            /\ group1 c' = group1 c.
Proof.
  intros Hs. apply steps_class_inv in Hs as (x & ah' & Hah & Hp & ->).
  exists x. repeat split; assumption.
Qed.

Lemma steps_lit_word s :
  forall c c', steps (RLit s) c c' ->
    seen c' = rev s ++ seen c /\ ahead c = s ++ ahead c' /\ group1 c' = group1 c.
Proof.
  induction s as [|x s IH]; intros c c' Hs; cbn [RLit] in Hs.
  - apply steps_empty_inv in Hs as ->. repeat split.
  - apply steps_seq_inv in Hs as (c1 & Hx & Hrest).
    apply steps_class_word in Hx as (y & Hy & Hseen & Hahead & Hgroup).
    apply N.eqb_eq in Hy. subst y.
    destruct (IH _ _ Hrest) as (Hseen' & Hahead' & Hgroup').
    split; [|split].
    + rewrite Hseen', Hseen. cbn [rev]. rewrite <- app_assoc. reflexivity.
    + rewrite Hahead, Hahead'. reflexivity.
    + congruence.
Qed.

Lemma steps_times_word p n :
  forall c c', steps (RTimes n (RClass p)) c c' ->
    exists w, length w = n /\ Forall (fun x => p x = true) w
              /\ seen c' = rev w ++ seen c /\ ahead c = w ++ ahead c'
              /\ group1 c' = group1 c.
Proof.
  induction n as [|n IH]; intros c c' Hs; cbn [RTimes] in Hs.
  - apply steps_empty_inv in Hs as ->. exists []. repeat split. constructor.
  - apply steps_seq_inv in Hs as (c1 & Hx & Hrest).
    apply steps_class_word in Hx as (x & Hx & Hseen & Hahead & Hgroup).
    destruct (IH _ _ Hrest) as (w & Hlen & Hall & Hseen' & Hahead' & Hgroup').
    exists (x :: w). split; [cbn [length]; congruence|].
    split; [constructor; assumption|]. split; [|split].
    + rewrite Hseen', Hseen. cbn [rev]. rewrite <- app_assoc. reflexivity.
    + rewrite Hahead, Hahead'. reflexivity.
    + congruence.
Qed.

Lemma steps_opt_class_word p c c' :
  steps (ROpt (RClass p)) c c' ->
  exists w, (length w <= 1)%nat /\ Forall (fun x => p x = true) w
            /\ seen c' = rev w ++ seen c /\ ahead c = w ++ ahead c'
            /\ group1 c' = group1 c.
Proof.
  intros Hs. apply steps_alt_inv in Hs as [Hs|Hs].
  - apply steps_class_word in Hs as (x & Hx & Hseen & Hahead & Hgroup).
    exists [x]. repeat split; try assumption; [cbn; lia | repeat constructor; exact Hx].
  - apply steps_empty_inv in Hs as ->. exists []. repeat split; [cbn; lia | constructor].
Qed.

(** Building a run, one character at a time. *)
Lemma steps_class_here p x sn ah g :
  p x = true -> steps (RClass p) (Cursor sn (x :: ah) g) (Cursor (x :: sn) ah g).
Proof. intros Hp. exact (steps_class p (Cursor sn (x :: ah) g) x ah eq_refl Hp). Qed.

Lemma steps_times_here p w :
  Forall (fun x => p x = true) w ->
  forall sn ah g,
    steps (RTimes (length w) (RClass p)) (Cursor sn (w ++ ah) g) (Cursor (rev w ++ sn) ah g).
Proof.
  induction 1 as [|x w Hx _ IH]; intros sn ah g; cbn [length RTimes app rev].
  - constructor.
  - eapply steps_seq; [apply steps_class_here, Hx|].
    rewrite <- app_assoc. apply IH.
Qed.

Lemma steps_opt_class_here p w :
  Forall (fun x => p x = true) w -> (length w <= 1)%nat ->
  forall sn ah g,
    steps (ROpt (RClass p)) (Cursor sn (w ++ ah) g) (Cursor (rev w ++ sn) ah g).
Proof.
  intros Hall Hlen sn ah g. destruct w as [|x [|y w]]; cbn [length] in Hlen; [| |lia].
  - apply steps_alt_r. constructor.
  - apply steps_alt_l. apply steps_class_here. inversion Hall; assumption.
Qed.

Lemma separator_iff s :
  existsb (N.eqb s) (utf8 "/-") = true <-> s = 47 \/ s = 45.
Proof.
  change (utf8 "/-") with [47; 45]. cbn [existsb]. rewrite !orb_true_iff, !N.eqb_eq.
  intuition discriminate.
Qed.

Lemma date_pattern_shaped text :
  is_Some (re_match_start date_pattern text) -> date_shaped text.
Proof.
  intros [m Hm]. unfold re_match_start, re_at in Hm.
  apply re_run_sound in Hm as (c' & Hsteps & _). unfold date_pattern in Hsteps.
  apply steps_seq_inv in Hsteps as (c1 & Hd1 & Hsteps).
  apply steps_seq_inv in Hsteps as (c2 & Hd1' & Hsteps).
  apply steps_seq_inv in Hsteps as (c3 & Hs1 & Hsteps).
  apply steps_seq_inv in Hsteps as (c4 & Hd2 & Hsteps).
  apply steps_seq_inv in Hsteps as (c5 & Hd2' & Hsteps).
  apply steps_seq_inv in Hsteps as (c6 & Hs2 & Hyear).
  apply steps_class_word in Hd1 as (a & Ha & _ & Ha1 & _).
  apply steps_opt_class_word in Hd1' as (w1 & Hl1 & Hw1 & _ & Ha2 & _).
  apply steps_class_word in Hs1 as (s1 & Hsep1 & _ & Ha3 & _).
  apply steps_class_word in Hd2 as (b & Hb & _ & Ha4 & _).
  apply steps_opt_class_word in Hd2' as (w2 & Hl2 & Hw2 & _ & Ha5 & _).
  apply steps_class_word in Hs2 as (s2 & Hsep2 & _ & Ha6 & _).
  apply steps_times_word in Hyear as (year & Hly & Hyear & _ & Ha7 & _).
  cbn [ahead] in Ha1.
  exists (a :: w1), (b :: w2), year, s1, s2, (ahead c').
  split.
  { rewrite Ha1, Ha2, Ha3, Ha4, Ha5, Ha6, Ha7. reflexivity. }
  split; [constructor; assumption|]. split; [cbn [length]; lia|].
  split; [constructor; assumption|]. split; [cbn [length]; lia|].
  split; [exact Hyear|]. split; [exact Hly|].
  split; apply separator_iff; assumption.
Qed.

Lemma date_shaped_pattern text :
  date_shaped text -> is_Some (re_match_start date_pattern text).
Proof.
  intros (day & month & year & s1 & s2 & rest & -> & Hday & Hlday & Hmonth & Hlmonth
          & Hyear & Hlyear & Hs1 & Hs2).
  apply separator_iff in Hs1, Hs2.
  destruct day as [|a day]; cbn [length] in Hlday; [lia|].
  destruct month as [|b month]; cbn [length] in Hlmonth; [lia|].
  apply Forall_cons in Hday as [Ha Hday]. apply Forall_cons in Hmonth as [Hb Hmonth].
  unfold re_match_start, re_at.
  eapply re_run_complete; [|reflexivity].
  unfold date_pattern. cbn [app].
  eapply steps_seq; [apply steps_class_here, Ha|].
  eapply steps_seq; [apply (steps_opt_class_here _ day Hday); lia|].
  eapply steps_seq; [apply steps_class_here; exact Hs1|].
  eapply steps_seq; [apply steps_class_here, Hb|].
  eapply steps_seq; [apply (steps_opt_class_here _ month Hmonth); lia|].
  eapply steps_seq; [apply steps_class_here; exact Hs2|].
  rewrite <- Hlyear. apply steps_times_here. exact Hyear.
Qed.

End PatternFacts.

(** X19. The date check of the booking dialogue is a test on the
    beginning of the message and on its shape only: [re.match] with the
    date pattern succeeds exactly on the texts that begin with one or two
    digits, a slash or hyphen, one or two digits, a slash or hyphen and four
    digits (the digits of any script).  So a day 99 or a month 00 is
    accepted, the two separators need not agree, anything may follow the
    year, and a text accepted stays accepted with more text after it. *)
Theorem date_pattern_accepts_a_shape `{Unicode} (text : str) :
  (is_Some (re_match_start date_pattern text) <-> date_shaped text)
  /\ (forall more, is_Some (re_match_start date_pattern text) ->
        is_Some (re_match_start date_pattern (text ++ more))).
Proof.
  split; [split; [apply date_pattern_shaped | apply date_shaped_pattern]|].
  intros more Hm. apply date_shaped_pattern. apply date_pattern_shaped in Hm.
  destruct Hm as (day & month & year & s1 & s2 & rest & -> & Hshape).
  exists day, month, year, s1, s2, (rest ++ more). split; [|exact Hshape].
  rewrite <- !app_assoc. cbn [app]. rewrite <- !app_assoc. cbn [app].
  rewrite <- !app_assoc. reflexivity.
Qed.

(** No day 99, no month 99, and words after the year. *)
Lemma date_pattern_accepts_a_shape_example :
  is_Some (@re_match_start ascii_only (@date_pattern ascii_only) (utf8 "99/99-0000 or whenever"))
  /\ @re_match_start ascii_only (@date_pattern ascii_only) (utf8 "on 05/11/2025") = None
  /\ @re_match_start ascii_only (@date_pattern ascii_only) (utf8 "05/11/25") = None.
Proof. split; [vm_compute; eexists; reflexivity | split; vm_compute; reflexivity]. Qed.

Section PhonePatternFacts.
Context `{Unicode}.

Lemma re_search_from_whole r ah :
  forall sn m, re_search_from r sn ah = Some m ->
    exists pre suf c',
      ah = pre ++ suf
      /\ steps r (Cursor (rev pre ++ sn) suf None) c'
      /\ whole m = consumed_since (Cursor (rev pre ++ sn) suf None) c'.
Proof.
  assert (Hat : forall sn ah m, re_at r (Cursor sn ah None) = Some m ->
            exists c', steps r (Cursor sn ah None) c'
                       /\ whole m = consumed_since (Cursor sn ah None) c').
  { intros sn ah' m Hm. unfold re_at in Hm.
    apply re_run_sound in Hm as (c' & Hsteps & Hk). injection Hk as <-.
    exists c'. split; [exact Hsteps | reflexivity]. }
  induction ah as [|x ah IH]; intros sn m Hs; cbn [re_search_from] in Hs.
  - destruct (re_at r (Cursor sn [] None)) as [m'|] eqn:Hm; [|discriminate].
    injection Hs as ->. destruct (Hat _ _ _ Hm) as (c' & Hsteps & Hwhole).
    exists [], [], c'. repeat split; assumption.
  - destruct (re_at r (Cursor sn (x :: ah) None)) as [m'|] eqn:Hm.
    + injection Hs as ->. destruct (Hat _ _ _ Hm) as (c' & Hsteps & Hwhole).
      exists [], (x :: ah), c'. repeat split; assumption.
    + destruct (IH _ _ Hs) as (pre & suf & c' & -> & Hsteps & Hwhole).
      exists (x :: pre), suf, c'. cbn [rev]. rewrite <- app_assoc.
      repeat split; assumption.
Qed.

Lemma head_rev_last {A} (l : list A) : head (rev l) = last l.
Proof.
  induction l as [|x l IH] using rev_ind; [reflexivity|].
  rewrite rev_app_distr, last_snoc. reflexivity.
Qed.

(** The run of the phone pattern from a position of the text. *)
Lemma phone_pattern_run sn suf c' :
  steps phone_pattern (Cursor sn suf None) c' ->
  exists w,
    phone_shaped w
    /\ seen c' = rev w ++ sn /\ suf = w ++ ahead c'
    /\ xorb (word_at (head sn)) (word_at (head w)) = true
    /\ xorb (word_at (last w)) (word_at (head (ahead c'))) = true.
Proof.
  intros Hsteps. unfold phone_pattern in Hsteps.
  apply steps_seq_inv in Hsteps as (c0 & Hstart & Hsteps).
  apply steps_boundary_inv in Hstart as [-> Hstart].
  apply steps_seq_inv in Hsteps as (c1 & Hprefix & Hsteps).
  apply steps_seq_inv in Hsteps as (c2 & Hfirst & Hsteps).
  apply steps_seq_inv in Hsteps as (c3 & Hrest & Hend).
  apply steps_boundary_inv in Hend as [Heq Hend]. subst c3.
  apply steps_class_word in Hfirst as (first & Hrange & Hseen2 & Hahead1 & _).
  apply steps_times_word in Hrest as (rest & Hlen & Hdigits & Hseen3 & Hahead2 & _).
  apply andb_true_iff in Hrange as [Hlo Hhi]. apply N.leb_le in Hlo, Hhi.
  assert (Hprefix' : exists prefix,
             (prefix = [] \/ prefix = utf8 "+91"
              \/ exists sep, prefix = utf8 "+91" ++ [sep] /\ (is_space sep = true \/ sep = 45))
             /\ seen c1 = rev prefix ++ sn /\ suf = prefix ++ ahead c1).
  { apply steps_alt_inv in Hprefix as [Hprefix|Hprefix].
    - apply steps_seq_inv in Hprefix as (c1' & Hlit & Hsep).
      apply steps_lit_word in Hlit as (Hseen & Hahead & _). cbn [seen ahead] in Hseen, Hahead.
      apply steps_opt_class_word in Hsep as (w & Hw & Hall & Hseen' & Hahead' & _).
      destruct w as [|sep [|sep' w]]; cbn [length] in Hw; [| |lia].
      + exists (utf8 "+91"). split; [right; left; reflexivity|].
        cbn [rev app] in Hseen', Hahead'. split; [congruence | congruence].
      + exists (utf8 "+91" ++ [sep]). split.
        * right. right. exists sep. split; [reflexivity|].
          apply Forall_cons in Hall as [Hsep _]. apply orb_true_iff in Hsep as [Hsep|Hsep];
            [left; exact Hsep | right; apply N.eqb_eq in Hsep; exact Hsep].
        * split.
          -- rewrite Hseen', Hseen, rev_app_distr, <- app_assoc. reflexivity.
          -- rewrite Hahead, Hahead', <- app_assoc. reflexivity.
    - apply steps_empty_inv in Hprefix as ->. exists []. split; [left; reflexivity|].
      split; reflexivity. }
  destruct Hprefix' as (prefix & Hshape & Hseen1 & Hsuf).
  exists (prefix ++ first :: rest).
  assert (Hseen : seen c' = rev (prefix ++ first :: rest) ++ sn).
  { rewrite Hseen3, Hseen2, Hseen1, rev_app_distr. cbn [rev].
    rewrite <- !app_assoc. reflexivity. }
  split; [exists prefix, first, rest; repeat split; assumption|].
  split; [exact Hseen|].
  split; [rewrite Hsuf, Hahead1, Hahead2, <- app_assoc; reflexivity|].
  split.
  - unfold at_word_boundary in Hstart. cbn [seen ahead] in Hstart.
    rewrite Hsuf, Hahead1 in Hstart.
    replace (head (prefix ++ first :: rest)) with (head (prefix ++ first :: ahead c2));
      [exact Hstart|]. destruct prefix; reflexivity.
  - unfold at_word_boundary in Hend. rewrite Hseen in Hend.
    replace (last (prefix ++ first :: rest))
      with (head (rev (prefix ++ first :: rest) ++ sn)); [exact Hend|].
    rewrite <- head_rev_last.
    destruct (rev (prefix ++ first :: rest)) as [|y l] eqn:Hrev; [|reflexivity].
    apply (f_equal (@length _)) in Hrev. rewrite length_rev, length_app in Hrev.
    cbn [length] in Hrev. lia.
Qed.

End PhonePatternFacts.

(** X20. What the phone pattern finds.  A match of the pattern in a
    message is the prefix [+91], with or without one space or hyphen, or no
    prefix, then a digit 6 to 9 and nine digits; it ends where no letter,
    digit or underscore follows.  The prefix is part of the match only when
    a letter, digit or underscore stands right before the plus sign: a
    number at the start of the message or after a space is found without
    its [+91], and a number written [+91] and ten digits without a space is
    not found at all. *)
Theorem phone_pattern_match `{Unicode} (text : str) (m : re_match) :
  re_search phone_pattern text = Some m ->
  phone_shaped (whole m)
  /\ exists before after,
       text = before ++ whole m ++ after
       /\ word_at (last before) = starts_with (utf8 "+") (whole m)
       /\ xorb (word_at (last (whole m))) (word_at (head after)) = true.
Proof.
  intros Hm. unfold re_search in Hm.
  apply re_search_from_whole in Hm as (pre & suf & c' & -> & Hsteps & Hwhole).
  destruct (phone_pattern_run _ _ _ Hsteps) as (w & Hshape & Hseen & Hsuf & Hstart & Hend).
  assert (Hw : whole m = w).
  { rewrite Hwhole. apply consumed_since_app. exact Hseen. }
  rewrite Hw. split; [exact Hshape|].
  exists pre, (ahead c'). split; [rewrite Hsuf; reflexivity|]. split; [|exact Hend].
  rewrite app_nil_r, head_rev_last in Hstart.
  destruct Hshape as (prefix & first & rest & -> & Hprefix & [Hlo Hhi] & _).
  assert (Hfirst : is_word first = true).
  { unfold is_word, is_ascii.
    replace (first <? 128) with true by (symmetry; apply N.ltb_lt; lia).
    replace (48 <=? first) with true by (symmetry; apply N.leb_le; lia).
    replace (first <=? 57) with true by (symmetry; apply N.leb_le; lia).
    reflexivity. }
  assert (Hnot43 : (43 =? first) = false) by (apply N.eqb_neq; lia).
  destruct Hprefix as [-> |[-> |(sep & -> & _)]].
  - cbn [app head word_at starts_with] in *. change (utf8 "+") with [43].
    cbn [starts_with]. rewrite Hnot43. cbn [andb].
    rewrite Hfirst in Hstart. destruct (word_at (last pre)); [discriminate Hstart | reflexivity].
  - change (utf8 "+91") with [43; 57; 49] in *. change (utf8 "+") with [43].
    cbn [app head word_at starts_with N.eqb Pos.eqb andb] in *.
    replace (is_word 43) with false in Hstart by reflexivity.
    destruct (word_at (last pre)); [reflexivity | discriminate Hstart].
  - change (utf8 "+91") with [43; 57; 49] in *. change (utf8 "+") with [43].
    cbn [app head word_at starts_with N.eqb Pos.eqb andb] in *.
    replace (is_word 43) with false in Hstart by reflexivity.
    destruct (word_at (last pre)); [reflexivity | discriminate Hstart].
Qed.

(** The example of the reprompt, and the same number without the space. *)
Lemma phone_pattern_match_witness :
  exists m,
    @re_search ascii_only (@phone_pattern ascii_only) (utf8 "+91 9876543210") = Some m
    /\ whole m = utf8 "9876543210"
    /\ @phone_shaped ascii_only (whole m)
    /\ @re_search ascii_only (@phone_pattern ascii_only) (utf8 "+919876543210") = None.
Proof.
  eexists. split; [vm_compute; reflexivity|]. split; [reflexivity|].
  split; [|vm_compute; reflexivity].
  refine (proj1 (@phone_pattern_match ascii_only (utf8 "+91 9876543210") _ _)).
  vm_compute. reflexivity.
Defined.

(** ** When a turn fails *)


Section FailureFacts.
Context `{Unicode} `{World} `{Config}.

Lemma never_raises_ret {A} (a : A) : never_raises (ret a).
Proof. intros t. eexists _, _. reflexivity. Qed.

Lemma never_raises_read {A} (f : conv_state -> A) : never_raises (read f).
Proof. intros t. eexists _, _. reflexivity. Qed.

Lemma never_raises_update f : never_raises (update f).
Proof. intros t. eexists _, _. reflexivity. Qed.

Lemma never_raises_bind {A B} (m : M turn A) (f : A -> M turn B) :
  never_raises m -> (forall a, never_raises (f a)) -> never_raises (bind m f).
Proof.
  intros Hm Hf t. destruct (Hm t) as (a & t' & Hmt). unfold bind. rewrite Hmt. apply Hf.
Qed.

Lemma never_raises_say reply : never_raises (say reply).
Proof. intros t. eexists _, _. reflexivity. Qed.

Lemma never_raises_send_document to_phone document_id :
  never_raises (io (send_whatsapp_document to_phone document_id)).
Proof.
  intros t. unfold io. rewrite send_whatsapp_document_at. eexists _, _. reflexivity.
Qed.

Lemma never_raises_drop_pending_confirmation : never_raises drop_pending_confirmation.
Proof.
  unfold drop_pending_confirmation.
  apply never_raises_bind; [apply never_raises_read|]. intros asked.
  destruct asked; [apply never_raises_update | apply never_raises_ret].
Qed.

(** Every check of the router but the default answer returns. *)
Lemma outcome_of_never_raises c from_phone message_text user_lower :
  c <> AwaitingPhone -> c <> BookingSteps -> c <> DefaultAnswer ->
  never_raises (outcome_of c from_phone message_text user_lower).
Proof.
  intros Hphone Hsteps Hdefault. destruct c; try congruence; cbn [outcome_of].
  - unfold send_requested_brochure.
    apply never_raises_bind; [apply never_raises_update|]. intros _.
    apply never_raises_bind; [apply never_raises_send_document|]. intros success.
    destruct (negb success); [apply never_raises_say | apply never_raises_ret].
  - apply never_raises_bind; [apply never_raises_update|]. intros _.
    unfold send_confirmed_brochure.
    apply never_raises_bind; [apply never_raises_send_document|]. intros success.
    destruct (negb success); [apply never_raises_say | apply never_raises_ret].
  - apply never_raises_bind; [apply never_raises_drop_pending_confirmation|]. intros _.
    apply never_raises_say.
  - apply never_raises_bind; [apply never_raises_drop_pending_confirmation|]. intros _.
    unfold send_booking_form.
    apply never_raises_bind; [apply never_raises_read|]. intros language.
    destruct (str_eqb language gujarati); apply never_raises_say.
Qed.

Lemma first_matching_check_without_mode s user_lower :
  lead_capture_mode s = None ->
  first_matching_check s user_lower <> AwaitingPhone
  /\ first_matching_check s user_lower <> BookingSteps.
Proof.
  intros Hmode. unfold first_matching_check. rewrite Hmode.
  rewrite !bool_decide_eq_false_2 by discriminate.
  repeat match goal with
         | |- context [if ?b then _ else _] => destruct b
         end; split; discriminate.
Qed.

(** The default answer when the relevant data cannot be extracted. *)
Lemma default_answer_turn_raises from_phone message_text t e :
  first_matching_check (state t) (strip (lower message_text)) = DefaultAnswer ->
  extract_relevant_data message_text FAQ_DATA (detect_language message_text) = Raise e ->
  fst (process_turn from_phone (PStr message_text) t) = Raise e.
Proof.
  intros Hcheck Hdata.
  rewrite process_turn_inbound, router_first_match, first_matching_check_inbound, Hcheck.
  cbn [outcome_of]. rewrite drop_pending_confirmation_at.
  set (ready := if asked_about_brochure _ then _ else _).
  unfold use_gemini.
  destruct (extract_budget_from_text_returns message_text) as [budget ->].
  rewrite bind_eval_at, !bind_read_at.
  assert (Hlanguage : language (state ready) = detect_language message_text)
    by (subst ready; destruct (asked_about_brochure _); reflexivity).
  rewrite Hlanguage. unfold create_gemini_prompt. rewrite Hdata. cbn [obind].
  rewrite bind_eval_raise_at. reflexivity.
Qed.

Lemma turn_fails_on_the_knowledge_base from_phone message_text t e :
  lead_capture_mode (state t) = None ->
  fst (process_turn from_phone (PStr message_text) t) = Raise e
  <-> first_matching_check (state t) (strip (lower message_text)) = DefaultAnswer
      /\ extract_relevant_data message_text FAQ_DATA (detect_language message_text)
         = Raise e.
Proof.
  intros Hmode. split.
  - intros Hraise.
    destruct (first_matching_check_without_mode (state t) (strip (lower message_text)) Hmode)
      as [Hphone Hsteps].
    assert (Hdec : first_matching_check (state t) (strip (lower message_text))
                   = DefaultAnswer
                   \/ first_matching_check (state t) (strip (lower message_text))
                      <> DefaultAnswer)
      by (destruct (first_matching_check _ _);
          first [left; reflexivity | right; discriminate]).
    destruct Hdec as [Hdefault|Hother].
    + split; [exact Hdefault|].
      destruct (extract_relevant_data message_text FAQ_DATA (detect_language message_text))
        as [data|e'] eqn:Hdata.
      * exfalso.
        rewrite (default_answer_turn from_phone message_text t data Hdefault Hdata) in Hraise.
        cbn zeta in Hraise. rewrite call_gemini_api_unfolded in Hraise. cbn zeta in Hraise.
        destruct api_key_configured; [|discriminate Hraise].
        destruct (response_text _); [discriminate Hraise|].
        destruct (response_text _); discriminate Hraise.
      * rewrite (default_answer_turn_raises from_phone message_text t e' Hdefault Hdata)
          in Hraise. congruence.
    + exfalso.
      rewrite process_turn_inbound, router_first_match, first_matching_check_inbound
        in Hraise.
      destruct (outcome_of_never_raises _ from_phone message_text
                  (strip (lower message_text)) Hphone Hsteps Hother
                  (inbound message_text t)) as (a & t' & Hrun).
      rewrite Hrun in Hraise. discriminate Hraise.
  - intros [Hcheck Hdata]. exact (default_answer_turn_raises _ _ _ _ Hcheck Hdata).
Qed.

End FailureFacts.

(** X21. The one way a call on a text fails.  In a process started from
    an empty [CONV_STATE], a call of [process_incoming_message] with a text
    from a sender that can be a key raises exactly when no check of the
    router before the default answer matches and [extract_relevant_data]
    raises on the knowledge base for this question, and then with that very
    exception; every other turn returns, whatever the transport and Gemini
    answer. *)
Theorem call_fails_only_on_the_knowledge_base `{Unicode} `{World} `{Config}
    (from_phone message_id : pyval) (message_text : str) (m : machine) (k : key) (e : exn) :
  reachable m ->
  hash_key from_phone = Ok k ->
  let s := default (new_state from_phone) (CONV_STATE m !! k) in
  fst (process_incoming_message from_phone (PStr message_text) message_id m) = Raise e
  <-> first_matching_check s (strip (lower message_text)) = DefaultAnswer
      /\ extract_relevant_data message_text FAQ_DATA (detect_language message_text)
         = Raise e.
Proof.
  intros Hreach Hk s.
  assert (Hmode : lead_capture_mode s = None).
  { subst s. destruct (CONV_STATE m !! k) as [s|] eqn:Hs; cbn [default from_option];
      [exact (reachable_no_capture_mode m Hreach k s Hs) | reflexivity]. }
  rewrite (process_incoming_message_at _ _ _ _ _ Hk). fold s.
  rewrite <- (turn_fails_on_the_knowledge_base from_phone message_text
                (Turn s (events m)) e Hmode).
  destruct (process_turn _ _ _) as [r t']. reflexivity.
Qed.

(** A question about prices when a unit of the FAQ has no type: the call
    raises [KeyError]; a request for the brochure returns all the same. *)
Lemma call_fails_only_on_the_knowledge_base_witness :
  fst (@process_incoming_message ascii_only obliging_world untyped_units_config
         (PStr (utf8 "919876543210")) (PStr (utf8 "What is the price?"))
         (PStr (utf8 "wamid.1")) start)
  = Raise KeyError
  /\ fst (@process_incoming_message ascii_only obliging_world untyped_units_config
            (PStr (utf8 "919876543210")) (PStr (utf8 "Send me the brochure"))
            (PStr (utf8 "wamid.1")) start)
     = Ok PNone.
Proof.
  split; [|vm_compute; reflexivity].
  apply (@call_fails_only_on_the_knowledge_base ascii_only obliging_world
           untyped_units_config (PStr (utf8 "919876543210")) (PStr (utf8 "wamid.1"))
           (utf8 "What is the price?") start (KStr (utf8 "919876543210")) KeyError).
  - apply reachable_start.
  - reflexivity.
  - split; vm_compute; reflexivity.
Defined.
